(** * vhi-resource-api: the total-usage aggregation engine and the CPU billing
    calculator

    A shallow embedding of [getTotalUsage] (clusterUsage.go) and
    [CalculateCPUUsage] (billing.go), and of the code around them:
    [CalculateMemoryUsage] and the helpers of billing.go, [getClusterUsage],
    the clients' [ListAllServers], [GetAdminToken], [LoadDomainNames] and the
    row conversion of [GetMetricMeasures], and the [bearerAuth] middleware.

    - [float64] is Rocq's primitive binary64 [float]; sums, quotients and
      comparisons are the IEEE operations the Go code performs.
    - Go maps with string keys ([Metrics], [projectToDomain],
      [dailyUsageMap]) are [gmap string _].
    - [(T, error)] results are [Result T]; the error text is kept because the
      handler copies it into its error records.
    - The goroutines of [getTotalUsage] are an interleaving transition system:
      one program counter per dispatched goroutine, the buffered channel used
      as a semaphore, the request context, and the variables the goroutines
      share.  Every mutex-protected block is one atomic step. *)

From Stdlib Require Import ZArith List Floats Uint63 Lia Ascii.
From stdpp Require Import base option list gmap strings pretty.

#[local] Set Warnings "-clear-no-such-hyp".
#[local] Set Warnings "-register-all".

(** ** Part I: definitions *)

(** *** Go values *)

(** A Go [(T, error)] result. [Err msg] carries [err.Error()]. *)
Inductive Result (A : Type) : Type :=
| Ok (a : A)
| Err (msg : string).
Arguments Ok {A} a.
Arguments Err {A} msg.

Abbreviation float64 := float.

(** [float64(n)] for a Go [int] of magnitude below 2^63. *)
Definition float64_of_int (z : Z) : float64 :=
  if (z <? 0)%Z then PrimFloat.opp (PrimFloat.of_uint63 (Uint63.of_Z (- z)))
  else PrimFloat.of_uint63 (Uint63.of_Z z).

(** [int(x)] for a finite [float64]: truncation toward zero. *)
Definition int_of_float64 (x : float64) : Z :=
  match Prim2SF x with
  | S754_finite s m e =>
      let v := if (0 <=? e)%Z then (Z.pos m * 2 ^ e)%Z
               else Z.quot (Z.pos m) (2 ^ (- e)) in
      if s then (- v)%Z else v
  | _ => 0%Z
  end.

(** gnocchi.go *)
Module MetricMeasure.
Record t := mk {
  Timestamp : string;
  Granularity : float64;
  Value : float64
}.
End MetricMeasure.

Module GnocchiInstance.
Record t := mk {
  ID : string;
  DisplayName : string;
  Metrics : gmap string string;
  ProjectID : string
}.
End GnocchiInstance.

(** auth.go *)
Module KeystoneProject.
Record t := mk {
  ID : string;
  Name : string;
  DomainID : string
}.
End KeystoneProject.

(** *** billing.go *)

Module HourlyUsage.
Record t := mk {
  Timestamp : string;
  CPUPercent : float64;
  CPUSeconds : float64
}.
End HourlyUsage.

Module DailyUsage.
Record t := mk {
  Date : string;
  AverageCPU : float64;
  MaxCPU : float64;
  MinCPU : float64;
  TotalCPUHours : float64
}.
End DailyUsage.

(** [CPUUsageStats]. [UsageByDay] is filled by ranging over a Go map, so the
    order of the slice is unspecified; it is kept as the map it is built
    from. *)
Record CPUUsageStats := {
  TotalDataPoints : nat;
  AveragePercent : float64;
  MaxPercent : float64;
  MinPercent : float64;
  MedianPercent : float64;
  Percentile95 : float64;
  UsageByHour : list HourlyUsage.t;
  UsageByDay : gmap string DailyUsage.t
}.

(** [CPUUsageStats{}] *)
Definition CPUUsageStats_zero : CPUUsageStats :=
  {| TotalDataPoints := 0; AveragePercent := 0%float; MaxPercent := 0%float;
     MinPercent := 0%float; MedianPercent := 0%float; Percentile95 := 0%float;
     UsageByHour := []; UsageByDay := ∅ |}.

(** [time.Duration]: int64 nanoseconds. [t.Sub(u)] saturates. *)
Definition minDuration : Z := - 2 ^ 63.
Definition maxDuration : Z := 2 ^ 63 - 1.
Definition Second : Z := 1000000000.

Definition Sub (t u : Z) : Z :=
  if (t - u <? minDuration)%Z then minDuration
  else if (maxDuration <? t - u)%Z then maxDuration
  else (t - u)%Z.

(** [func (d Duration) Seconds() float64]:
    [sec := d / Second; nsec := d % Second;
     return float64(sec) + float64(nsec)/1e9] *)
Definition Seconds (d : Z) : float64 :=
  (float64_of_int (Z.quot d Second) + float64_of_int (Z.rem d Second) / 1e9)%float.

(** Helper functions of billing.go. *)
Definition average (values : list float64) : float64 :=
  match values with
  | [] => 0%float
  | _ => (foldl PrimFloat.add 0 values / float64_of_int (Z.of_nat (length values)))%float
  end.

Definition max (values : list float64) : float64 :=
  match values with
  | [] => 0%float
  | v0 :: _ => foldl (fun maxVal v => if PrimFloat.ltb maxVal v then v else maxVal) v0 values
  end.

Definition min (values : list float64) : float64 :=
  match values with
  | [] => 0%float
  | v0 :: _ => foldl (fun minVal v => if PrimFloat.ltb v minVal then v else minVal) v0 values
  end.

(** The body of the two nested sorting loops:
    [if sorted[i] > sorted[j] { sorted[i], sorted[j] = sorted[j], sorted[i] }] *)
Definition swap_if_greater (i j : nat) (sorted : list float64) : list float64 :=
  match sorted !! i, sorted !! j with
  | Some a, Some b => if PrimFloat.ltb b a then <[j:=a]> (<[i:=b]> sorted) else sorted
  | _, _ => sorted
  end.

(** [for i := 0; i < n; i++ { for j := i + 1; j < n; j++ { ... } }] *)
Definition exchange_sort (values : list float64) : list float64 :=
  let n := length values in
  foldl (fun sorted i =>
           foldl (fun sorted j => swap_if_greater i j sorted) sorted
                 (seq (S i) (n - S i)))
        values (seq 0 n).

Definition median (values : list float64) : float64 :=
  match values with
  | [] => 0%float
  | _ =>
      let sorted := exchange_sort values in
      let mid := (length sorted / 2)%nat in
      if (length sorted mod 2 =? 0)%nat
      then ((default 0 (sorted !! (mid - 1)%nat) + default 0 (sorted !! mid)) / 2)%float
      else default 0%float (sorted !! mid)
  end.

Definition percentile (values : list float64) (p : float64) : float64 :=
  match values with
  | [] => 0%float
  | _ =>
      let sorted := exchange_sort values in
      let index := int_of_float64
                     (float64_of_int (Z.of_nat (length sorted)) * p / 100)%float in
      let index := if (Z.of_nat (length sorted) <=? index)%Z
                   then (Z.of_nat (length sorted) - 1)%Z else index in
      default 0%float (sorted !! Z.to_nat index)
  end.

Section CalculateCPUUsage.
(** The two uses of package [time] whose results the function consumes:
    [t, _ := time.Parse(time.RFC3339, s)] as nanoseconds on the time line
    (the error is discarded by the code, [t] is then the zero [Time]), and
    [t.Format("2006-01-02")]. *)
Variable parseRFC3339 : string → Z.
Variable formatDate : Z → string.

(** The variables the main loop of [CalculateCPUUsage] updates. *)
Record loop_vars := {
  hourlyUsages : list HourlyUsage.t;
  percentages : list float64;
  dailyUsageMap : gmap string DailyUsage.t;
  skippedNegative : nat;
  skippedAbnormal : nat;
  totalProcessed : nat
}.

Definition loop_init : loop_vars :=
  {| hourlyUsages := []; percentages := []; dailyUsageMap := ∅;
     skippedNegative := 0; skippedAbnormal := 0; totalProcessed := 0 |}.

Definition deltaCPU_of (prev curr : MetricMeasure.t) : float64 :=
  (MetricMeasure.Value curr - MetricMeasure.Value prev)%float.

Definition deltaTime_of (prev curr : MetricMeasure.t) : float64 :=
  Seconds (Sub (parseRFC3339 (MetricMeasure.Timestamp curr))
               (parseRFC3339 (MetricMeasure.Timestamp prev))).

(** [(deltaCPU / (deltaTime * float64(numVCPUs) * 1e9)) * 100] *)
Definition cpuPercent_of (numVCPUs : Z) (prev curr : MetricMeasure.t) : float64 :=
  (deltaCPU_of prev curr
     / (deltaTime_of prev curr * float64_of_int numVCPUs * 1e9) * 100)%float.

(** [maxAllowed := 100.0] and the bound [maxAllowed*1.1] of the check;
    [0x1.199999999999ap+0] is the [float64] the constant [1.1] denotes. *)
Definition maxAllowed : float64 := 100%float.
Definition upperBound : float64 := (maxAllowed * 0x1.199999999999ap+0)%float.

(** The daily roll-up of one valid data point. *)
Definition update_daily (dateKey : string) (cpuPercent cpuSeconds : float64)
    (m : gmap string DailyUsage.t) : gmap string DailyUsage.t :=
  let m1 := match m !! dateKey with
            | Some _ => m
            | None => <[dateKey := DailyUsage.mk dateKey 0 cpuPercent cpuPercent 0]> m
            end in
  match m1 !! dateKey with
  | Some daily =>
      let avg := (DailyUsage.AverageCPU daily + cpuPercent)%float in
      let hrs := (DailyUsage.TotalCPUHours daily + cpuSeconds / 3600)%float in
      let mx := if PrimFloat.ltb (DailyUsage.MaxCPU daily) cpuPercent
                then cpuPercent else DailyUsage.MaxCPU daily in
      let mn := if PrimFloat.ltb cpuPercent (DailyUsage.MinCPU daily)
                then cpuPercent else DailyUsage.MinCPU daily in
      <[dateKey := DailyUsage.mk (DailyUsage.Date daily) avg mx mn hrs]> m1
  | None => m1
  end.

(** One iteration of [for i := 1; i < len(measures); i++], with
    [prev = measures[i-1]] and [curr = measures[i]]. Each [continue] of the
    source is an early result. *)
Definition loop_body (numVCPUs : Z) (prev curr : MetricMeasure.t)
    (st : loop_vars) : loop_vars :=
  let deltaCPU := deltaCPU_of prev curr in
  if PrimFloat.ltb deltaCPU 0 then
    {| hourlyUsages := hourlyUsages st; percentages := percentages st;
       dailyUsageMap := dailyUsageMap st;
       skippedNegative := S (skippedNegative st);
       skippedAbnormal := skippedAbnormal st;
       totalProcessed := totalProcessed st |}
  else
    let timeCurr := parseRFC3339 (MetricMeasure.Timestamp curr) in
    let deltaTime := deltaTime_of prev curr in
    if PrimFloat.leb deltaTime 0 then
      {| hourlyUsages := hourlyUsages st; percentages := percentages st;
         dailyUsageMap := dailyUsageMap st;
         skippedNegative := skippedNegative st;
         skippedAbnormal := S (skippedAbnormal st);
         totalProcessed := totalProcessed st |}
    else
      let cpuPercent := cpuPercent_of numVCPUs prev curr in
      if PrimFloat.ltb cpuPercent 0 || PrimFloat.ltb upperBound cpuPercent then
        {| hourlyUsages := hourlyUsages st; percentages := percentages st;
           dailyUsageMap := dailyUsageMap st;
           skippedNegative := skippedNegative st;
           skippedAbnormal := S (skippedAbnormal st);
           totalProcessed := totalProcessed st |}
      else
        let cpuSeconds := (deltaCPU / 1e9)%float in
        {| hourlyUsages :=
             hourlyUsages st ++
             [HourlyUsage.mk (MetricMeasure.Timestamp curr) cpuPercent cpuSeconds];
           percentages := percentages st ++ [cpuPercent];
           dailyUsageMap :=
             update_daily (formatDate timeCurr) cpuPercent cpuSeconds
                          (dailyUsageMap st);
           skippedNegative := skippedNegative st;
           skippedAbnormal := skippedAbnormal st;
           totalProcessed := S (totalProcessed st) |}.

(** The loop, [prev] being the element before the remaining ones. *)
Fixpoint loop (numVCPUs : Z) (prev : MetricMeasure.t)
    (rest : list MetricMeasure.t) (st : loop_vars) : loop_vars :=
  match rest with
  | [] => st
  | curr :: rest' => loop numVCPUs curr rest' (loop_body numVCPUs prev curr st)
  end.

(** The per-day average: the accumulated sum divided by the number of
    hourly entries falling on that date. *)
Definition finish_daily (hourly : list HourlyUsage.t) (daily : DailyUsage.t)
    : DailyUsage.t :=
  let dataPointsThisDay :=
    length (filter (fun usage =>
                      formatDate (parseRFC3339 (HourlyUsage.Timestamp usage))
                      = DailyUsage.Date daily) hourly) in
  if (0 <? dataPointsThisDay)%nat then
    DailyUsage.mk (DailyUsage.Date daily)
      (DailyUsage.AverageCPU daily / float64_of_int (Z.of_nat dataPointsThisDay))%float
      (DailyUsage.MaxCPU daily) (DailyUsage.MinCPU daily)
      (DailyUsage.TotalCPUHours daily)
  else daily.

Definition CalculateCPUUsage (measures : list MetricMeasure.t) (numVCPUs : Z)
    : CPUUsageStats :=
  match measures with
  | [] | [_] => CPUUsageStats_zero
  | first :: rest =>
      let numVCPUs := if (numVCPUs <=? 0)%Z then 1%Z else numVCPUs in
      let st := loop numVCPUs first rest loop_init in
      let pcts := percentages st in
      {| TotalDataPoints := length pcts;
         AveragePercent := match pcts with [] => 0%float | _ => average pcts end;
         MaxPercent := match pcts with [] => 0%float | _ => max pcts end;
         MinPercent := match pcts with [] => 0%float | _ => min pcts end;
         MedianPercent := match pcts with [] => 0%float | _ => median pcts end;
         Percentile95 := match pcts with [] => 0%float | _ => percentile pcts 95 end;
         UsageByHour := hourlyUsages st;
         UsageByDay := finish_daily (hourlyUsages st) <$> dailyUsageMap st |}
  end.
End CalculateCPUUsage.

(** *** clusterUsage.go: [getTotalUsage] *)

Module UsageError.
Record t := mk {
  DomainName : string;
  InstanceID : string;
  ProjectID : string;
  Error : string
}.
End UsageError.

Record TotalUsage := {
  Timestamp : string;
  TotalVMs : nat;
  CPUCoresUsed : float64;
  RAMUsedGB : float64;
  Errors : list UsageError.t
}.

(** [instanceWithDomain] *)
Module Target.
Record t := mk {
  Instance : GnocchiInstance.t;
  DomainName : string
}.
End Target.

(** What the handler writes: [http.Error(w, body, status)], or the JSON
    encoding of a [TotalUsage] under the status set before it. *)
Inductive Response :=
| HttpError (status : Z) (body : string)
| JSON (status : Z) (body : TotalUsage).

Definition StatusOK : Z := 200.
Definition StatusPartialContent : Z := 206.
Definition StatusBadRequest : Z := 400.
Definition StatusUnauthorized : Z := 401.
Definition StatusInternalServerError : Z := 500.

(** The collaborators of one request: the environment, the domain file, the
    identity service, the metrics service and the clock. Each is the function
    the handler calls, with the arguments the handler passes.
    The answers are functions of the arguments: within one request the same
    call gets the same answer. [ctxErrResolving k] is [ctx.Err()] as read at
    the top of iteration [k] of the domain loop ([None] is [nil]). *)
Record World := {
  DOMAINS_FILE : string;
  LoadDomainNames : string → Result (list string);
  GetAdminToken : Result string;
  ctxErrResolving : nat → option string;
  ListProjectsForDomainName : string → string → Result (list KeystoneProject.t);
  GetAllInstances : Result (list GnocchiInstance.t);
  GetMetricMeasures : string → string → string → Z → Result (list MetricMeasure.t);
  now : string
}.

(** The three error records a goroutine can append, and the three of the
    domain loop. *)
Definition cancelError (t : Target.t) (e : string) : UsageError.t :=
  UsageError.mk (Target.DomainName t)
    (GnocchiInstance.ID (Target.Instance t))
    (GnocchiInstance.ProjectID (Target.Instance t))
    ("context cancelled while processing instance: " +:+ e).

Definition vcpusError (t : Target.t) (e : string) : UsageError.t :=
  UsageError.mk (Target.DomainName t)
    (GnocchiInstance.ID (Target.Instance t))
    (GnocchiInstance.ProjectID (Target.Instance t))
    ("failed to get vcpus measures: " +:+ e).

Definition memoryError (t : Target.t) (e : string) : UsageError.t :=
  UsageError.mk (Target.DomainName t)
    (GnocchiInstance.ID (Target.Instance t))
    (GnocchiInstance.ProjectID (Target.Instance t))
    ("failed to get memory measures: " +:+ e).

Definition domainCancelError (domainName e : string) : UsageError.t :=
  UsageError.mk domainName "" "" ("context cancelled while resolving domain: " +:+ e).

Definition domainListError (domainName e : string) : UsageError.t :=
  UsageError.mk domainName "" "" ("failed to list projects for domain: " +:+ e).

Definition domainEmptyError (domainName : string) : UsageError.t :=
  UsageError.mk domainName "" "" "no projects found for domain".

(** [for _, p := range projects { projectToDomain[p.ID] = domainName }] *)
Definition addProjects (domainName : string) (projects : list KeystoneProject.t)
    (projectToDomain : gmap string string) : gmap string string :=
  foldl (fun m p => <[KeystoneProject.ID p := domainName]> m) projectToDomain projects.

(** [for _, domainName := range domainNames { ... }], at iteration [k].
    The result is the map, the error list, and [ctx.Err()] if the loop left
    through [break]. *)
Fixpoint resolveDomains (w : World) (adminToken : string) (k : nat)
    (domainNames : list string) (projectToDomain : gmap string string)
    (usageErrors : list UsageError.t)
    : gmap string string * list UsageError.t * option string :=
  match domainNames with
  | [] => (projectToDomain, usageErrors, None)
  | domainName :: rest =>
      match ctxErrResolving w k with
      | Some e =>
          (projectToDomain, usageErrors ++ [domainCancelError domainName e], Some e)
      | None =>
          match ListProjectsForDomainName w adminToken domainName with
          | Err e =>
              resolveDomains w adminToken (S k) rest projectToDomain
                (usageErrors ++ [domainListError domainName e])
          | Ok [] =>
              resolveDomains w adminToken (S k) rest projectToDomain
                (usageErrors ++ [domainEmptyError domainName])
          | Ok projects =>
              resolveDomains w adminToken (S k) rest
                (addProjects domainName projects projectToDomain) usageErrors
          end
      end
  end.

(** [for _, inst := range instances { if domainName, ok :=
    projectToDomain[inst.ProjectID]; ok { targets = append(targets, ...) } }] *)
Definition filterTargets (projectToDomain : gmap string string)
    (instances : list GnocchiInstance.t) : list Target.t :=
  foldl (fun targets inst =>
           match projectToDomain !! GnocchiInstance.ProjectID inst with
           | Some domainName => targets ++ [Target.mk inst domainName]
           | None => targets
           end) [] instances.

(** **** The goroutines *)

(** [semaphore := make(chan struct{}, 10)] *)
Definition maxConcurrency : nat := 10.

(** How a goroutine left its body: through the [return] of the context check,
    or by reaching the end. *)
Inductive ExitPath := ViaCancel | ViaBody.

(** Program points of one goroutine. *)
Inductive PC :=
| Dispatched                 (* started; [semaphore <- struct{}{}] pending *)
| Entered                    (* permit held; [if ctx.Err() != nil] pending *)
| Cancelled                  (* inside the [if]; the locked append pending *)
| CPUPhase                   (* [inst.Metrics["vcpus"]] and its fetch pending *)
| CPUFetched (r : Result (list MetricMeasure.t))
                             (* fetch returned; the locked update pending *)
| MemPhase                   (* [inst.Metrics["memory"]] and its fetch pending *)
| MemFetched (r : Result (list MetricMeasure.t))
| Exiting (p : ExitPath)     (* body left; deferred [<-semaphore], [wg.Done()] pending *)
| Finished (p : ExitPath).

(** What one atomic step does to what the goroutines share. *)
Inductive Action :=
| Acquire                    (* [semaphore <- struct{}{}] *)
| Release                    (* [<-semaphore]; [wg.Done()] *)
| Fetch (metricID : string)  (* [gnocchiClient.GetMetricMeasures(metricID, "", "", 300)] *)
| AddCPU (vcpus : float64)   (* [mu.Lock(); totalCPUCoresUsed += vcpus; mu.Unlock()] *)
| AddRAM (memGB : float64)   (* [mu.Lock(); totalRAMUsedGB += memGB; mu.Unlock()] *)
| Report (e : UsageError.t)  (* [errMu.Lock(); usageErrors = append(...); errMu.Unlock()] *)
| Skip.

(** The goroutine body as a transition table: from a program point, the next
    one and the action taken, for target [t] and the current [ctx.Err()]. *)
Definition next (w : World) (t : Target.t) (ctxErr : option string) (pc : PC)
    : option (PC * Action) :=
  let inst := Target.Instance t in
  match pc with
  | Dispatched => Some (Entered, Acquire)
  | Entered =>
      match ctxErr with
      | Some _ => Some (Cancelled, Skip)
      | None => Some (CPUPhase, Skip)
      end
  | Cancelled =>
      Some (Exiting ViaCancel, Report (cancelError t (default "<nil>" ctxErr)))
  | CPUPhase =>
      match GnocchiInstance.Metrics inst !! "vcpus" with
      | Some vcpuMetricID =>
          Some (CPUFetched (GetMetricMeasures w vcpuMetricID "" "" 300),
                Fetch vcpuMetricID)
      | None => Some (MemPhase, Skip)
      end
  | CPUFetched (Err e) => Some (MemPhase, Report (vcpusError t e))
  | CPUFetched (Ok measures) =>
      match last measures with
      | Some m => Some (MemPhase, AddCPU (MetricMeasure.Value m))
      | None => Some (MemPhase, Skip)
      end
  | MemPhase =>
      match GnocchiInstance.Metrics inst !! "memory" with
      | Some memMetricID =>
          Some (MemFetched (GetMetricMeasures w memMetricID "" "" 300),
                Fetch memMetricID)
      | None => Some (Exiting ViaBody, Skip)
      end
  | MemFetched (Err e) => Some (Exiting ViaBody, Report (memoryError t e))
  | MemFetched (Ok memMeasures) =>
      match last memMeasures with
      | Some m => Some (Exiting ViaBody, AddRAM (MetricMeasure.Value m / 1024)%float)
      | None => Some (Exiting ViaBody, Skip)
      end
  | Exiting p => Some (Finished p, Release)
  | Finished _ => None
  end.

(** What the goroutines share. [requests] is the list of metric ids asked of
    the metrics service so far. *)
Record State := {
  totalCPUCoresUsed : float64;
  totalRAMUsedGB : float64;
  usageErrors : list UsageError.t;
  semaphore : nat;
  ctxErr : option string;
  requests : list string;
  pcs : list PC
}.

(** An action on the shared state. Sending on the full channel blocks. *)
Definition perform (a : Action) (s : State) : option State :=
  match a with
  | Acquire =>
      if decide (semaphore s < maxConcurrency) then
        Some {| totalCPUCoresUsed := totalCPUCoresUsed s;
                totalRAMUsedGB := totalRAMUsedGB s;
                usageErrors := usageErrors s;
                semaphore := S (semaphore s);
                ctxErr := ctxErr s; requests := requests s; pcs := pcs s |}
      else None
  | Release =>
      Some {| totalCPUCoresUsed := totalCPUCoresUsed s;
              totalRAMUsedGB := totalRAMUsedGB s;
              usageErrors := usageErrors s;
              semaphore := pred (semaphore s);
              ctxErr := ctxErr s; requests := requests s; pcs := pcs s |}
  | Fetch metricID =>
      Some {| totalCPUCoresUsed := totalCPUCoresUsed s;
              totalRAMUsedGB := totalRAMUsedGB s;
              usageErrors := usageErrors s;
              semaphore := semaphore s;
              ctxErr := ctxErr s; requests := requests s ++ [metricID];
              pcs := pcs s |}
  | AddCPU vcpus =>
      Some {| totalCPUCoresUsed := (totalCPUCoresUsed s + vcpus)%float;
              totalRAMUsedGB := totalRAMUsedGB s;
              usageErrors := usageErrors s;
              semaphore := semaphore s;
              ctxErr := ctxErr s; requests := requests s; pcs := pcs s |}
  | AddRAM memGB =>
      Some {| totalCPUCoresUsed := totalCPUCoresUsed s;
              totalRAMUsedGB := (totalRAMUsedGB s + memGB)%float;
              usageErrors := usageErrors s;
              semaphore := semaphore s;
              ctxErr := ctxErr s; requests := requests s; pcs := pcs s |}
  | Report e =>
      Some {| totalCPUCoresUsed := totalCPUCoresUsed s;
              totalRAMUsedGB := totalRAMUsedGB s;
              usageErrors := usageErrors s ++ [e];
              semaphore := semaphore s;
              ctxErr := ctxErr s; requests := requests s; pcs := pcs s |}
  | Skip => Some s
  end.

Definition set_pc (i : nat) (pc : PC) (s : State) : State :=
  {| totalCPUCoresUsed := totalCPUCoresUsed s;
     totalRAMUsedGB := totalRAMUsedGB s;
     usageErrors := usageErrors s;
     semaphore := semaphore s;
     ctxErr := ctxErr s; requests := requests s;
     pcs := <[i := pc]> (pcs s) |}.

Definition set_ctxErr (e : string) (s : State) : State :=
  {| totalCPUCoresUsed := totalCPUCoresUsed s;
     totalRAMUsedGB := totalRAMUsedGB s;
     usageErrors := usageErrors s;
     semaphore := semaphore s;
     ctxErr := Some e; requests := requests s; pcs := pcs s |}.

(** What can happen next: goroutine [i] takes its next step, or the request
    context is cancelled (deadline or client) with error text [e]. *)
Inductive Event :=
| Run (i : nat)
| Expire (e : string).

(** One step of the system; [None] when the event is not enabled. *)
Definition step (w : World) (targets : list Target.t) (ev : Event) (s : State)
    : option State :=
  match ev with
  | Expire e =>
      match ctxErr s with
      | None => Some (set_ctxErr e s)
      | Some _ => None
      end
  | Run i =>
      match targets !! i, pcs s !! i with
      | Some t, Some pc =>
          match next w t (ctxErr s) pc with
          | Some (pc', a) => set_pc i pc' <$> perform a s
          | None => None
          end
      | _, _ => None
      end
  end.

(** A schedule is a list of events; one that is not enabled when its turn
    comes leaves the state as it is. *)
Definition exec (w : World) (targets : list Target.t) (schedule : list Event)
    (s : State) : State :=
  foldl (fun s ev => default s (step w targets ev s)) s schedule.

(** The state when the dispatch loop starts: zero totals, the errors of the
    domain loop, an empty channel, one goroutine per target. *)
Definition init (targets : list Target.t) (errs : list UsageError.t)
    (ctx : option string) : State :=
  {| totalCPUCoresUsed := 0; totalRAMUsedGB := 0; usageErrors := errs;
     semaphore := 0; ctxErr := ctx; requests := [];
     pcs := replicate (length targets) Dispatched |}.

Definition is_finished (pc : PC) : bool :=
  match pc with Finished _ => true | _ => false end.

(** [wg.Wait()] returns. *)
Definition all_finished (s : State) : bool := forallb is_finished (pcs s).

(** The response built after [wg.Wait()]. *)
Definition respond (w : World) (totalVMs : nat) (s : State) : Response :=
  JSON (if decide (0 < length (usageErrors s)) then StatusPartialContent else StatusOK)
       {| Timestamp := now w; TotalVMs := totalVMs;
          CPUCoresUsed := totalCPUCoresUsed s;
          RAMUsedGB := totalRAMUsedGB s;
          Errors := usageErrors s |}.

(** The dispatch loop and the goroutines it starts, run under a schedule. *)
Definition fanOut (w : World) (targets : list Target.t)
    (errs : list UsageError.t) (ctx : option string) (schedule : list Event)
    : State :=
  exec w targets schedule (init targets errs ctx).

(** The fan-out and what follows it. [None]: under this schedule [wg.Wait()]
    has not returned yet. *)
Definition aggregate (w : World) (targets : list Target.t)
    (errs : list UsageError.t) (ctx : option string) (schedule : list Event)
    : option Response :=
  let s := fanOut w targets errs ctx schedule in
  if all_finished s then Some (respond w (length targets) s) else None.

(** What a request does that can be seen from outside: the metric ids it
    asked the metrics service for, and what it wrote back. *)
Record Outcome := {
  metricRequests : list string;
  response : option Response
}.

Definition failWith (status : Z) (body : string) : Outcome :=
  {| metricRequests := []; response := Some (HttpError status body) |}.

Definition getTotalUsage (w : World) (schedule : list Event) : Outcome :=
  match LoadDomainNames w (DOMAINS_FILE w) with
  | Err e =>
      failWith StatusInternalServerError
        ("failed to load domain list from " +:+ DOMAINS_FILE w +:+ ": " +:+ e)
  | Ok [] => failWith StatusBadRequest "no domains configured in domain.txt"
  | Ok domainNames =>
      match GetAdminToken w with
      | Err e =>
          failWith StatusUnauthorized ("failed to authenticate admin: " +:+ e)
      | Ok adminToken =>
          let '(projectToDomain, usageErrors, ctx) :=
            resolveDomains w adminToken 0 domainNames ∅ [] in
          match GetAllInstances w with
          | Err e =>
              failWith StatusInternalServerError
                ("Failed to get instances from Gnocchi: " +:+ e)
          | Ok instances =>
              let targets := filterTargets projectToDomain instances in
              {| metricRequests :=
                   requests (fanOut w targets usageErrors ctx schedule);
                 response := aggregate w targets usageErrors ctx schedule |}
          end
      end
  end.

(** *** Go [int], and the helpers of the environment *)

(** [int] is 64 bits wide; sums and differences wrap around. *)
Definition minInt : Z := - 2 ^ 63.
Definition maxInt : Z := 2 ^ 63 - 1.
Definition wrap64 (z : Z) : Z := ((z + 2 ^ 63) mod 2 ^ 64 - 2 ^ 63)%Z.
Definition int_add (a b : Z) : Z := wrap64 (a + b).
Definition int_sub (a b : Z) : Z := wrap64 (a - b).

(** [float64(n)] for any [int]. *)
Definition float64_of_int64 (z : Z) : float64 :=
  if (z =? minInt)%Z then (-0x1p63)%float else float64_of_int z.

(** The process environment. [os.Getenv] gives [""] for a variable that is
    not set. *)
Definition Getenv (env : gmap string string) (key : string) : string :=
  default "" (env !! key).

Definition getEnv (env : gmap string string) (key defaultValue : string) : string :=
  let value := Getenv env key in
  if decide (value = "") then defaultValue else value.

(** *** nova.go *)

Module NovaFlavor.
Record t := mk {
  ID : string;
  VCPUs : Z;
  RAM : Z;
  Disk : Z
}.
End NovaFlavor.

Module NovaServer.
Record t := mk {
  ID : string;
  Name : string;
  Status : string;
  TenantID : string;
  Flavor : NovaFlavor.t
}.
End NovaServer.

Module HypervisorStats.
Record t := mk {
  Count : Z;
  VCPUs : Z;
  VCPUsUsed : Z;
  MemoryMB : Z;
  MemoryMBUsed : Z;
  FreeRAMMB : Z;
  RunningVMs : Z;
  LocalGB : Z;
  LocalGBUsed : Z
}.
End HypervisorStats.

(** *** clusterUsage.go: [getClusterUsage] *)

Module ClusterUsage.
Record t := mk {
  Timestamp : string;
  TotalVMs : Z;
  ActiveVMs : Z;
  ShutoffVMs : Z;
  ShelvedVMs : Z;
  OtherVMs : Z;
  TotalVCPUs : Z;
  TotalRAMGiB : float64;
  ReservedVCPUs : Z;
  ReservedRAMGiB : float64;
  SystemVCPUs : Z;
  SystemRAMGiB : float64;
  FreeVCPUs : Z;
  FreeRAMGiB : float64
}.
End ClusterUsage.

(** What [getClusterUsage] writes: [http.Error(w, body, status)], or the JSON
    encoding of a [ClusterUsage] (status 200). *)
Inductive ClusterResponse :=
| ClusterError (status : Z) (body : string)
| ClusterJSON (body : ClusterUsage.t).

(** The collaborators of [getClusterUsage]: the environment, the identity
    service, the two calls of the Nova client (by base URL and token) and the
    clock. *)
Module ClusterWorld.
Record t := mk {
  env : gmap string string;
  GetAdminToken : Result string;
  GetHypervisorStats : string → string → Result HypervisorStats.t;
  ListAllServers : string → string → Result (list NovaServer.t);
  now : string
}.
End ClusterWorld.

(** The variables of the loop over the servers. *)
Record tally := {
  reservedVCPUs : Z;
  reservedRAMMB : Z;
  activeVMs : Z;
  shutoffVMs : Z;
  shelvedVMs : Z;
  otherVMs : Z
}.

Definition tally_zero : tally :=
  {| reservedVCPUs := 0; reservedRAMMB := 0; activeVMs := 0; shutoffVMs := 0;
     shelvedVMs := 0; otherVMs := 0 |}.

(** [switch server.Status { ... }] *)
Definition count_server (acc : tally) (server : NovaServer.t) : tally :=
  let flavor := NovaServer.Flavor server in
  if String.eqb (NovaServer.Status server) "ACTIVE" then
    {| reservedVCPUs := int_add (reservedVCPUs acc) (NovaFlavor.VCPUs flavor);
       reservedRAMMB := int_add (reservedRAMMB acc) (NovaFlavor.RAM flavor);
       activeVMs := int_add (activeVMs acc) 1;
       shutoffVMs := shutoffVMs acc; shelvedVMs := shelvedVMs acc;
       otherVMs := otherVMs acc |}
  else if String.eqb (NovaServer.Status server) "SHUTOFF" then
    {| reservedVCPUs := int_add (reservedVCPUs acc) (NovaFlavor.VCPUs flavor);
       reservedRAMMB := int_add (reservedRAMMB acc) (NovaFlavor.RAM flavor);
       activeVMs := activeVMs acc;
       shutoffVMs := int_add (shutoffVMs acc) 1; shelvedVMs := shelvedVMs acc;
       otherVMs := otherVMs acc |}
  else if String.eqb (NovaServer.Status server) "SHELVED_OFFLOADED"
          || String.eqb (NovaServer.Status server) "SHELVED" then
    {| reservedVCPUs := reservedVCPUs acc;
       reservedRAMMB := reservedRAMMB acc;
       activeVMs := activeVMs acc;
       shutoffVMs := shutoffVMs acc; shelvedVMs := int_add (shelvedVMs acc) 1;
       otherVMs := otherVMs acc |}
  else
    {| reservedVCPUs := int_add (reservedVCPUs acc) (NovaFlavor.VCPUs flavor);
       reservedRAMMB := int_add (reservedRAMMB acc) (NovaFlavor.RAM flavor);
       activeVMs := activeVMs acc;
       shutoffVMs := shutoffVMs acc; shelvedVMs := shelvedVMs acc;
       otherVMs := int_add (otherVMs acc) 1 |}.

(** [if x < 0 { x = 0 }] *)
Definition clamp0 (x : Z) : Z := if (x <? 0)%Z then 0%Z else x.

Definition getClusterUsage (w : ClusterWorld.t) : ClusterResponse :=
  match ClusterWorld.GetAdminToken w with
  | Err e => ClusterError StatusUnauthorized ("failed to authenticate admin: " +:+ e)
  | Ok token =>
      let novaURL := getEnv (ClusterWorld.env w) "NOVA_URL" "" in
      match ClusterWorld.GetHypervisorStats w novaURL token with
      | Err e =>
          ClusterError StatusInternalServerError
            ("failed to get hypervisor stats: " +:+ e)
      | Ok hyperStats =>
          let totalVCPUs := HypervisorStats.VCPUs hyperStats in
          let totalRAMGiB :=
            (float64_of_int64 (HypervisorStats.MemoryMB hyperStats) / 1024)%float in
          match ClusterWorld.ListAllServers w novaURL token with
          | Err e =>
              ClusterError StatusInternalServerError
                ("failed to list servers from Nova: " +:+ e)
          | Ok servers =>
              let counted := foldl count_server tally_zero servers in
              let reservedRAMGiB :=
                (float64_of_int64 (reservedRAMMB counted) / 1024)%float in
              let systemVCPUs :=
                clamp0 (int_sub (HypervisorStats.VCPUsUsed hyperStats)
                                (reservedVCPUs counted)) in
              let systemRAMMB :=
                clamp0 (int_sub (HypervisorStats.MemoryMBUsed hyperStats)
                                (reservedRAMMB counted)) in
              let systemRAMGiB := (float64_of_int64 systemRAMMB / 1024)%float in
              let freeVCPUs :=
                clamp0 (int_sub totalVCPUs (HypervisorStats.VCPUsUsed hyperStats)) in
              let freeRAMGiB :=
                (float64_of_int64 (HypervisorStats.FreeRAMMB hyperStats) / 1024)%float in
              ClusterJSON
                {| ClusterUsage.Timestamp := ClusterWorld.now w;
                   ClusterUsage.TotalVMs := Z.of_nat (length servers);
                   ClusterUsage.ActiveVMs := activeVMs counted;
                   ClusterUsage.ShutoffVMs := shutoffVMs counted;
                   ClusterUsage.ShelvedVMs := shelvedVMs counted;
                   ClusterUsage.OtherVMs := otherVMs counted;
                   ClusterUsage.TotalVCPUs := totalVCPUs;
                   ClusterUsage.TotalRAMGiB := totalRAMGiB;
                   ClusterUsage.ReservedVCPUs := reservedVCPUs counted;
                   ClusterUsage.ReservedRAMGiB := reservedRAMGiB;
                   ClusterUsage.SystemVCPUs := systemVCPUs;
                   ClusterUsage.SystemRAMGiB := systemRAMGiB;
                   ClusterUsage.FreeVCPUs := freeVCPUs;
                   ClusterUsage.FreeRAMGiB := freeRAMGiB |}
          end
      end
  end.

(** *** billing.go: [CalculateMemoryUsage] *)

Module DailyMemUsage.
Record t := mk {
  Date : string;
  AverageUsedMB : float64;
  AveragePercent : float64
}.
End DailyMemUsage.

(** [MemoryUsageStats]; [UsageByDay] is kept as the map it is built from, as
    for [CPUUsageStats]. *)
Module MemoryUsageStats.
Record t := mk {
  AverageUsedMB : float64;
  AverageUsedGB : float64;
  MaxUsedMB : float64;
  MinUsedMB : float64;
  AveragePercent : float64;
  TotalMemoryMB : float64;
  UsageByDay : gmap string DailyMemUsage.t
}.
(** [MemoryUsageStats{}] *)
Definition zero : t := mk 0 0 0 0 0 0 ∅.
End MemoryUsageStats.

Section CalculateMemoryUsage.
Variable parseRFC3339 : string → Z.
Variable formatDate : Z → string.

(** The variables the loop of [CalculateMemoryUsage] updates. *)
Record mem_vars := {
  usedMBs : list float64;
  memPercentages : list float64;
  dailyMemMap : gmap string DailyMemUsage.t
}.

Definition mem_init : mem_vars :=
  {| usedMBs := []; memPercentages := []; dailyMemMap := ∅ |}.

Definition mem_update_daily (dateKey : string) (usedMB percent : float64)
    (m : gmap string DailyMemUsage.t) : gmap string DailyMemUsage.t :=
  let m1 := match m !! dateKey with
            | Some _ => m
            | None => <[dateKey := DailyMemUsage.mk dateKey 0 0]> m
            end in
  match m1 !! dateKey with
  | Some daily =>
      <[dateKey := DailyMemUsage.mk (DailyMemUsage.Date daily)
                     (DailyMemUsage.AverageUsedMB daily + usedMB)%float
                     (DailyMemUsage.AveragePercent daily + percent)%float]> m1
  | None => m1
  end.

(** [s[:10]]; slicing a string past its end is a run-time panic. *)
Definition first10 (s : string) : option string :=
  if decide (10 ≤ String.length s) then Some (String.substring 0 10 s) else None.

(** [for i, usageMeasure := range usageMeasures { ... }]. The condition of
    the (empty) [if] that ends the body is still evaluated: for every
    iteration but the last it slices the timestamp of the following
    measure. [None] is the panic of that slice. *)
Fixpoint mem_loop (totalMemoryMB : float64) (usageMeasures : list MetricMeasure.t)
    (st : mem_vars) : option mem_vars :=
  match usageMeasures with
  | [] => Some st
  | usageMeasure :: rest =>
      let usedMB := MetricMeasure.Value usageMeasure in
      let percent := (usedMB / totalMemoryMB * 100)%float in
      let dateKey := formatDate (parseRFC3339 (MetricMeasure.Timestamp usageMeasure)) in
      let st' := {| usedMBs := usedMBs st ++ [usedMB];
                    memPercentages := memPercentages st ++ [percent];
                    dailyMemMap :=
                      mem_update_daily dateKey usedMB percent (dailyMemMap st) |} in
      match rest with
      | [] => Some st'
      | following :: _ =>
          match first10 (MetricMeasure.Timestamp following) with
          | Some _ => mem_loop totalMemoryMB rest st'
          | None => None
          end
      end
  end.

(** [CalculateMemoryUsage]; [None] is a run-time panic (the slice above, or
    the integer division by the number of days). *)
Definition CalculateMemoryUsage (usageMeasures totalMeasures : list MetricMeasure.t)
    : option MemoryUsageStats.t :=
  match usageMeasures, totalMeasures with
  | [], _ | _, [] => Some MemoryUsageStats.zero
  | _ :: _, first :: _ =>
      let totalMemoryMB := MetricMeasure.Value first in
      match mem_loop totalMemoryMB usageMeasures mem_init with
      | None => None
      | Some st =>
          let days := size (dailyMemMap st) in
          if decide (days = 0) then None
          else
            let dataPointsPerDay := length usageMeasures / days in
            let dataPointsPerDay :=
              if decide (dataPointsPerDay = 0) then 1 else dataPointsPerDay in
            let averageUsedMB :=
              match usedMBs st with [] => 0%float | _ => average (usedMBs st) end in
            Some (MemoryUsageStats.mk
                    averageUsedMB
                    (match usedMBs st with [] => 0 | _ => averageUsedMB / 1024 end)%float
                    (match usedMBs st with [] => 0%float | _ => max (usedMBs st) end)
                    (match usedMBs st with [] => 0%float | _ => min (usedMBs st) end)
                    (match memPercentages st with
                     | [] => 0%float | _ => average (memPercentages st) end)
                    totalMemoryMB
                    ((λ daily,
                        DailyMemUsage.mk (DailyMemUsage.Date daily)
                          (DailyMemUsage.AverageUsedMB daily
                           / float64_of_int (Z.of_nat dataPointsPerDay))%float
                          (DailyMemUsage.AveragePercent daily
                           / float64_of_int (Z.of_nat dataPointsPerDay))%float)
                     <$> dailyMemMap st))
      end
  end.
End CalculateMemoryUsage.

(** *** gnocchi.go: the rows of [GetMetricMeasures] *)

(** What [encoding/json] stores in an [interface{}]. *)
Inductive JSONValue :=
| JNull
| JBool (b : bool)
| JNumber (f : float64)
| JString (s : string)
| JArray (elements : list JSONValue)
| JObject (fields : list (string * JSONValue)).

(** One row of the answer: [[timestamp, granularity, value]]. The three
    [continue]s of the loop body are the [None]s. *)
Definition convertRow (raw : list JSONValue) : option MetricMeasure.t :=
  if decide (length raw ≠ 3) then None
  else
    match raw !! 0 with
    | Some (JString timestamp) =>
        match raw !! 1 with
        | Some (JNumber granularity) =>
            match raw !! 2 with
            | Some (JNumber value) => Some (MetricMeasure.mk timestamp granularity value)
            | _ => None
            end
        | _ => None
        end
    | _ => None
    end.

(** [for _, raw := range rawMeasures { ...; measures = append(measures, ...) }] *)
Definition convertMeasures (rawMeasures : list (list JSONValue)) : list MetricMeasure.t :=
  foldl (λ measures raw,
           match convertRow raw with
           | Some m => measures ++ [m]
           | None => measures
           end) [] rawMeasures.

(** *** Requests and responses *)

(** The credentials [getAdminToken] sends. *)
Module AdminCredentials.
Record t := mk {
  Username : string;
  Password : string;
  AdminDomainID : string;
  AdminProjectName : string;
  AdminDomainName : string
}.
End AdminCredentials.

(** The body of a request: none, or the JSON document [getAdminToken]
    builds from the credentials (password identity of the user in its
    domain, scoped to the project in its domain). *)
Inductive Payload :=
| NoBody
| AdminAuth (creds : AdminCredentials.t).

(** A request as the clients build it: the headers are those set with
    [req.Header.Set], in that order. *)
Module Request.
Record t := mk {
  Method : string;
  URL : string;
  Header : list (string * string);
  Body : Payload
}.
End Request.

(** What the clients read of a response. [Header] is keyed by canonical
    header name. *)
Module HTTPResponse.
Record t := mk {
  StatusCode : Z;
  Header : gmap string string;
  Body : string
}.
End HTTPResponse.

(** *** nova.go: [ListAllServers] *)

(** What the Nova client talks to: [http.NewRequest] (its error),
    [httpClient.Do], and the JSON decoding of a body into the [Servers] of a
    [novaServersResponse]. *)
Module NovaTransport.
Record t := mk {
  NewRequest : string → string → Result unit;
  Do : Request.t → Result HTTPResponse.t;
  decodeServers : string → Result (list NovaServer.t)
}.
End NovaTransport.

Module NovaClient.
(** The body of the loop up to the decoded page. *)
Definition fetchPage (transport : NovaTransport.t) (token nextURL : string)
    : Result (list NovaServer.t) :=
  match NovaTransport.NewRequest transport "GET" nextURL with
  | Err e => Err ("failed to create Nova request: " +:+ e)
  | Ok _ =>
      let req := Request.mk "GET" nextURL
                   [("X-Auth-Token", token); ("Content-Type", "application/json");
                    ("OpenStack-API-Version", "compute 2.47")] NoBody in
      match NovaTransport.Do transport req with
      | Err e => Err ("failed to execute Nova request: " +:+ e)
      | Ok resp =>
          if decide (HTTPResponse.StatusCode resp ≠ StatusOK) then
            Err ("Nova API returned status " +:+ pretty (HTTPResponse.StatusCode resp)
                 +:+ ": " +:+ HTTPResponse.Body resp)
          else
            match NovaTransport.decodeServers transport (HTTPResponse.Body resp) with
            | Err e => Err ("failed to decode Nova response: " +:+ e)
            | Ok servers => Ok servers
            end
      end
  end.

(** [for nextURL != "" { ... }]; [None] when [fuel] rounds were not enough. *)
Fixpoint listLoop (fuel : nat) (transport : NovaTransport.t) (token baseURL nextURL : string)
    (allServers : list NovaServer.t) : option (Result (list NovaServer.t)) :=
  if decide (nextURL = "") then Some (Ok allServers)
  else
    match fuel with
    | 0 => None
    | S fuel =>
        match fetchPage transport token nextURL with
        | Err e => Some (Err e)
        | Ok servers =>
            if decide (length servers = 0) then Some (Ok allServers)
            else
              let allServers := allServers ++ servers in
              if decide (200 ≤ length servers) then
                let lastID := default "" (NovaServer.ID <$> last servers) in
                listLoop fuel transport token baseURL
                  (baseURL +:+ "&marker=" +:+ lastID) allServers
              else listLoop fuel transport token baseURL "" allServers
        end
    end.

Definition ListAllServers (fuel : nat) (transport : NovaTransport.t) (BaseURL token : string)
    : option (Result (list NovaServer.t)) :=
  let baseURL := BaseURL +:+ "/v2.1/servers/detail?all_tenants=true&limit=200" in
  listLoop fuel transport token baseURL baseURL [].
End NovaClient.

(** *** auth.go: [GetAdminToken] *)

(** What the Keystone client talks to: [http.NewRequestWithContext] (its
    error, for a method and a URL), [httpClient.Do], and the decoding of a
    token response body into the id and the name of its project. *)
Module KeystoneTransport.
Record t := mk {
  NewRequestWithContext : string → string → Result unit;
  Do : Request.t → Result HTTPResponse.t;
  decodeProject : string → Result (string * string)
}.
End KeystoneTransport.

Definition StatusCreated : Z := 201.

(** [strings.TrimRight(s, "/")] *)
Fixpoint TrimRight_slash (s : string) : string :=
  match s with
  | EmptyString => EmptyString
  | String c rest =>
      let rest' := TrimRight_slash rest in
      if Ascii.eqb c "/"%char && bool_decide (rest' = EmptyString) then EmptyString
      else String c rest'
  end.

(** What a call of [GetAdminToken] leaves: its result, the requests it sent,
    and the value it assigned to the package variable [adminProjectID], if
    it assigned one. *)
Record AdminTokenOutcome := {
  tokenResult : Result string;
  sent : list Request.t;
  assignedProjectID : option string
}.

(** The two functions are in a module: [World] and [ClusterWorld.t] have a
    field [GetAdminToken] that carries the result of a call. *)
Module Auth.
(** [(c *KeystoneClient) getAdminToken], for the client [NewKeystoneClient]
    returns (never [nil]) with [config.BaseURL = BaseURL]. *)
Definition getAdminToken (transport : KeystoneTransport.t) (BaseURL : string)
    (creds : AdminCredentials.t) : AdminTokenOutcome :=
  let urlStr := TrimRight_slash BaseURL +:+ ":5000/v3/auth/tokens" in
  match KeystoneTransport.NewRequestWithContext transport "POST" urlStr with
  | Err e =>
      {| tokenResult := Err ("failed to create keystone admin request: " +:+ e);
         sent := []; assignedProjectID := None |}
  | Ok _ =>
      let req := Request.mk "POST" urlStr [("Content-Type", "application/json")]
                   (AdminAuth creds) in
      match KeystoneTransport.Do transport req with
      | Err e =>
          {| tokenResult := Err ("failed to execute keystone admin request: " +:+ e);
             sent := [req]; assignedProjectID := None |}
      | Ok resp =>
          if decide (HTTPResponse.StatusCode resp ≠ StatusCreated) then
            {| tokenResult :=
                 Err ("keystone admin auth returned non-2xx status: "
                      +:+ pretty (HTTPResponse.StatusCode resp));
               sent := [req]; assignedProjectID := None |}
          else
            let token := default "" (HTTPResponse.Header resp !! "X-Subject-Token") in
            if decide (token = "") then
              {| tokenResult :=
                   Err "keystone admin response missing X-Subject-Token header";
                 sent := [req]; assignedProjectID := None |}
            else
              {| tokenResult := Ok token;
                 sent := [req];
                 assignedProjectID :=
                   match KeystoneTransport.decodeProject transport
                           (HTTPResponse.Body resp) with
                   | Ok (id, _) => Some id
                   | Err _ => None
                   end |}
      end
  end.

Definition GetAdminToken (env : gmap string string) (transport : KeystoneTransport.t)
    : AdminTokenOutcome :=
  let baseURL := getEnv env "KEYSTONE_URL" "" in
  if decide (baseURL = "") then
    {| tokenResult := Err "KEYSTONE_URL is not set"; sent := [];
       assignedProjectID := None |}
  else
    let creds :=
      AdminCredentials.mk (getEnv env "ADMIN_USERNAME" "") (getEnv env "ADMIN_PASSWORD" "")
        (getEnv env "ADMIN_DOMAIN_ID" "") (getEnv env "ADMIN_PROJECT_NAME" "")
        (getEnv env "ADMIN_DOMAIN_NAME" "") in
    if bool_decide (AdminCredentials.Username creds = "")
       || bool_decide (AdminCredentials.Password creds = "")
       || bool_decide (AdminCredentials.AdminDomainID creds = "")
       || bool_decide (AdminCredentials.AdminProjectName creds = "")
       || bool_decide (AdminCredentials.AdminDomainName creds = "") then
      {| tokenResult :=
           Err "admin credentials are incomplete; please set ADMIN_USERNAME, ADMIN_PASSWORD, ADMIN_DOMAIN_ID, ADMIN_PROJECT_NAME, ADMIN_PROJECT_DOMAIN_ID";
         sent := []; assignedProjectID := None |}
    else getAdminToken transport baseURL creds.
End Auth.

(** *** auth.go: [LoadDomainNames] *)

(** A file as [bufio.Scanner] reads it: the lines [scanner.Text()] yields,
    and [scanner.Err()] after the last of them. *)
Record ScannedFile := {
  scannedLines : list string;
  scanErr : option string
}.

Section LoadDomainNames.
(** [os.Open] followed by the scan, and [strings.TrimSpace]. *)
Variable Open : string → Result ScannedFile.
Variable TrimSpace : string → string.

(** [strings.HasPrefix(line, "#")] *)
Definition is_comment (line : string) : bool := String.prefix "#" line.

Definition domainFileLoop (texts : list string) : list string :=
  foldl (λ domains text,
           let line := TrimSpace text in
           if bool_decide (line = "") || is_comment line then domains
           else domains ++ [line]) [] texts.

(** [LoadDomainNames], over the file system; [World] has a field of that name
    that carries its result. *)
Definition LoadDomainNames_file (path : string) : Result (list string) :=
  match Open path with
  | Err e => Err e
  | Ok file =>
      let domains := domainFileLoop (scannedLines file) in
      match scanErr file with
      | Some e => Err e
      | None => Ok domains
      end
  end.
End LoadDomainNames.

(** *** main.go: [bearerAuth] *)

(** The double quote, for the JSON bodies. *)
Definition dquote : string := String "034"%char EmptyString.

(** [{"error":"..."}] *)
Definition errorJSON (message : string) : string :=
  "{" +:+ dquote +:+ "error" +:+ dquote +:+ ":" +:+ dquote +:+ message +:+ dquote +:+ "}".

(** [Bearer realm="VHI Billing API"] *)
Definition challenge : string :=
  "Bearer realm=" +:+ dquote +:+ "VHI Billing API" +:+ dquote.

(** What the middleware does with a request: it answers itself, with
    [http.Error(w, body, status)] after setting [WWW-Authenticate] if
    [wwwAuthenticate] is there, or it calls [next.ServeHTTP]. *)
Inductive Guarded (A : Type) : Type :=
| Rejected (status : Z) (wwwAuthenticate : option string) (body : string)
| Served (a : A).
Arguments Rejected {A} status wwwAuthenticate body.
Arguments Served {A} a.

(** [bearerAuth(next)], applied to a request whose [Authorization] header
    is [authorization] ([""] when the header is absent); [next] is what the
    wrapped handler does with the request. *)
Definition bearerAuth {A} (env : gmap string string) (authorization : string) (next : A)
    : Guarded A :=
  let expected := getEnv env "API_BEARER_TOKEN" "" in
  if decide (expected = "") then
    Rejected StatusInternalServerError None (errorJSON "server misconfiguration")
  else
    let auth := authorization in
    if bool_decide (auth = "") || (String.length auth <? 8)
       || negb (String.eqb (String.substring 0 7 auth) "Bearer ") then
      Rejected StatusUnauthorized (Some challenge)
        (errorJSON "missing or invalid Authorization header")
    else
      let token := String.substring 7 (String.length auth - 7) auth in
      if negb (String.eqb token expected) then
        Rejected StatusUnauthorized (Some challenge) (errorJSON "invalid bearer token")
      else Served next.

(** [api.HandleFunc("/usage/total", getTotalUsage).Methods("GET")] behind
    [api.Use(bearerAuth)], for a GET request. *)
Definition usageTotalRoute (env : gmap string string) (authorization : string)
    (w : World) (schedule : list Event) : Guarded Outcome :=
  bearerAuth env authorization (getTotalUsage w schedule).

(** ** Part II: the vocabulary of the properties *)

(** *** Intervals of the billing loop *)

Section Intervals.
Variable parseRFC3339 : string → Z.
Variable formatDate : Z → string.

(** The consecutive pairs [(measures[i-1], measures[i])]. *)
Definition intervals (measures : list MetricMeasure.t)
    : list (MetricMeasure.t * MetricMeasure.t) :=
  zip measures (tail measures).

(** An interval passes all three guards of the loop body. *)
Definition kept (numVCPUs : Z) (iv : MetricMeasure.t * MetricMeasure.t) : bool :=
  negb (PrimFloat.ltb (deltaCPU_of iv.1 iv.2) 0)
  && negb (PrimFloat.leb (deltaTime_of parseRFC3339 iv.1 iv.2) 0)
  && negb (PrimFloat.ltb (cpuPercent_of parseRFC3339 numVCPUs iv.1 iv.2) 0
           || PrimFloat.ltb upperBound (cpuPercent_of parseRFC3339 numVCPUs iv.1 iv.2)).

Definition hourly_of (numVCPUs : Z) (iv : MetricMeasure.t * MetricMeasure.t)
    : HourlyUsage.t :=
  HourlyUsage.mk (MetricMeasure.Timestamp iv.2)
    (cpuPercent_of parseRFC3339 numVCPUs iv.1 iv.2)
    (deltaCPU_of iv.1 iv.2 / 1e9)%float.

Definition date_of (iv : MetricMeasure.t * MetricMeasure.t) : string :=
  formatDate (parseRFC3339 (MetricMeasure.Timestamp iv.2)).
End Intervals.

(** *** The fan-out *)

(** The sum the goroutines build: additions to a zero accumulator, in the
    order the critical sections ran. *)
Definition fsum (values : list float64) : float64 := foldl PrimFloat.add 0%float values.

(** [inst.Metrics[key]] and, when the key is there, the answer of the metrics
    service for it. *)
Definition lookupFetch (w : World) (t : Target.t) (key : string)
    : option (Result (list MetricMeasure.t)) :=
  (fun metricID => GetMetricMeasures w metricID "" "" 300)
    <$> (GnocchiInstance.Metrics (Target.Instance t) !! key).

(** [measures[len(measures)-1].Value] of a successful, non-empty answer. *)
Definition latest (r : Result (list MetricMeasure.t)) : option float64 :=
  match r with
  | Ok measures => MetricMeasure.Value <$> last measures
  | Err _ => None
  end.

Definition failure (r : Result (list MetricMeasure.t)) : option string :=
  match r with
  | Ok _ => None
  | Err e => Some e
  end.

Definition cpu_sample (w : World) (t : Target.t) : option float64 :=
  lookupFetch w t "vcpus" ≫= latest.

Definition ram_sample (w : World) (t : Target.t) : option float64 :=
  (fun memMB => memMB / 1024)%float <$> (lookupFetch w t "memory" ≫= latest).

Definition cpu_errors (w : World) (t : Target.t) : list UsageError.t :=
  option_list (vcpusError t <$> (lookupFetch w t "vcpus" ≫= failure)).

Definition mem_errors (w : World) (t : Target.t) : list UsageError.t :=
  option_list (memoryError t <$> (lookupFetch w t "memory" ≫= failure)).

Definition metric_request (t : Target.t) (key : string) : list string :=
  option_list (GnocchiInstance.Metrics (Target.Instance t) !! key).

(** What a VM whose goroutine left through [p] has added to the CPU total, to
    the RAM total, to the error list and to the requests. *)
Definition vm_cpu (w : World) (t : Target.t) (p : ExitPath) : list float64 :=
  match p with
  | ViaBody => option_list (cpu_sample w t)
  | ViaCancel => []
  end.

Definition vm_ram (w : World) (t : Target.t) (p : ExitPath) : list float64 :=
  match p with
  | ViaBody => option_list (ram_sample w t)
  | ViaCancel => []
  end.

Definition vm_errors (w : World) (ctx : option string) (t : Target.t) (p : ExitPath)
    : list UsageError.t :=
  match p with
  | ViaBody => cpu_errors w t ++ mem_errors w t
  | ViaCancel => [cancelError t (default "<nil>" ctx)]
  end.

Definition vm_requests (t : Target.t) (p : ExitPath) : list string :=
  match p with
  | ViaBody => metric_request t "vcpus" ++ metric_request t "memory"
  | ViaCancel => []
  end.

(** The same, for a goroutine that is at [pc]. *)
Definition past_cpu (pc : PC) : bool :=
  match pc with
  | MemPhase | MemFetched _ | Exiting ViaBody | Finished ViaBody => true
  | _ => false
  end.

Definition past_mem (pc : PC) : bool :=
  match pc with
  | Exiting ViaBody | Finished ViaBody => true
  | _ => false
  end.

Definition past_cancel (pc : PC) : bool :=
  match pc with
  | Exiting ViaCancel | Finished ViaCancel => true
  | _ => false
  end.

Definition asked_cpu (pc : PC) : bool :=
  match pc with
  | CPUFetched _ => true
  | _ => past_cpu pc
  end.

Definition asked_mem (pc : PC) : bool :=
  match pc with
  | MemFetched _ => true
  | _ => past_mem pc
  end.

Definition cpu_so_far (w : World) (t : Target.t) (pc : PC) : list float64 :=
  if past_cpu pc then option_list (cpu_sample w t) else [].

Definition ram_so_far (w : World) (t : Target.t) (pc : PC) : list float64 :=
  if past_mem pc then option_list (ram_sample w t) else [].

Definition errs_so_far (w : World) (ctx : option string) (t : Target.t) (pc : PC)
    : list UsageError.t :=
  (if past_cancel pc then [cancelError t (default "<nil>" ctx)] else [])
  ++ (if past_cpu pc then cpu_errors w t else [])
  ++ (if past_mem pc then mem_errors w t else []).

Definition reqs_so_far (t : Target.t) (pc : PC) : list string :=
  (if asked_cpu pc then metric_request t "vcpus" else [])
  ++ (if asked_mem pc then metric_request t "memory" else []).

(** A goroutine between its acquire and its release. *)
Definition holds_permit (pc : PC) : bool :=
  match pc with
  | Dispatched | Finished _ => false
  | _ => true
  end.

Definition in_flight (s : State) : nat := length (List.filter holds_permit (pcs s)).

(** On the path after a context check that found the context live. *)
Definition on_body (pc : PC) : bool :=
  match pc with
  | CPUPhase | CPUFetched _ => true
  | _ => past_cpu pc
  end.

(** On the path after a context check that found it cancelled. *)
Definition on_cancel (pc : PC) : bool :=
  match pc with
  | Cancelled => true
  | _ => past_cancel pc
  end.

(** What a program point remembers is what the service answered for this
    target, and the cancel path is only entered under a cancelled context. *)
Definition pc_ok (w : World) (ctx : option string) (t : Target.t) (pc : PC) : Prop :=
  match pc with
  | CPUFetched r => lookupFetch w t "vcpus" = Some r
  | MemFetched r => lookupFetch w t "memory" = Some r
  | _ => True
  end
  ∧ (on_cancel pc = true → is_Some ctx).

Definition action_cpu (a : Action) : list float64 :=
  match a with AddCPU v => [v] | _ => [] end.
Definition action_ram (a : Action) : list float64 :=
  match a with AddRAM v => [v] | _ => [] end.
Definition action_errors (a : Action) : list UsageError.t :=
  match a with Report e => [e] | _ => [] end.
Definition action_requests (a : Action) : list string :=
  match a with Fetch metricID => [metricID] | _ => [] end.

(** Steps left to [Finished] on the longest path. *)
Definition remaining (pc : PC) : nat :=
  match pc with
  | Dispatched => 7
  | Entered => 6
  | CPUPhase => 5
  | CPUFetched _ => 4
  | MemPhase => 3
  | MemFetched _ => 2
  | Cancelled => 2
  | Exiting _ => 1
  | Finished _ => 0
  end.

Definition work (s : State) : nat := sum_list_with remaining (pcs s).

(** What holds in every state reached from [init targets errs0 ctx0]. *)
Record Inv (w : World) (targets : list Target.t) (errs0 : list UsageError.t)
    (ctx0 : option string) (s : State) : Prop := {
  inv_length : length (pcs s) = length targets;
  inv_semaphore : semaphore s = in_flight s;
  inv_capacity : semaphore s ≤ maxConcurrency;
  inv_ctx : ∀ e, ctx0 = Some e → ctxErr s = Some e;
  inv_local : ∀ i t pc, targets !! i = Some t → pcs s !! i = Some pc →
              pc_ok w (ctxErr s) t pc ∧ (is_Some ctx0 → on_body pc = false);
  inv_cpu : ∃ V, totalCPUCoresUsed s = fsum V
                 ∧ V ≡ₚ concat (zip_with (cpu_so_far w) targets (pcs s));
  inv_ram : ∃ V, totalRAMUsedGB s = fsum V
                 ∧ V ≡ₚ concat (zip_with (ram_so_far w) targets (pcs s));
  inv_errors : ∃ E, usageErrors s = errs0 ++ E
                    ∧ E ≡ₚ concat (zip_with (errs_so_far w (ctxErr s)) targets (pcs s));
  inv_requests : requests s ≡ₚ concat (zip_with reqs_so_far targets (pcs s))
}.

Definition is_run (ev : Event) : bool :=
  match ev with Run _ => true | Expire _ => false end.

(** The "vcpus" fetch of the VM returns an error. *)
Definition cpu_fails (w : World) (t : Target.t) : bool :=
  match lookupFetch w t "vcpus" with Some (Err _) => true | _ => false end.



(** The "memory" fetch of the VM returns an error. *)
Definition mem_fails (w : World) (t : Target.t) : bool :=
  match lookupFetch w t "memory" with Some (Err _) => true | _ => false end.

(** [t'] is [t] except that a metric key of [t] whose fetch succeeds with no
    sample at all may be missing from [t']. *)
Definition same_but_empty (w : World) (t t' : Target.t) : Prop :=
  Target.DomainName t = Target.DomainName t'
  ∧ GnocchiInstance.ID (Target.Instance t) = GnocchiInstance.ID (Target.Instance t')
  ∧ GnocchiInstance.ProjectID (Target.Instance t)
    = GnocchiInstance.ProjectID (Target.Instance t')
  ∧ ∀ key, key = "vcpus" ∨ key = "memory" →
      GnocchiInstance.Metrics (Target.Instance t) !! key
      = GnocchiInstance.Metrics (Target.Instance t') !! key
      ∨ (lookupFetch w t key = Some (Ok [])
         ∧ GnocchiInstance.Metrics (Target.Instance t') !! key = None).

(** The identity service gives no project for the domain: the lookup fails,
    or the domain has none. *)
Definition unresolved (w : World) (adminToken domainName : string) : Prop :=
  match ListProjectsForDomainName w adminToken domainName with
  | Ok (_ :: _) => False
  | _ => True
  end.

(** The records the domain loop writes carry a domain name only. *)
Definition domain_record (e : UsageError.t) : Prop :=
  UsageError.InstanceID e = "" ∧ UsageError.ProjectID e = "".

(** *** Runs over two lists of VMs that differ in keys with an empty answer *)

(** The program point [pc] of the goroutine of a VM, against the point [pc']
    of the goroutine of the same VM without such a key, [t']: the same point;
    or the first goroutine holds the empty answer of a fetch the second one,
    lacking the key, is about to pass over. *)
Definition pc_matches (t' : Target.t) (pc pc' : PC) : Prop :=
  pc = pc'
  ∨ (GnocchiInstance.Metrics (Target.Instance t') !! "vcpus" = None
     ∧ pc = CPUFetched (Ok []) ∧ pc' = CPUPhase)
  ∨ (GnocchiInstance.Metrics (Target.Instance t') !! "memory" = None
     ∧ pc = MemFetched (Ok []) ∧ pc' = MemPhase).

(** Two states of two such runs with the same accumulators, error list,
    channel and context, and matching goroutines. The requests sent are not
    compared. *)
Record matches (targets' : list Target.t) (s s' : State) : Prop := {
  matches_cpu : totalCPUCoresUsed s = totalCPUCoresUsed s';
  matches_ram : totalRAMUsedGB s = totalRAMUsedGB s';
  matches_errors : usageErrors s = usageErrors s';
  matches_semaphore : semaphore s = semaphore s';
  matches_ctx : ctxErr s = ctxErr s';
  matches_length : length (pcs s) = length targets';
  matches_length' : length (pcs s') = length targets';
  matches_pcs : ∀ i t' pc pc',
      targets' !! i = Some t' → pcs s !! i = Some pc → pcs s' !! i = Some pc' →
      pc_matches t' pc pc'
}.

(** *** The sorting loops of [median] and [percentile] *)

(** The inner loop for [i], cut after [c] rounds, and the outer loop of a
    slice of length [n], cut after [k] rounds. *)
Definition inner_upto (i c : nat) (s : list float64) : list float64 :=
  foldl (fun sorted j => swap_if_greater i j sorted) s (seq (S i) c).

Definition outer_upto (n k : nat) (s : list float64) : list float64 :=
  foldl (fun sorted i =>
           foldl (fun sorted j => swap_if_greater i j sorted) sorted
                 (seq (S i) (n - S i)))
        s (seq 0 k).

(** *** The guards and the daily roll-up of the billing loop *)

Section Rollup.
Variable parseRFC3339 : string → Z.
Variable formatDate : Z → string.

(** The first guard of the loop body fires. *)
Definition negative_delta (iv : MetricMeasure.t * MetricMeasure.t) : bool :=
  PrimFloat.ltb (deltaCPU_of iv.1 iv.2) 0.

(** The first guard does not fire, and the second or the third does. *)
Definition abnormal (numVCPUs : Z) (iv : MetricMeasure.t * MetricMeasure.t) : bool :=
  negb (negative_delta iv)
  && (PrimFloat.leb (deltaTime_of parseRFC3339 iv.1 iv.2) 0
      || PrimFloat.ltb (cpuPercent_of parseRFC3339 numVCPUs iv.1 iv.2) 0
      || PrimFloat.ltb upperBound (cpuPercent_of parseRFC3339 numVCPUs iv.1 iv.2)).

(** [numVCPUs] after the defaulting at the top of [CalculateCPUUsage]. *)
Definition effective_vcpus (numVCPUs : Z) : Z :=
  if (numVCPUs <=? 0)%Z then 1%Z else numVCPUs.

(** The intervals of a series that pass the guards, and those among them
    that end on a given date. *)
Definition valid_intervals (measures : list MetricMeasure.t) (numVCPUs : Z)
    : list (MetricMeasure.t * MetricMeasure.t) :=
  List.filter (kept parseRFC3339 (effective_vcpus numVCPUs)) (intervals measures).

Definition intervals_on (date : string) (ivs : list (MetricMeasure.t * MetricMeasure.t))
    : list (MetricMeasure.t * MetricMeasure.t) :=
  filter (λ iv, date_of parseRFC3339 formatDate iv = date) ivs.

(** What [update_daily] does to the entry of its own date. *)
Definition update_entry (dateKey : string) (cpuPercent cpuSeconds : float64)
    (entry : option DailyUsage.t) : DailyUsage.t :=
  let daily := default (DailyUsage.mk dateKey 0 cpuPercent cpuPercent 0) entry in
  DailyUsage.mk (DailyUsage.Date daily)
    (DailyUsage.AverageCPU daily + cpuPercent)%float
    (if PrimFloat.ltb (DailyUsage.MaxCPU daily) cpuPercent
     then cpuPercent else DailyUsage.MaxCPU daily)
    (if PrimFloat.ltb cpuPercent (DailyUsage.MinCPU daily)
     then cpuPercent else DailyUsage.MinCPU daily)
    (DailyUsage.TotalCPUHours daily + cpuSeconds / 3600)%float.

(** The CPU hours of a day: the CPU seconds of its intervals, each divided
    by 3600, added up in order. *)
Definition cpu_hours (ivs : list (MetricMeasure.t * MetricMeasure.t)) : float64 :=
  foldl (λ hours iv, hours + deltaCPU_of iv.1 iv.2 / 1e9 / 3600)%float 0%float ivs.
End Rollup.

(** *** The days of a memory series *)

Section MemoryDays.
Variable parseRFC3339 : string → Z.
Variable formatDate : Z → string.

Definition measure_date (m : MetricMeasure.t) : string :=
  formatDate (parseRFC3339 (MetricMeasure.Timestamp m)).

Definition measures_on (date : string) (measures : list MetricMeasure.t)
    : list MetricMeasure.t :=
  filter (λ m, measure_date m = date) measures.

(** The number of distinct dates of a series. *)
Definition day_count (measures : list MetricMeasure.t) : nat :=
  size (list_to_set (measure_date <$> measures) : gset string).
End MemoryDays.

(** *** The servers of the cluster *)

(** A server that is shelved, by its status. *)
Definition shelved (server : NovaServer.t) : bool :=
  String.eqb (NovaServer.Status server) "SHELVED_OFFLOADED"
  || String.eqb (NovaServer.Status server) "SHELVED".

Definition has_status (status : string) (server : NovaServer.t) : bool :=
  String.eqb (NovaServer.Status server) status.

(** The sum of a list of integers, unbounded. *)
Definition zsum (l : list Z) : Z := foldr Z.add 0%Z l.

(** Every variable of the loop holds an [int]. *)
Definition tally_in_range (acc : tally) : Prop :=
  (minInt ≤ reservedVCPUs acc ≤ maxInt)%Z ∧ (minInt ≤ reservedRAMMB acc ≤ maxInt)%Z
  ∧ (minInt ≤ activeVMs acc ≤ maxInt)%Z ∧ (minInt ≤ shutoffVMs acc ≤ maxInt)%Z
  ∧ (minInt ≤ shelvedVMs acc ≤ maxInt)%Z ∧ (minInt ≤ otherVMs acc ≤ maxInt)%Z.

(** *** The scope of a request *)

(** The error record the domain loop writes for a domain it could check,
    if any. *)
Definition domain_error (w : World) (adminToken domainName : string)
    : option UsageError.t :=
  match ListProjectsForDomainName w adminToken domainName with
  | Err e => Some (domainListError domainName e)
  | Ok [] => Some (domainEmptyError domainName)
  | Ok _ => None
  end.

(** The project belongs to the domain, by the answer of the identity
    service. *)
Definition project_of (w : World) (adminToken projectID domainName : string) : bool :=
  match ListProjectsForDomainName w adminToken domainName with
  | Ok projects => existsb (λ p, String.eqb (KeystoneProject.ID p) projectID) projects
  | Err _ => false
  end.

(** The instance belongs to a project of one of the domains. *)
Definition in_scope (w : World) (adminToken : string) (domainNames : list string)
    (inst : GnocchiInstance.t) : bool :=
  existsb (project_of w adminToken (GnocchiInstance.ProjectID inst)) domainNames.


(** *** The route behind the middleware *)

(** The metric ids a request to the route asked the metrics service for. *)
Definition route_requests (g : Guarded Outcome) : list string :=
  match g with
  | Served o => metricRequests o
  | Rejected _ _ _ => []
  end.

(** The status of what the route wrote, once it has written. *)
Definition route_status (g : Guarded Outcome) : option Z :=
  match g with
  | Rejected status _ _ => Some status
  | Served o =>
      match response o with
      | Some (HttpError status _) => Some status
      | Some (JSON status _) => Some status
      | None => None
      end
  end.

(** *** Rows, pages and variables *)

(** The row the metrics service sends for a measure. *)
Definition row_of (m : MetricMeasure.t) : list JSONValue :=
  [JString (MetricMeasure.Timestamp m); JNumber (MetricMeasure.Granularity m);
   JNumber (MetricMeasure.Value m)].

(** The URL that follows a page: the base URL with the id of the last
    server of the page as marker. *)
Definition marker_url (baseURL : string) (page : list NovaServer.t) : string :=
  baseURL +:+ "&marker=" +:+ default "" (NovaServer.ID <$> last page).

(** The URLs asked for a sequence of pages, from [nextURL] on. *)
Fixpoint page_urls (baseURL nextURL : string) (pages : list (list NovaServer.t))
    : list string :=
  match pages with
  | [] => []
  | page :: pages => nextURL :: page_urls baseURL (marker_url baseURL page) pages
  end.

(** The URL asked after a sequence of full pages. *)
Fixpoint url_after (baseURL nextURL : string) (pages : list (list NovaServer.t)) : string :=
  match pages with
  | [] => nextURL
  | page :: pages => url_after baseURL (marker_url baseURL page) pages
  end.

Definition servers_url (BaseURL : string) : string :=
  BaseURL +:+ "/v2.1/servers/detail?all_tenants=true&limit=200".

(** The variables [GetAdminToken] reads. *)
Definition admin_variables : list string :=
  ["KEYSTONE_URL"; "ADMIN_USERNAME"; "ADMIN_PASSWORD"; "ADMIN_DOMAIN_ID";
   "ADMIN_PROJECT_NAME"; "ADMIN_DOMAIN_NAME"].

(** A line that names a domain: not blank and not a comment once trimmed. *)
Definition names_domain (TrimSpace : string → string) (text : string) : bool :=
  negb (bool_decide (TrimSpace text = "") || is_comment (TrimSpace text)).

(** ** Part III: example inputs *)

(** A clock for the examples: the timestamps ["00:00:00"] and ["00:00:10"],
    ten seconds apart. *)
Definition example_parse (s : string) : Z :=
  if String.eqb s "2026-01-01T00:00:10Z" then (10 * Second)%Z else 0%Z.
Definition example_format (t : Z) : string := "2026-01-01".

Definition example_measures : list MetricMeasure.t :=
  [ MetricMeasure.mk "2026-01-01T00:00:00Z" 300 0;
    MetricMeasure.mk "2026-01-01T00:00:10Z" 300 5000000000;
    MetricMeasure.mk "2026-01-01T00:00:00Z" 300 5000000000 ]%float.

Definition example_measure (v : float64) : MetricMeasure.t :=
  MetricMeasure.mk "2026-01-01T00:00:00Z" 300 v.

(** A metrics service that knows the series of a table and answers 404 for
    any other id. *)
Definition example_metrics (table : list (string * list float64))
    (metricID : string) (start stop : string) (granularity : Z)
    : Result (list MetricMeasure.t) :=
  match list_find (λ entry, String.eqb entry.1 metricID) table with
  | Some (_, (_, values)) => Ok (example_measure <$> values)
  | None => Err "API returned status 404: "
  end.

(** One domain ["d1"] whose projects are given, a fixed inventory, and the
    metrics service above. *)
Definition example_world (projects : Result (list KeystoneProject.t))
    (instances : list GnocchiInstance.t)
    (table : list (string * list float64)) : World :=
  {| DOMAINS_FILE := "domain.txt";
     LoadDomainNames := λ _, Ok ["d1"];
     GetAdminToken := Ok "token";
     ctxErrResolving := λ _, None;
     ListProjectsForDomainName := λ _ _, projects;
     GetAllInstances := Ok instances;
     GetMetricMeasures := example_metrics table;
     now := "2026-01-01T00:05:00Z" |}.

Definition example_project : KeystoneProject.t := KeystoneProject.mk "p1" "project-1" "dom-1".

Definition example_vm (name : string) (metrics : list (string * string))
    : GnocchiInstance.t :=
  GnocchiInstance.mk name name (list_to_map metrics) "p1".

Definition example_target (name : string) (metrics : list (string * string))
    : Target.t :=
  Target.mk (example_vm name metrics) "d1".

(** Goroutines [0 .. n-1] one after the other, each run to its end. *)
Definition one_by_one (n : nat) : list Event :=
  flat_map (λ i, replicate 8 (Run i)) (seq 0 n).

Definition example_A : Target.t := example_target "A" [("vcpus", "cpu-a"); ("memory", "mem-a")].
Definition example_B : Target.t := example_target "B" [("vcpus", "cpu-b")].
Definition example_C : Target.t := example_target "C" [("vcpus", "cpu-c"); ("memory", "mem-c")].

(** VM A: vcpus 1.5, memory 2048 MB; VM B: vcpus 2.0, no memory metric. *)
Definition literal_world : World :=
  example_world (Ok [example_project])
    [Target.Instance example_A; Target.Instance example_B]
    [("cpu-a", [1; 1.5]); ("mem-a", [2048]); ("cpu-b", [2])]%float.

(** VM C: vcpus 4, and a memory metric whose fetch fails. *)
Definition half_failing_world : World :=
  example_world (Ok [example_project]) [Target.Instance example_C]
    [("cpu-c", [4])]%float.

Definition ten_targets : list Target.t :=
  [ example_target "vm0" [("vcpus", "cpu-0")];
    example_target "vm1" [("vcpus", "cpu-1")];
    example_target "vm2" [("vcpus", "gone-2")];
    example_target "vm3" [("vcpus", "cpu-3"); ("memory", "mem-3")];
    example_target "vm4" [("vcpus", "cpu-4")];
    example_target "vm5" [("vcpus", "gone-5"); ("memory", "mem-5")];
    example_target "vm6" [("vcpus", "cpu-6")];
    example_target "vm7" [("vcpus", "cpu-7")];
    example_target "vm8" [("vcpus", "gone-8")];
    example_target "vm9" [("vcpus", "cpu-9")] ].

Definition ten_world : World :=
  example_world (Ok [example_project]) (Target.Instance <$> ten_targets)
    [ ("cpu-0", [1]); ("cpu-1", [2]); ("cpu-3", [4]); ("cpu-4", [8]);
      ("cpu-6", [2; 16]); ("cpu-7", [32]); ("cpu-9", [64]);
      ("mem-3", [1024]); ("mem-5", []) ]%float.

Definition five_targets : list Target.t := take 5 ten_targets.

Definition quiet_targets : list Target.t :=
  [example_target "vm5" [("vcpus", "cpu-0"); ("memory", "mem-5")]].
Definition bare_targets : list Target.t :=
  [example_target "vm5" [("vcpus", "cpu-0")]].

(** The identity service is down for the only configured domain. *)
Definition unresolved_world : World :=
  example_world (Err "domains request returned status 503")
    [Target.Instance example_A; Target.Instance example_B]
    [("cpu-a", [1; 1.5]); ("mem-a", [2048]); ("cpu-b", [2])]%float.

(** The only configured domain has no project. *)
Definition projectless_world : World :=
  example_world (Ok [])
    [Target.Instance example_A; Target.Instance example_B]
    [("cpu-a", [1; 1.5]); ("mem-a", [2048]); ("cpu-b", [2])]%float.

(** The domain file is there and lists nothing. *)
Definition no_domains_world : World :=
  {| DOMAINS_FILE := "domain.txt";
     LoadDomainNames := λ _, Ok [];
     GetAdminToken := Ok "token";
     ctxErrResolving := λ _, None;
     ListProjectsForDomainName := λ _ _, Ok [example_project];
     GetAllInstances := Ok [Target.Instance example_A];
     GetMetricMeasures := example_metrics [("cpu-a", [1.5]); ("mem-a", [2048])]%float;
     now := "2026-01-01T00:05:00Z" |}.

(** A memory series of one day, and the total it is measured against. *)
Definition example_memory : list MetricMeasure.t :=
  [ MetricMeasure.mk "2026-01-01T00:00:00Z" 3600 1024;
    MetricMeasure.mk "2026-01-01T00:00:10Z" 3600 3072 ]%float.
Definition example_total : MetricMeasure.t :=
  MetricMeasure.mk "2026-01-01T00:00:00Z" 3600 4096.

(** Four servers, one of each class, on a cluster of 64 vCPUs. *)
Definition example_server (status : string) (vcpus ram : Z) : NovaServer.t :=
  NovaServer.mk "id" "name" status "tenant" (NovaFlavor.mk "flavor" vcpus ram 10).

Definition example_servers : list NovaServer.t :=
  [ example_server "ACTIVE" 4 8192; example_server "SHUTOFF" 2 4096;
    example_server "SHELVED_OFFLOADED" 8 16384; example_server "ERROR" 1 1024 ].

Definition example_cluster : ClusterWorld.t :=
  {| ClusterWorld.env := {[ "NOVA_URL" := "https://nova:8774" ]};
     ClusterWorld.GetAdminToken := Ok "token";
     ClusterWorld.GetHypervisorStats :=
       λ _ _, Ok (HypervisorStats.mk 2 64 9 262144 20480 241664 2 1000 100);
     ClusterWorld.ListAllServers := λ _ _, Ok example_servers;
     ClusterWorld.now := "2026-01-01T00:05:00Z" |}.

(** The deadline passes after the first domain was resolved. *)
Definition expired_world : World :=
  {| DOMAINS_FILE := "domain.txt";
     LoadDomainNames := λ _, Ok ["d0"; "d1"];
     GetAdminToken := Ok "token";
     ctxErrResolving := λ k, if decide (k < 1) then None
                             else Some "context deadline exceeded";
     ListProjectsForDomainName := λ _ _, Ok [example_project];
     GetAllInstances := Ok [Target.Instance example_A; Target.Instance example_B];
     GetMetricMeasures :=
       example_metrics [("cpu-a", [1; 1.5]); ("mem-a", [2048]); ("cpu-b", [2])]%float;
     now := "2026-01-01T00:05:00Z" |}.

(** A compute service that answers by URL: the body of its response is
    the URL, which its decoder looks up in a table of pages. *)
Definition example_transport (pages : list (string * list NovaServer.t)) : NovaTransport.t :=
  {| NovaTransport.NewRequest := λ _ _, Ok ();
     NovaTransport.Do := λ req, Ok (HTTPResponse.mk 200 ∅ (Request.URL req));
     NovaTransport.decodeServers := λ body,
       match list_find (λ entry, String.eqb entry.1 body) pages with
       | Some (_, (_, servers)) => Ok servers
       | None => Err "unexpected end of JSON input"
       end |}.

Definition full_page : list NovaServer.t := replicate 200 (example_server "ACTIVE" 1 1024).

(** A service with one full page and a short one behind its marker. *)
Definition two_page_transport : NovaTransport.t :=
  example_transport
    [ (servers_url "https://nova:8774", full_page);
      (servers_url "https://nova:8774" +:+ "&marker=id", [example_server "SHUTOFF" 2 2048]) ].

(** A service that ignores the marker. *)
Definition stubborn_transport : NovaTransport.t :=
  {| NovaTransport.NewRequest := λ _ _, Ok ();
     NovaTransport.Do := λ _, Ok (HTTPResponse.mk 200 ∅ "");
     NovaTransport.decodeServers := λ _, Ok full_page |}.

(** ** Part IV: properties *)

(** *** The CPU billing loop *)

Section CalculateCPUUsageFacts.
Variable parseRFC3339 : string → Z.
Variable formatDate : Z → string.

Lemma loop_body_kept numVCPUs prev curr st :
  kept parseRFC3339 numVCPUs (prev, curr) = true →
  loop_body parseRFC3339 formatDate numVCPUs prev curr st =
  {| hourlyUsages := hourlyUsages st ++ [hourly_of parseRFC3339 numVCPUs (prev, curr)];
     percentages := percentages st ++ [cpuPercent_of parseRFC3339 numVCPUs prev curr];
     dailyUsageMap :=
       update_daily (date_of parseRFC3339 formatDate (prev, curr))
         (cpuPercent_of parseRFC3339 numVCPUs prev curr)
         (deltaCPU_of prev curr / 1e9)%float (dailyUsageMap st);
     skippedNegative := skippedNegative st;
     skippedAbnormal := skippedAbnormal st;
     totalProcessed := S (totalProcessed st) |}.
Proof.
  unfold kept, loop_body; cbn [fst snd]; intros Hk.
  apply andb_prop in Hk as [Hk Hpct]; apply andb_prop in Hk as [Hneg Hdt].
  apply negb_true_iff in Hneg, Hdt, Hpct.
  rewrite Hneg, Hdt, Hpct. reflexivity.
Qed.

Lemma loop_body_dropped numVCPUs prev curr st :
  kept parseRFC3339 numVCPUs (prev, curr) = false →
  let st' := loop_body parseRFC3339 formatDate numVCPUs prev curr st in
  hourlyUsages st' = hourlyUsages st ∧ percentages st' = percentages st
  ∧ dailyUsageMap st' = dailyUsageMap st ∧ totalProcessed st' = totalProcessed st
  ∧ skippedNegative st' + skippedAbnormal st'
    = S (skippedNegative st + skippedAbnormal st).
Proof.
  unfold kept, loop_body; cbn [fst snd]; intros Hk.
  destruct (PrimFloat.ltb (deltaCPU_of prev curr) 0).
  { cbn [hourlyUsages percentages dailyUsageMap skippedNegative
           skippedAbnormal totalProcessed].
    repeat split; try reflexivity; lia. }
  destruct (PrimFloat.leb (deltaTime_of parseRFC3339 prev curr) 0).
  { cbn [hourlyUsages percentages dailyUsageMap skippedNegative
           skippedAbnormal totalProcessed].
    repeat split; try reflexivity; lia. }
  cbn [negb andb] in Hk. apply negb_false_iff in Hk. rewrite Hk.
  cbn [hourlyUsages percentages dailyUsageMap skippedNegative
         skippedAbnormal totalProcessed].
  repeat split; try reflexivity; lia.
Qed.

Lemma dom_update_daily dateKey p c (m : gmap string DailyUsage.t) :
  dom (update_daily dateKey p c m) = {[dateKey]} ∪ dom m.
Proof.
  unfold update_daily. destruct (m !! dateKey) as [d|] eqn:Hm.
  - rewrite Hm. rewrite dom_insert_L. reflexivity.
  - rewrite lookup_insert_eq. rewrite !dom_insert_L. set_solver.
Qed.

(** The loop, as a map over the kept intervals appended to what was there. *)
Lemma loop_spec numVCPUs rest : ∀ prev st,
  let st' := loop parseRFC3339 formatDate numVCPUs prev rest st in
  let ivs := List.filter (kept parseRFC3339 numVCPUs) (zip (prev :: rest) rest) in
  hourlyUsages st' = hourlyUsages st ++ map (hourly_of parseRFC3339 numVCPUs) ivs
  ∧ percentages st' = percentages st ++ map (HourlyUsage.CPUPercent ∘ hourly_of parseRFC3339 numVCPUs) ivs
  ∧ dom (dailyUsageMap st') = dom (dailyUsageMap st) ∪ list_to_set (map (date_of parseRFC3339 formatDate) ivs)
  ∧ totalProcessed st' = totalProcessed st + length ivs
  ∧ skippedNegative st' + skippedAbnormal st' + length ivs
    = skippedNegative st + skippedAbnormal st + length rest.
Proof.
  induction rest as [|curr rest IH]; intros prev st; cbv zeta.
  { cbn [loop zip zip_with List.filter map length list_to_set].
    rewrite !app_nil_r. repeat split; try lia. set_solver. }
  change (loop parseRFC3339 formatDate numVCPUs prev (curr :: rest) st)
    with (loop parseRFC3339 formatDate numVCPUs curr rest
            (loop_body parseRFC3339 formatDate numVCPUs prev curr st)).
  change (zip (prev :: curr :: rest) (curr :: rest))
    with ((prev, curr) :: zip (curr :: rest) rest).
  specialize (IH curr (loop_body parseRFC3339 formatDate numVCPUs prev curr st)).
  cbv zeta in IH. destruct IH as (Hh & Hp & Hd & Ht & Hs).
  cbn [List.filter length].
  destruct (kept parseRFC3339 numVCPUs (prev, curr)) eqn:Hk.
  - rewrite (loop_body_kept _ _ _ _ Hk) in Hh, Hp, Hd, Ht, Hs |- *.
    cbn [hourlyUsages percentages dailyUsageMap skippedNegative
           skippedAbnormal totalProcessed] in Hh, Hp, Hd, Ht, Hs.
    rewrite Hh, Hp, Hd, Ht, <- !app_assoc.
    cbn [map app length list_to_set]. rewrite dom_update_daily.
    repeat split; try lia. set_solver.
  - destruct (loop_body_dropped numVCPUs prev curr st Hk) as (Eh & Ep & Ed & Et & Es).
    rewrite Eh in Hh. rewrite Ep in Hp. rewrite Ed in Hd. rewrite Et in Ht.
    repeat split; try assumption. cbn [length]. lia.
Qed.
End CalculateCPUUsageFacts.

(** C10, as amended: for at least two samples and [numVCPUs > 0], the hourly
    entries, the data-point count, the percentage statistics and the days of
    the daily roll-up are those of the intervals that pass the guards, in
    order; the percentage of an interval is
    [(Δcumulative / (Δtime × numVCPUs × 1e9)) × 100]; and an interval is left
    out exactly when its cumulative delta is negative, or its time delta is
    not positive, or its percentage is below 0 or above [100.0 * 1.1]. *)
Theorem CalculateCPUUsage_intervals
    (parseRFC3339 : string → Z) (formatDate : Z → string)
    (measures : list MetricMeasure.t) (numVCPUs : Z) :
  2 ≤ length measures →
  (0 < numVCPUs)%Z →
  let deltaCPU (iv : MetricMeasure.t * MetricMeasure.t) :=
    (MetricMeasure.Value iv.2 - MetricMeasure.Value iv.1)%float in
  let deltaTime (iv : MetricMeasure.t * MetricMeasure.t) :=
    Seconds (Sub (parseRFC3339 (MetricMeasure.Timestamp iv.2))
                 (parseRFC3339 (MetricMeasure.Timestamp iv.1))) in
  let percent iv :=
    (deltaCPU iv / (deltaTime iv * float64_of_int numVCPUs * 1e9) * 100)%float in
  let excluded iv :=
    PrimFloat.ltb (deltaCPU iv) 0
    || PrimFloat.leb (deltaTime iv) 0
    || PrimFloat.ltb (percent iv) 0
    || PrimFloat.ltb (100 * 0x1.199999999999ap+0)%float (percent iv) in
  let valid := List.filter (fun iv => negb (excluded iv)) (intervals measures) in
  let stats := CalculateCPUUsage parseRFC3339 formatDate measures numVCPUs in
  UsageByHour stats
  = map (fun iv => HourlyUsage.mk (MetricMeasure.Timestamp iv.2) (percent iv)
                     (deltaCPU iv / 1e9)%float) valid
  ∧ TotalDataPoints stats = length valid
  ∧ (valid ≠ [] →
     AveragePercent stats = average (map percent valid)
     ∧ MaxPercent stats = max (map percent valid)
     ∧ MinPercent stats = min (map percent valid)
     ∧ MedianPercent stats = median (map percent valid)
     ∧ Percentile95 stats = percentile (map percent valid) 95)
  ∧ dom (UsageByDay stats)
    = list_to_set
        (map (fun iv => formatDate (parseRFC3339 (MetricMeasure.Timestamp iv.2))) valid).
Proof.
  intros Hlen Hv deltaCPU deltaTime percent excluded valid stats.
  destruct measures as [|first [|second rest]]; cbn [length] in Hlen; try lia.
  assert (Hvalid : valid
            = List.filter (kept parseRFC3339 numVCPUs) (zip (first :: second :: rest) (second :: rest))).
  { subst valid. unfold intervals. cbn [tail]. apply List.filter_ext.
    intros [p c]. subst excluded percent deltaTime deltaCPU. unfold kept.
    cbn [fst snd]. unfold cpuPercent_of, deltaCPU_of, deltaTime_of, upperBound, maxAllowed.
    rewrite !negb_orb, <- !andb_assoc. reflexivity. }
  pose proof (loop_spec parseRFC3339 formatDate numVCPUs (second :: rest) first
                (loop_init)) as Hloop.
  cbv zeta in Hloop. rewrite <- Hvalid in Hloop.
  destruct Hloop as (Hh & Hp & Hd & _ & _).
  cbn [loop_init hourlyUsages percentages dailyUsageMap app] in Hh, Hp, Hd.
  assert (Hpm : map (HourlyUsage.CPUPercent ∘ hourly_of parseRFC3339 numVCPUs) valid
                = map percent valid) by reflexivity.
  rewrite Hpm in Hp.
  subst stats. unfold CalculateCPUUsage.
  replace (numVCPUs <=? 0)%Z with false by (symmetry; apply Z.leb_gt; lia).
  cbn [TotalDataPoints AveragePercent MaxPercent MinPercent MedianPercent
         Percentile95 UsageByHour UsageByDay].
  rewrite Hh, Hp. split; [reflexivity|]. split; [apply length_map|]. split.
  - intros Hne. destruct valid as [|iv valid']; [congruence|].
    cbn [map]. repeat split; reflexivity.
  - rewrite dom_fmap_L, Hd, dom_empty_L. set_solver.
Qed.

Lemma CalculateCPUUsage_intervals_witness :
  2 ≤ length example_measures ∧ (0 < 2)%Z
  ∧ TotalDataPoints (CalculateCPUUsage example_parse example_format example_measures 2)
    = 1.
Proof.
  split; [cbn; lia|]. split; [lia|].
  refine (eq_trans (proj1 (proj2 (CalculateCPUUsage_intervals
            example_parse example_format example_measures 2 _ _))) _).
  - cbn; lia.
  - lia.
  - vm_compute. reflexivity.
Defined.

(** C10, as stated, fails: two samples of an idle machine with the same
    cumulative value, delivered in reverse time order, or carrying the same
    timestamp. The cumulative delta is 0, not negative. In the first case the
    percentage by the formula is (minus) zero, inside [0, 110]; in the second
    it is 0/0, which neither bound of the range test rejects. Both intervals
    are left out of the statistics, by the guard on the time delta. *)
Lemma CalculateCPUUsage_time_guard_counterexample :
  let later := MetricMeasure.mk "2026-01-01T00:00:10Z" 300 0 in
  let earlier := MetricMeasure.mk "2026-01-01T00:00:00Z" 300 0 in
  let reversed := cpuPercent_of example_parse 1 later earlier in
  let stalled := cpuPercent_of example_parse 1 earlier earlier in
  (PrimFloat.ltb (deltaCPU_of later earlier) 0 = false
   ∧ PrimFloat.leb 0 reversed = true
   ∧ PrimFloat.leb reversed 110 = true
   ∧ UsageByHour (CalculateCPUUsage example_parse example_format [later; earlier] 1) = []
   ∧ TotalDataPoints (CalculateCPUUsage example_parse example_format [later; earlier] 1)
     = 0)
  ∧ (PrimFloat.ltb (deltaCPU_of earlier earlier) 0 = false
     ∧ PrimFloat.ltb stalled 0 = false
     ∧ PrimFloat.ltb 110 stalled = false
     ∧ UsageByHour (CalculateCPUUsage example_parse example_format [earlier; earlier] 1)
       = []
     ∧ TotalDataPoints
         (CalculateCPUUsage example_parse example_format [earlier; earlier] 1)
       = 0).
Proof. vm_compute. repeat split. Qed.

(** *** The transition table *)

(** One row of the transition table, against the bookkeeping above. *)
Lemma next_spec w t ctx pc pc' a :
  next w t ctx pc = Some (pc', a) →
  pc_ok w ctx t pc →
  pc_ok w ctx t pc'
  ∧ cpu_so_far w t pc' = cpu_so_far w t pc ++ action_cpu a
  ∧ ram_so_far w t pc' = ram_so_far w t pc ++ action_ram a
  ∧ errs_so_far w ctx t pc' = errs_so_far w ctx t pc ++ action_errors a
  ∧ reqs_so_far t pc' = reqs_so_far t pc ++ action_requests a
  ∧ remaining pc' < remaining pc
  ∧ (on_body pc' = true → on_body pc = true ∨ ctx = None)
  ∧ match a with
    | Acquire => holds_permit pc = false ∧ holds_permit pc' = true
    | Release => holds_permit pc = true ∧ holds_permit pc' = false
    | _ => holds_permit pc = true ∧ holds_permit pc' = true
    end.
Proof.
  unfold pc_ok, cpu_so_far, ram_so_far, errs_so_far, reqs_so_far, cpu_errors,
    mem_errors, cpu_sample, ram_sample, metric_request, lookupFetch.
  intros Hnext [Hfetch Hcancel].
  destruct pc as [| | | |[ms|e]| |[ms|e]|p|p]; cbn in Hnext;
    repeat match type of Hnext with
      | context [match ?x with _ => _ end] => destruct x eqn:?
      end;
    simplify_eq; cbn in *;
    repeat match goal with
      | H : _ <$> _ = Some _ |- _ => apply fmap_Some in H as (? & ? & ?)
      | H : ?x = _ |- context [?x] => rewrite H
      end;
    simplify_eq; cbn;
    try (destruct p);
    repeat split; cbn; auto; try lia; try (intros; discriminate); try done;
    repeat match goal with
      | H : _ = GetMetricMeasures _ _ _ _ _ |- _ => rewrite <- H; clear H
      | H : last _ = _ |- _ => cbn; rewrite H; clear H
      end;
    cbn; rewrite ?app_nil_r; reflexivity.
Qed.

(** *** Lists updated at one index *)

Section ListFacts.
Context {A B C : Type}.

Lemma concat_zip_with_insert (f : A → B → list C) (l : list A) (k : list B)
    (i : nat) (a : A) (b b' : B) (extra : list C) :
  l !! i = Some a → k !! i = Some b → f a b' = f a b ++ extra →
  concat (zip_with f l (<[i:=b']> k)) ≡ₚ concat (zip_with f l k) ++ extra.
Proof.
  revert k i. induction l as [|x l IH]; intros [|y k] [|i]; cbn; try discriminate.
  - intros [= ->] [= ->] ->. rewrite <- !app_assoc.
    apply Permutation_app_head, Permutation_app_comm.
  - intros Hl Hk Hf. rewrite <- app_assoc. f_equiv. eauto.
Qed.

Lemma zip_with_ext_lookup (f g : A → B → C) (l : list A) (k : list B) :
  (∀ i a b, l !! i = Some a → k !! i = Some b → f a b = g a b) →
  zip_with f l k = zip_with g l k.
Proof.
  revert k. induction l as [|x l IH]; intros [|y k] H; cbn; try reflexivity.
  f_equal.
  - apply (H 0); reflexivity.
  - apply IH. intros i a b Ha Hb. apply (H (S i)); assumption.
Qed.

Lemma concat_zip_with_nil (f : A → B → list C) (l : list A) (k : list B) :
  (∀ i a b, l !! i = Some a → k !! i = Some b → f a b = []) →
  concat (zip_with f l k) = [].
Proof.
  revert k. induction l as [|x l IH]; intros [|y k] H; cbn; try reflexivity.
  rewrite (H 0 x y) by reflexivity. cbn.
  apply IH. intros i a b Ha Hb. apply (H (S i)); assumption.
Qed.

Lemma filter_length_insert (p : B → bool) (k : list B) (i : nat) (b b' : B) :
  k !! i = Some b →
  length (List.filter p (<[i:=b']> k)) + (if p b then 1 else 0)
  = length (List.filter p k) + (if p b' then 1 else 0).
Proof.
  revert i. induction k as [|y k IH]; intros [|i] Hk; try discriminate.
  - injection Hk as ->. change (<[0:=b']> (b :: k)) with (b' :: k).
    cbn [List.filter]. destruct (p b), (p b'); cbn [length]; lia.
  - change (<[S i:=b']> (y :: k)) with (y :: <[i:=b']> k).
    cbn [List.filter]. specialize (IH i Hk).
    destruct (p y), (p b), (p b'); cbn [length] in *; lia.
Qed.

Lemma sum_list_insert_lt (g : B → nat) (k : list B) (i : nat) (b b' : B) :
  k !! i = Some b → g b' < g b →
  sum_list_with g (<[i:=b']> k) < sum_list_with g k.
Proof.
  revert i. induction k as [|y k IH]; intros [|i] Hk Hlt; try discriminate.
  - injection Hk as ->. change (<[0:=b']> (b :: k)) with (b' :: k).
    cbn [sum_list_with]. lia.
  - change (<[S i:=b']> (y :: k)) with (y :: <[i:=b']> k).
    cbn [sum_list_with]. specialize (IH i Hk Hlt). lia.
Qed.

Lemma filter_length_pos (p : B → bool) (k : list B) :
  0 < length (List.filter p k) → ∃ i b, k !! i = Some b ∧ p b = true.
Proof.
  induction k as [|y k IH]; cbn; [lia|].
  destruct (p y) eqn:Hy.
  - intros _. exists 0, y. split; [reflexivity | assumption].
  - intros Hpos. destruct (IH Hpos) as (i & b & Hi & Hb).
    exists (S i), b. split; assumption.
Qed.

Lemma forallb_false_lookup (p : B → bool) (k : list B) :
  forallb p k = false → ∃ i b, k !! i = Some b ∧ p b = false.
Proof.
  induction k as [|y k IH]; cbn; [discriminate|].
  destruct (p y) eqn:Hy; cbn.
  - intros Hk. destruct (IH Hk) as (i & b & Hi & Hb).
    exists (S i), b. split; assumption.
  - intros _. exists 0, y. split; [reflexivity | assumption].
Qed.
End ListFacts.

Lemma fsum_app (V extra : list float64) :
  fsum (V ++ extra) = foldl PrimFloat.add (fsum V) extra.
Proof. unfold fsum. apply foldl_app. Qed.

(** *** The invariant of the fan-out *)

Lemma perform_spec a s s1 :
  perform a s = Some s1 →
  pcs s1 = pcs s ∧ ctxErr s1 = ctxErr s
  ∧ totalCPUCoresUsed s1 = foldl PrimFloat.add (totalCPUCoresUsed s) (action_cpu a)
  ∧ totalRAMUsedGB s1 = foldl PrimFloat.add (totalRAMUsedGB s) (action_ram a)
  ∧ usageErrors s1 = usageErrors s ++ action_errors a
  ∧ requests s1 = requests s ++ action_requests a
  ∧ match a with
    | Acquire => semaphore s < maxConcurrency ∧ semaphore s1 = S (semaphore s)
    | Release => semaphore s1 = pred (semaphore s)
    | _ => semaphore s1 = semaphore s
    end.
Proof.
  destruct a; cbn; try case_decide; intros [= <-]; cbn;
    rewrite ?app_nil_r; repeat split; auto.
Qed.

Lemma init_inv w targets errs0 ctx0 : Inv w targets errs0 ctx0 (init targets errs0 ctx0).
Proof.
  assert (Hpc : ∀ i pc, replicate (length targets) Dispatched !! i = Some pc
                        → pc = Dispatched).
  { intros i pc H. apply lookup_replicate in H as [-> _]. reflexivity. }
  split; cbn.
  - apply length_replicate.
  - unfold in_flight; cbn. clear Hpc. induction (length targets); cbn; auto.
  - lia.
  - auto.
  - intros i t pc _ H. apply Hpc in H as ->. unfold pc_ok; cbn.
    repeat split; auto; discriminate.
  - exists []. split; [reflexivity|]. rewrite concat_zip_with_nil; [reflexivity|].
    intros i a b _ H. apply Hpc in H as ->. reflexivity.
  - exists []. split; [reflexivity|]. rewrite concat_zip_with_nil; [reflexivity|].
    intros i a b _ H. apply Hpc in H as ->. reflexivity.
  - exists []. split; [rewrite app_nil_r; reflexivity|].
    rewrite concat_zip_with_nil; [reflexivity|].
    intros i a b _ H. apply Hpc in H as ->. reflexivity.
  - rewrite concat_zip_with_nil; [reflexivity|].
    intros i a b _ H. apply Hpc in H as ->. reflexivity.
Qed.

Lemma step_inv w targets errs0 ctx0 ev s s' :
  Inv w targets errs0 ctx0 s →
  step w targets ev s = Some s' →
  Inv w targets errs0 ctx0 s'.
Proof.
  intros [Hlen Hsem Hcap Hctx Hloc (Vc & EVc & PVc) (Vr & EVr & PVr)
            (E & EE & PE) Hreqs] Hstep.
  destruct ev as [i|e]; cbn in Hstep.
  - destruct (targets !! i) as [t|] eqn:Ht; [|discriminate].
    destruct (pcs s !! i) as [pc|] eqn:Hpc; [|discriminate].
    destruct (next w t (ctxErr s) pc) as [[pc' a]|] eqn:Hnext; [|discriminate].
    destruct (perform a s) as [s1|] eqn:Hperf; [|discriminate].
    cbn in Hstep. injection Hstep as <-.
    destruct (Hloc i t pc Ht Hpc) as [Hok Hbody].
    destruct (next_spec _ _ _ _ _ _ Hnext Hok)
      as (Hok' & Hcpu & Hram & Herr & Hreq & _ & Hb & Hperm).
    destruct (perform_spec _ _ _ Hperf)
      as (Epcs & Ectx & Ecpu & Eram & Eerr & Ereq & Esem).
    pose proof (filter_length_insert holds_permit (pcs s) i pc pc' Hpc) as Hcount.
    assert (Hi : i < length (pcs s)) by (eapply lookup_lt_Some; eassumption).
    unfold in_flight in *.
    split; unfold in_flight; cbn [set_pc pcs ctxErr semaphore totalCPUCoresUsed
                                    totalRAMUsedGB usageErrors requests];
      rewrite ?Epcs, ?Ectx.
    + rewrite length_insert. assumption.
    + destruct a; destruct Hperm as [Hp Hp']; rewrite Hp, Hp' in Hcount; lia.
    + destruct a; destruct Hperm as [Hp Hp']; lia.
    + assumption.
    + intros j tj pcj Htj Hj. destruct (decide (i = j)) as [<-|Hne].
      * rewrite list_lookup_insert_eq in Hj by assumption. simplify_eq.
        split; [assumption|]. intros Hsome.
        destruct (on_body pcj) eqn:Hon; [|reflexivity].
        destruct (Hb eq_refl) as [Hprev|Hnone].
        -- rewrite (Hbody Hsome) in Hprev. discriminate.
        -- destruct Hsome as [e0 ->]. rewrite (Hctx e0 eq_refl) in Hnone.
           discriminate.
      * rewrite list_lookup_insert_ne in Hj by assumption.
        eapply Hloc; eassumption.
    + exists (Vc ++ action_cpu a). split.
      * rewrite Ecpu, EVc, fsum_app. reflexivity.
      * rewrite (concat_zip_with_insert _ _ _ _ _ _ _ _ Ht Hpc Hcpu), PVc. reflexivity.
    + exists (Vr ++ action_ram a). split.
      * rewrite Eram, EVr, fsum_app. reflexivity.
      * rewrite (concat_zip_with_insert _ _ _ _ _ _ _ _ Ht Hpc Hram), PVr. reflexivity.
    + exists (E ++ action_errors a). split.
      * rewrite Eerr, EE, app_assoc. reflexivity.
      * rewrite (concat_zip_with_insert _ _ _ _ _ _ _ _ Ht Hpc Herr), PE. reflexivity.
    + rewrite Ereq, (concat_zip_with_insert _ _ _ _ _ _ _ _ Ht Hpc Hreq), Hreqs.
      reflexivity.
  - destruct (ctxErr s) eqn:Hc; [discriminate|]. injection Hstep as <-.
    assert (Hsame : zip_with (errs_so_far w (Some e)) targets (pcs s)
                    = zip_with (errs_so_far w None) targets (pcs s)).
    { apply zip_with_ext_lookup. intros i t pc Ht Hpc.
      destruct (Hloc i t pc Ht Hpc) as [[_ Hcan] _].
      unfold errs_so_far. destruct (past_cancel pc) eqn:Hpast; [|reflexivity].
      assert (on_cancel pc = true) as Hon by (destruct pc; auto).
      destruct (Hcan Hon) as [x Hx]. discriminate Hx. }
    split; unfold in_flight in *; cbn; try assumption.
    + intros e0 He0. discriminate (Hctx e0 He0).
    + intros i t pc Ht Hpc. destruct (Hloc i t pc Ht Hpc) as [[Hf _] Hb].
      repeat split; auto.
    + exists Vc. auto.
    + exists Vr. auto.
    + exists E. rewrite Hsame. auto.
Qed.

Lemma exec_inv w targets errs0 ctx0 schedule : ∀ s,
  Inv w targets errs0 ctx0 s →
  Inv w targets errs0 ctx0 (exec w targets schedule s).
Proof.
  induction schedule as [|ev schedule IH]; intros s HI; [assumption|].
  cbn. apply IH. destruct (step w targets ev s) as [s'|] eqn:Hstep; cbn.
  - eapply step_inv; eassumption.
  - assumption.
Qed.

(** Every state of every run satisfies the invariant. *)
Lemma run_inv w targets errs0 ctx0 schedule :
  Inv w targets errs0 ctx0 (exec w targets schedule (init targets errs0 ctx0)).
Proof. apply exec_inv, init_inv. Qed.

Lemma exec_cons w targets ev schedule s :
  exec w targets (ev :: schedule) s
  = exec w targets schedule (default s (step w targets ev s)).
Proof. reflexivity. Qed.

Lemma exec_app w targets sched1 sched2 s :
  exec w targets (sched1 ++ sched2) s = exec w targets sched2 (exec w targets sched1 s).
Proof. unfold exec. apply foldl_app. Qed.

(** *** Progress: [wg.Wait()] returns *)

Lemma next_total w t ctx pc :
  is_finished pc = false → ∃ pc' a, next w t ctx pc = Some (pc', a).
Proof.
  destruct pc as [| | | |[ms|e]| |[ms|e]|p|p]; cbn; try discriminate; intros _;
    repeat match goal with
      | |- context [match ?x with _ => _ end] => destruct x
      end; eauto.
Qed.

Lemma run_decreases w targets errs0 ctx0 i s s' :
  Inv w targets errs0 ctx0 s →
  step w targets (Run i) s = Some s' →
  work s' < work s.
Proof.
  intros HI Hstep. cbn in Hstep.
  destruct (targets !! i) as [t|] eqn:Ht; [|discriminate].
  destruct (pcs s !! i) as [pc|] eqn:Hpc; [|discriminate].
  destruct (next w t (ctxErr s) pc) as [[pc' a]|] eqn:Hnext; [|discriminate].
  destruct (perform a s) as [s1|] eqn:Hperf; [|discriminate].
  cbn in Hstep. injection Hstep as <-.
  destruct (inv_local _ _ _ _ _ HI i t pc Ht Hpc) as [Hok _].
  destruct (next_spec _ _ _ _ _ _ Hnext Hok) as (_ & _ & _ & _ & _ & Hlt & _).
  destruct (perform_spec _ _ _ Hperf) as (Epcs & _).
  unfold work; cbn. rewrite Epcs. eapply sum_list_insert_lt; eassumption.
Qed.

(** A goroutine that holds a permit can always take its next step. *)
Lemma holder_enabled w targets errs0 ctx0 i pc s :
  Inv w targets errs0 ctx0 s →
  pcs s !! i = Some pc → holds_permit pc = true →
  ∃ s', step w targets (Run i) s = Some s'.
Proof.
  intros HI Hpc Hperm.
  assert (is_Some (targets !! i)) as [t Ht].
  { apply lookup_lt_is_Some. rewrite <- (inv_length _ _ _ _ _ HI).
    eapply lookup_lt_Some; eassumption. }
  destruct (next_total w t (ctxErr s) pc) as (pc' & a & Hnext).
  { destruct pc; cbn in *; congruence. }
  destruct (inv_local _ _ _ _ _ HI i t pc Ht Hpc) as [Hok _].
  destruct (next_spec _ _ _ _ _ _ Hnext Hok) as (_ & _ & _ & _ & _ & _ & _ & Ha).
  cbn. rewrite Ht, Hpc, Hnext.
  destruct a; try (destruct Ha; congruence); cbn; eauto.
Qed.

(** No deadlock: while a goroutine is unfinished, some goroutine can step. *)
Lemma some_enabled w targets errs0 ctx0 s :
  Inv w targets errs0 ctx0 s →
  all_finished s = false →
  ∃ i s', step w targets (Run i) s = Some s'.
Proof.
  intros HI Hnot.
  destruct (forallb_false_lookup _ _ Hnot) as (j & pc & Hpc & Hfin).
  destruct (holds_permit pc) eqn:Hperm.
  { exists j. eapply holder_enabled; eassumption. }
  destruct (decide (semaphore s < maxConcurrency)) as [Hfree|Hfull].
  - assert (is_Some (targets !! j)) as [t Ht].
    { apply lookup_lt_is_Some. rewrite <- (inv_length _ _ _ _ _ HI).
      eapply lookup_lt_Some; eassumption. }
    exists j. cbn. rewrite Ht, Hpc.
    destruct pc; cbn in *; try discriminate.
    unfold perform. rewrite decide_True by assumption. cbn. eauto.
  - pose proof (inv_semaphore _ _ _ _ _ HI) as Hsem. unfold in_flight in Hsem.
    destruct (filter_length_pos holds_permit (pcs s)) as (i & pci & Hi & Hpi).
    { unfold maxConcurrency in Hfull. lia. }
    exists i. eapply holder_enabled; eassumption.
Qed.

(** From every state of a run some schedule, made of goroutine steps only,
    leads to the state in which all goroutines have finished. *)
Lemma can_finish w targets errs0 ctx0 : ∀ n s,
  work s ≤ n →
  Inv w targets errs0 ctx0 s →
  ∃ schedule,
    forallb is_run schedule = true
    ∧ all_finished (exec w targets schedule s) = true.
Proof.
  induction n as [|n IH]; intros s Hwork HI;
    destruct (all_finished s) eqn:Hfin;
    try (exists []; split; [reflexivity | assumption]);
    destruct (some_enabled _ _ _ _ _ HI Hfin) as (i & s' & Hstep);
    pose proof (run_decreases _ _ _ _ _ _ _ HI Hstep) as Hlt; [lia|].
  destruct (IH s') as (schedule & Hruns & Hdone);
    [lia | eapply step_inv; eassumption |].
  exists (Run i :: schedule). split; [exact Hruns|].
  rewrite exec_cons, Hstep. assumption.
Qed.

(** [wg.Wait()] returns: every run can be continued, without the deadline
    firing, to one after which the response is written. *)
Lemma aggregate_returns w targets errs0 ctx0 schedule :
  ∃ more r,
    forallb is_run more = true
    ∧ aggregate w targets errs0 ctx0 (schedule ++ more) = Some r.
Proof.
  pose proof (run_inv w targets errs0 ctx0 schedule) as HI.
  destruct (can_finish w targets errs0 ctx0 _ _ (le_n _) HI) as (more & Hruns & Hdone).
  exists more. unfold aggregate, fanOut. cbv zeta. rewrite exec_app, Hdone. eauto.
Qed.

(** *** The state after [wg.Wait()] *)

Lemma finished_paths (l : list PC) :
  forallb is_finished l = true → ∃ paths, l = Finished <$> paths.
Proof.
  induction l as [|pc l IH]; cbn.
  - exists []. reflexivity.
  - intros H. apply andb_prop in H as [Hpc Hl].
    destruct (IH Hl) as [paths ->]. destruct pc; try discriminate.
    exists (p :: paths). reflexivity.
Qed.

Lemma so_far_finished w ctx t p :
  cpu_so_far w t (Finished p) = vm_cpu w t p
  ∧ ram_so_far w t (Finished p) = vm_ram w t p
  ∧ errs_so_far w ctx t (Finished p) = vm_errors w ctx t p
  ∧ reqs_so_far t (Finished p) = vm_requests t p.
Proof. destruct p; cbn; rewrite ?app_nil_r; auto. Qed.

(** The totals, the error list and the requests once every goroutine has
    finished, by the exit path of each. *)
Lemma final_state w targets errs0 ctx0 s :
  Inv w targets errs0 ctx0 s →
  all_finished s = true →
  ∃ paths,
    pcs s = Finished <$> paths
    ∧ length paths = length targets
    ∧ semaphore s = 0
    ∧ (ctxErr s = None → Forall (eq ViaBody) paths)
    ∧ (is_Some ctx0 → Forall (eq ViaCancel) paths)
    ∧ (∃ V, totalCPUCoresUsed s = fsum V
            ∧ V ≡ₚ concat (zip_with (vm_cpu w) targets paths))
    ∧ (∃ V, totalRAMUsedGB s = fsum V
            ∧ V ≡ₚ concat (zip_with (vm_ram w) targets paths))
    ∧ (∃ E, usageErrors s = errs0 ++ E
            ∧ E ≡ₚ concat (zip_with (vm_errors w (ctxErr s)) targets paths))
    ∧ requests s ≡ₚ concat (zip_with vm_requests targets paths).
Proof.
  intros [Hlen Hsem Hcap Hctx Hloc (Vc & EVc & PVc) (Vr & EVr & PVr)
            (E & EE & PE) Hreqs] Hfin.
  destruct (finished_paths _ Hfin) as [paths Hpaths].
  unfold in_flight in Hsem.
  rewrite Hpaths in Hlen, Hsem, Hloc, PVc, PVr, PE, Hreqs.
  rewrite length_fmap in Hlen.
  assert (Hpath : ∀ i p, paths !! i = Some p →
            ∃ t, targets !! i = Some t ∧ (Finished <$> paths) !! i = Some (Finished p)).
  { intros i p Hp. destruct (lookup_lt_is_Some_2 targets i) as [t Ht].
    - rewrite <- Hlen. eapply lookup_lt_Some; eassumption.
    - exists t. split; [assumption|]. rewrite list_lookup_fmap, Hp. reflexivity. }
  exists paths. split; [assumption|]. split; [assumption|]. split.
  { rewrite Hsem. clear. induction paths; cbn; auto. }
  split.
  { intros Hnone. apply Forall_lookup. intros i p Hp.
    destruct (Hpath i p Hp) as (t & Ht & Hpc).
    destruct (Hloc i t _ Ht Hpc) as [[_ Hcan] _].
    destruct p; [|reflexivity]. destruct (Hcan eq_refl) as [x Hx]. congruence. }
  split.
  { intros Hsome. apply Forall_lookup. intros i p Hp.
    destruct (Hpath i p Hp) as (t & Ht & Hpc).
    destruct (Hloc i t _ Ht Hpc) as [_ Hbody].
    destruct p; [reflexivity|]. specialize (Hbody Hsome). discriminate. }
  rewrite zip_with_fmap_r in PVc. rewrite zip_with_fmap_r in PVr.
  rewrite zip_with_fmap_r in PE. rewrite zip_with_fmap_r in Hreqs.
  assert (Hc : zip_with (λ t p, cpu_so_far w t (Finished p)) targets paths
               = zip_with (vm_cpu w) targets paths).
  { apply zip_with_ext_lookup. intros. apply (so_far_finished w None). }
  assert (Hr : zip_with (λ t p, ram_so_far w t (Finished p)) targets paths
               = zip_with (vm_ram w) targets paths).
  { apply zip_with_ext_lookup. intros. apply (so_far_finished w None). }
  assert (He : zip_with (λ t p, errs_so_far w (ctxErr s) t (Finished p)) targets paths
               = zip_with (vm_errors w (ctxErr s)) targets paths).
  { apply zip_with_ext_lookup. intros. apply so_far_finished. }
  assert (Hq : zip_with (λ t p, reqs_so_far t (Finished p)) targets paths
               = zip_with vm_requests targets paths).
  { apply zip_with_ext_lookup. intros. apply (so_far_finished w None). }
  rewrite Hc in PVc. rewrite Hr in PVr. rewrite He in PE. rewrite Hq in Hreqs.
  eauto 10.
Qed.

(** *** Bounded concurrency *)

(** Only the two fetch steps extend the request log. *)
Lemma request_needs_permit w targets i s s' :
  step w targets (Run i) s = Some s' →
  requests s' ≠ requests s →
  ∃ pc, pcs s !! i = Some pc ∧ (pc = CPUPhase ∨ pc = MemPhase).
Proof.
  cbn. intros Hstep Hreq.
  destruct (targets !! i) as [t|] eqn:Ht; [|discriminate].
  destruct (pcs s !! i) as [pc|] eqn:Hpc; [|discriminate].
  exists pc. split; [reflexivity|].
  destruct (next w t (ctxErr s) pc) as [[pc' a]|] eqn:Hnext; [|discriminate].
  destruct (perform a s) as [s1|] eqn:Hperf; [|discriminate].
  cbn in Hstep. injection Hstep as <-. cbn in Hreq.
  destruct (perform_spec _ _ _ Hperf) as (_ & _ & _ & _ & _ & Ereq & _).
  rewrite Ereq in Hreq.
  destruct pc as [| | | |[ms|e]| |[ms|e]|p|p]; auto; cbn in Hnext;
    repeat match type of Hnext with
      | context [match ?x with _ => _ end] => destruct x
      end;
    simplify_eq; cbn in Hreq; rewrite ?app_nil_r in Hreq; congruence.
Qed.

(** C8: in every state of every run the goroutines between their acquire and
    their release are exactly as many as there are tokens in the channel, and
    at most [maxConcurrency] = 10; a metrics request is only made by a
    goroutine that holds a permit; a goroutine leaving by either exit path
    gives its permit back, so that none is held once all have finished. *)
Theorem bounded_concurrency w targets errs0 ctx0 schedule :
  let s := fanOut w targets errs0 ctx0 schedule in
  maxConcurrency = 10
  ∧ in_flight s ≤ maxConcurrency
  ∧ semaphore s = in_flight s
  ∧ (∀ i s', step w targets (Run i) s = Some s' → requests s' ≠ requests s →
       ∃ pc, pcs s !! i = Some pc ∧ holds_permit pc = true)
  ∧ (∀ i p, pcs s !! i = Some (Exiting p) →
       ∃ s', step w targets (Run i) s = Some s'
             ∧ pcs s' !! i = Some (Finished p)
             ∧ semaphore s' = pred (semaphore s)
             ∧ in_flight s' = pred (in_flight s))
  ∧ (all_finished s = true → in_flight s = 0).
Proof.
  intros s. pose proof (run_inv w targets errs0 ctx0 schedule) as HI.
  fold (fanOut w targets errs0 ctx0 schedule) in HI. fold s in HI.
  split; [reflexivity|]. split.
  { rewrite <- (inv_semaphore _ _ _ _ _ HI). apply (inv_capacity _ _ _ _ _ HI). }
  split; [apply (inv_semaphore _ _ _ _ _ HI)|]. split.
  { intros i s' Hstep Hreq.
    destruct (request_needs_permit _ _ _ _ _ Hstep Hreq) as (pc & Hpc & [->| ->]);
      eexists; split; eauto. }
  split.
  { intros i p Hpc.
    destruct (holder_enabled _ _ _ _ i _ _ HI Hpc eq_refl) as [s' Hstep].
    pose proof (step_inv _ _ _ _ _ _ _ HI Hstep) as HI'.
    exists s'. split; [assumption|].
    assert (Hi : i < length (pcs s)) by (eapply lookup_lt_Some; eassumption).
    cbn in Hstep.
    destruct (targets !! i) as [t|] eqn:Ht; [|discriminate].
    rewrite Hpc in Hstep. cbn in Hstep. injection Hstep as Es.
    assert (Hsem' : semaphore s' = pred (semaphore s)) by (rewrite <- Es; reflexivity).
    assert (Hpc' : pcs s' !! i = Some (Finished p)).
    { rewrite <- Es. cbn. apply list_lookup_insert_eq. assumption. }
    split; [assumption|]. split; [assumption|].
    rewrite <- (inv_semaphore _ _ _ _ _ HI'), <- (inv_semaphore _ _ _ _ _ HI).
    assumption. }
  intros Hfin. destruct (final_state _ _ _ _ _ HI Hfin) as (paths & _ & _ & Hz & _).
  rewrite <- (inv_semaphore _ _ _ _ _ HI). assumption.
Qed.

(** *** No double counting *)

Section Select.
Context {A B C : Type} (f : A → B → list C) (g : A → option C).
Hypothesis f_g : ∀ a b, f a b = [] ∨ ∃ c, g a = Some c ∧ f a b = [c].

Lemma select_exact (l : list A) : ∀ k : list B,
  ∃ sel : list (nat * C),
    NoDup sel.*1
    ∧ sel.*2 = concat (zip_with f l k)
    ∧ ∀ i c, (i, c) ∈ sel → ∃ a, l !! i = Some a ∧ g a = Some c.
Proof.
  induction l as [|a l IH]; intros [|b k];
    try (exists []; cbn; repeat split; [constructor | intros ? ? H; inversion H]).
  destruct (IH k) as (sel & Hnd & Hval & Hin).
  assert (Hshift : (prod_map S id <$> sel).*1 = S <$> sel.*1).
  { rewrite <- !list_fmap_compose. apply list_fmap_ext. intros ? [? ?] _. reflexivity. }
  assert (Hvals : (prod_map S id <$> sel).*2 = sel.*2).
  { rewrite <- !list_fmap_compose. apply list_fmap_ext. intros ? [? ?] _. reflexivity. }
  assert (Hin' : ∀ i c, (i, c) ∈ prod_map S id <$> sel →
                        ∃ a', (a :: l) !! i = Some a' ∧ g a' = Some c).
  { intros i c H. apply list_elem_of_fmap in H as ([j c'] & Heq & Hj).
    cbn in Heq. injection Heq as -> ->. apply (Hin j c' Hj). }
  destruct (f_g a b) as [Hnil | (c & Hg & Hc)].
  - exists (prod_map S id <$> sel). cbn [zip_with concat]. rewrite Hnil, Hshift, Hvals.
    split; [apply (NoDup_fmap_2 S); assumption|]. split; [assumption|]. assumption.
  - exists ((0, c) :: (prod_map S id <$> sel)).
    cbn [zip_with concat]. rewrite Hc, !fmap_cons, Hshift, Hvals. cbn [fst snd].
    split.
    { apply NoDup_cons. split; [|apply (NoDup_fmap_2 S); assumption].
      intros H. apply list_elem_of_fmap in H as (? & ? & _). discriminate. }
    split; [cbn; congruence|].
    intros i c' H. apply elem_of_cons in H as [Heq|H]; [|apply Hin'; assumption].
    injection Heq as -> ->. exists a. split; [reflexivity | assumption].
Qed.

Lemma select_indices (l : list A) (k : list B) (V : list C) :
  V ≡ₚ concat (zip_with f l k) →
  ∃ sel : list (nat * C),
    NoDup sel.*1
    ∧ sel.*2 = V
    ∧ ∀ i c, (i, c) ∈ sel → ∃ a, l !! i = Some a ∧ g a = Some c.
Proof.
  intros HV. destruct (select_exact l k) as (sel0 & Hnd & Hval & Hin).
  rewrite <- Hval in HV.
  destruct (Permutation_map_inv snd sel0 HV) as (sel & -> & Hperm).
  exists sel. split; [|split; [reflexivity|]].
  - rewrite <- Hperm. assumption.
  - intros i c H. apply Hin. rewrite Hperm. assumption.
Qed.
End Select.

(** C2: in every state of every run (so also in the last one), the CPU total
    is the sum of the latest "vcpus" samples of a duplicate-free list of VMs,
    and the RAM total the sum of the latest "memory" samples, in gigabytes,
    of a duplicate-free list of VMs: every VM is counted at most once per
    metric. *)
Theorem no_double_counting w targets errs0 ctx0 schedule :
  let s := fanOut w targets errs0 ctx0 schedule in
  ∃ cpuVMs ramVMs : list (nat * float64),
    NoDup cpuVMs.*1
    ∧ NoDup ramVMs.*1
    ∧ (∀ i v, (i, v) ∈ cpuVMs → ∃ t, targets !! i = Some t ∧ cpu_sample w t = Some v)
    ∧ (∀ i v, (i, v) ∈ ramVMs → ∃ t, targets !! i = Some t ∧ ram_sample w t = Some v)
    ∧ totalCPUCoresUsed s = fsum cpuVMs.*2
    ∧ totalRAMUsedGB s = fsum ramVMs.*2.
Proof.
  intros s. pose proof (run_inv w targets errs0 ctx0 schedule) as HI.
  fold (fanOut w targets errs0 ctx0 schedule) in HI. fold s in HI.
  destruct (inv_cpu _ _ _ _ _ HI) as (Vc & EVc & PVc).
  destruct (inv_ram _ _ _ _ _ HI) as (Vr & EVr & PVr).
  assert (Hc : ∀ t pc, cpu_so_far w t pc = []
                       ∨ ∃ v, cpu_sample w t = Some v ∧ cpu_so_far w t pc = [v]).
  { intros t pc. unfold cpu_so_far.
    destruct (past_cpu pc); [|auto]. destruct (cpu_sample w t); cbn; eauto. }
  assert (Hr : ∀ t pc, ram_so_far w t pc = []
                       ∨ ∃ v, ram_sample w t = Some v ∧ ram_so_far w t pc = [v]).
  { intros t pc. unfold ram_so_far.
    destruct (past_mem pc); [|auto]. destruct (ram_sample w t); cbn; eauto. }
  destruct (select_indices _ _ Hc _ _ _ PVc) as (cpuVMs & Hnc & Hvc & Hic).
  destruct (select_indices _ _ Hr _ _ _ PVr) as (ramVMs & Hnr & Hvr & Hir).
  exists cpuVMs, ramVMs. rewrite Hvc, Hvr. auto 10.
Qed.

(** *** Runs in which the deadline does not fire *)

Lemma step_run_ctxErr w targets i s s' :
  step w targets (Run i) s = Some s' → ctxErr s' = ctxErr s.
Proof.
  cbn. intros Hstep.
  destruct (targets !! i) as [t|]; [|discriminate].
  destruct (pcs s !! i) as [pc|]; [|discriminate].
  destruct (next w t (ctxErr s) pc) as [[pc' a]|]; [|discriminate].
  destruct (perform a s) as [s1|] eqn:Hperf; [|discriminate].
  cbn in Hstep. injection Hstep as <-. cbn.
  apply (perform_spec _ _ _ Hperf).
Qed.

Lemma no_expire w targets schedule : ∀ s,
  forallb is_run schedule = true →
  ctxErr (exec w targets schedule s) = ctxErr s.
Proof.
  induction schedule as [|ev schedule IH]; intros s Hruns; [reflexivity|].
  cbn in Hruns. apply andb_prop in Hruns as [Hev Hruns].
  rewrite exec_cons, (IH _ Hruns).
  destruct ev as [i|e]; [|discriminate].
  destruct (step w targets (Run i) s) as [s'|] eqn:Hstep; [|reflexivity].
  cbn. eapply step_run_ctxErr; eassumption.
Qed.

Lemma zip_with_all {A B C} (f : A → B → C) (l : list A) (k : list B) (b : B) :
  length k = length l → Forall (eq b) k → zip_with f l k = (λ a, f a b) <$> l.
Proof.
  revert k. induction l as [|a l IH]; intros [|b' k] Hlen Hall; cbn in *;
    try reflexivity; try discriminate.
  apply Forall_cons in Hall as [<- Hall]. f_equal. apply IH; [lia | assumption].
Qed.

Lemma concat_option_list {A B} (g : A → option B) (l : list A) :
  concat ((λ a, option_list (g a)) <$> l) = omap g l.
Proof.
  induction l as [|a l IH]; cbn; [reflexivity|].
  rewrite IH. destruct (g a); reflexivity.
Qed.

(** Every goroutine ran its body: the totals and the errors are those of all
    the VMs. *)
Lemma uncancelled_final w targets errs0 schedule :
  let s := fanOut w targets errs0 None schedule in
  forallb is_run schedule = true →
  all_finished s = true →
  (∃ V, totalCPUCoresUsed s = fsum V ∧ V ≡ₚ omap (cpu_sample w) targets)
  ∧ (∃ V, totalRAMUsedGB s = fsum V ∧ V ≡ₚ omap (ram_sample w) targets)
  ∧ (∃ E, usageErrors s = errs0 ++ E
          ∧ E ≡ₚ concat ((λ t, cpu_errors w t ++ mem_errors w t) <$> targets))
  ∧ requests s
    ≡ₚ concat ((λ t, metric_request t "vcpus" ++ metric_request t "memory") <$> targets).
Proof.
  intros s Hruns Hfin.
  pose proof (run_inv w targets errs0 None schedule) as HI.
  fold (fanOut w targets errs0 None schedule) in HI. fold s in HI.
  destruct (final_state _ _ _ _ _ HI Hfin)
    as (paths & _ & Hlen & _ & Hbody & _ & Hc & Hr & He & Hq).
  assert (Hctx : ctxErr s = None) by (apply (no_expire w targets schedule); assumption).
  specialize (Hbody Hctx).
  rewrite (zip_with_all _ _ _ ViaBody Hlen Hbody) in Hc.
  rewrite (zip_with_all _ _ _ ViaBody Hlen Hbody) in Hr.
  rewrite (zip_with_all _ _ _ ViaBody Hlen Hbody) in He.
  rewrite (zip_with_all _ _ _ ViaBody Hlen Hbody) in Hq.
  cbn [vm_cpu vm_ram vm_errors vm_requests] in Hc, Hr, He, Hq.
  rewrite concat_option_list in Hc. rewrite concat_option_list in Hr. auto.
Qed.

Lemma aggregate_Some w targets errs0 ctx0 schedule r :
  aggregate w targets errs0 ctx0 schedule = Some r →
  all_finished (fanOut w targets errs0 ctx0 schedule) = true
  ∧ r = respond w (length targets) (fanOut w targets errs0 ctx0 schedule).
Proof.
  unfold aggregate. cbv zeta.
  destruct (all_finished (fanOut w targets errs0 ctx0 schedule)); [|discriminate].
  intros [= <-]. auto.
Qed.

(** *** What the accumulator holds after [wg.Wait()] *)

(** C1, as amended: after all goroutines have finished, the CPU total is the
    sum, in some order, of the latest "vcpus" sample of every VM whose
    goroutine ran its body and got a non-empty answer for that metric; the
    RAM total likewise for "memory" (in gigabytes); each of the two
    independently of the other metric. The error list is the one the domain
    loop left, followed in some order by: one record per failed metric fetch
    of each VM that ran its body, and exactly one cancellation record for
    each VM that found the context cancelled. *)
Theorem aggregation_totals w targets errs0 ctx0 schedule :
  let s := fanOut w targets errs0 ctx0 schedule in
  all_finished s = true →
  ∃ paths : list ExitPath,
    pcs s = Finished <$> paths
    ∧ length paths = length targets
    ∧ (∃ V, totalCPUCoresUsed s = fsum V
            ∧ V ≡ₚ concat (zip_with
                             (λ t p, match p with
                                     | ViaBody => option_list (cpu_sample w t)
                                     | ViaCancel => []
                                     end) targets paths))
    ∧ (∃ V, totalRAMUsedGB s = fsum V
            ∧ V ≡ₚ concat (zip_with
                             (λ t p, match p with
                                     | ViaBody => option_list (ram_sample w t)
                                     | ViaCancel => []
                                     end) targets paths))
    ∧ (∃ E, usageErrors s = errs0 ++ E
            ∧ E ≡ₚ concat (zip_with
                             (λ t p, match p with
                                     | ViaBody => cpu_errors w t ++ mem_errors w t
                                     | ViaCancel =>
                                         [cancelError t (default "<nil>" (ctxErr s))]
                                     end) targets paths)).
Proof.
  intros s Hfin. pose proof (run_inv w targets errs0 ctx0 schedule) as HI.
  fold (fanOut w targets errs0 ctx0 schedule) in HI. fold s in HI.
  destruct (final_state _ _ _ _ _ HI Hfin)
    as (paths & Hpcs & Hlen & _ & _ & _ & Hc & Hr & He & _).
  exists paths. repeat split; assumption.
Qed.

Lemma aggregation_totals_witness :
  all_finished (fanOut literal_world [example_A; example_B] [] None (one_by_one 2)) = true
  ∧ ∃ paths : list ExitPath,
      pcs (fanOut literal_world [example_A; example_B] [] None (one_by_one 2))
      = Finished <$> paths
      ∧ length paths = 2.
Proof.
  assert (Hfin : all_finished (fanOut literal_world [example_A; example_B] []
                                 None (one_by_one 2)) = true)
    by (vm_compute; reflexivity).
  split; [exact Hfin|].
  destruct (aggregation_totals literal_world [example_A; example_B] [] None
              (one_by_one 2) Hfin) as (paths & Hpcs & Hlen & _).
  exists paths. split; assumption.
Defined.

(** C1, as stated, fails: a VM whose "vcpus" fetch succeeds and whose "memory"
    fetch fails is counted in the CPU total (4) and leaves an error record as
    well. *)
Lemma cpu_counted_despite_memory_failure :
  lookupFetch half_failing_world example_C "memory"
  = Some (Err "API returned status 404: ")
  ∧ response (getTotalUsage half_failing_world (one_by_one 1))
    = Some (JSON StatusPartialContent
              {| Timestamp := "2026-01-01T00:05:00Z"; TotalVMs := 1;
                 CPUCoresUsed := 4; RAMUsedGB := 0;
                 Errors := [memoryError example_C "API returned status 404: "] |}).
Proof. vm_compute. split; reflexivity. Qed.

(** *** The literal scenario *)

(** C3: two VMs in scope, A with latest "vcpus" sample 1.5 and latest
    "memory" sample 2048, B with latest "vcpus" sample 2.0 and no "memory"
    key; no error from the domain loop and no cancellation. Whatever the
    interleaving, the run can be completed, and the response of a completed
    run is 200 with [total_vms = 2], [cpu_cores_used = 3.5],
    [ram_used_gb = 2.0] and no errors. *)
Theorem literal_scenario w A B schedule :
  cpu_sample w A = Some 1.5%float →
  lookupFetch w A "memory" ≫= latest = Some 2048%float →
  cpu_sample w B = Some 2%float →
  GnocchiInstance.Metrics (Target.Instance B) !! "memory" = None →
  forallb is_run schedule = true →
  let expected :=
    JSON StatusOK
      {| Timestamp := now w; TotalVMs := 2; CPUCoresUsed := 3.5;
         RAMUsedGB := 2; Errors := [] |} in
  (∃ more, forallb is_run more = true
           ∧ aggregate w [A; B] [] None (schedule ++ more) = Some expected)
  ∧ (∀ r, aggregate w [A; B] [] None schedule = Some r → r = expected).
Proof.
  intros HcA HmA HcB HmB Hruns expected.
  assert (Hall : ∀ schedule r, forallb is_run schedule = true →
                   aggregate w [A; B] [] None schedule = Some r → r = expected).
  { clear schedule Hruns. intros schedule r Hruns Hagg.
    apply aggregate_Some in Hagg as [Hfin ->].
    destruct (uncancelled_final w [A; B] [] schedule Hruns Hfin)
      as ((Vc & EVc & PVc) & (Vr & EVr & PVr) & (E & EE & PE) & _).
    assert (HfA : ∃ ms, lookupFetch w A "vcpus" = Some (Ok ms)).
    { unfold cpu_sample in HcA. destruct (lookupFetch w A "vcpus") as [[ms|e]|];
        try discriminate. eauto. }
    assert (HfB : ∃ ms, lookupFetch w B "vcpus" = Some (Ok ms)).
    { unfold cpu_sample in HcB. destruct (lookupFetch w B "vcpus") as [[ms|e]|];
        try discriminate. eauto. }
    assert (HgA : ∃ ms, lookupFetch w A "memory" = Some (Ok ms)).
    { destruct (lookupFetch w A "memory") as [[ms|e]|]; try discriminate. eauto. }
    destruct HfA as [? HfA], HfB as [? HfB], HgA as [? HgA].
    assert (HrA : ram_sample w A = Some (2048 / 1024)%float)
      by (unfold ram_sample; rewrite HmA; reflexivity).
    assert (HrB : ram_sample w B = None)
      by (unfold ram_sample, lookupFetch; rewrite HmB; reflexivity).
    assert (HeB : lookupFetch w B "memory" = None)
      by (unfold lookupFetch; rewrite HmB; reflexivity).
    cbn in PVc, PVr, PE. rewrite HcA, HcB in PVc. rewrite HrA, HrB in PVr.
    unfold cpu_errors, mem_errors in PE. rewrite HfA, HfB, HgA, HeB in PE.
    cbn in PVc, PVr, PE.
    apply Permutation_nil_r in PE as ->.
    apply Permutation_singleton_r in PVr as ->.
    unfold respond. rewrite EE, EVc, EVr. cbn [app length].
    rewrite decide_False by lia.
    assert (Hsum : fsum Vc = 3.5%float).
    { apply Permutation_sym, Permutation_length_2_inv in PVc as [-> | ->];
        vm_compute; reflexivity. }
    rewrite Hsum. reflexivity. }
  split; [|intros r; apply Hall; assumption].
  destruct (aggregate_returns w [A; B] [] None schedule) as (more & r & Hmore & Hr).
  exists more. split; [assumption|]. rewrite Hr. f_equal.
  apply (Hall (schedule ++ more)); [|assumption].
  rewrite forallb_app, Hruns, Hmore. reflexivity.
Qed.

Lemma literal_scenario_witness :
  forallb is_run (one_by_one 2) = true
  ∧ aggregate literal_world [example_A; example_B] [] None (one_by_one 2)
    = Some (JSON 200
              {| Timestamp := "2026-01-01T00:05:00Z"; TotalVMs := 2;
                 CPUCoresUsed := 3.5; RAMUsedGB := 2; Errors := [] |}).
Proof.
  split; [vm_compute; reflexivity|].
  assert (Hr : ∃ r, aggregate literal_world [example_A; example_B] [] None
                      (one_by_one 2) = Some r)
    by (eexists; vm_compute; reflexivity).
  destruct Hr as [r Hr].
  assert (Hall := proj2 (literal_scenario literal_world example_A example_B
                           (one_by_one 2) eq_refl eq_refl eq_refl eq_refl eq_refl)).
  rewrite Hr. f_equal. exact (Hall r Hr).
Defined.

(** *** Partial results *)

Lemma errors_count w targets :
  length (concat ((λ t, cpu_errors w t ++ mem_errors w t) <$> targets))
  = length (List.filter (cpu_fails w) targets)
    + length (List.filter (mem_fails w) targets).
Proof.
  induction targets as [|t targets IH]; cbn; [reflexivity|].
  rewrite !length_app, IH.
  unfold cpu_errors, mem_errors, cpu_fails, mem_fails.
  destruct (lookupFetch w t "vcpus") as [[?|?]|],
           (lookupFetch w t "memory") as [[?|?]|]; cbn; lia.
Qed.





(** *** Cancellation *)

Lemma concat_singletons {A B} (g : A → B) (l : list A) :
  concat ((λ a, [g a]) <$> l) = g <$> l.
Proof. induction l as [|a l IH]; cbn; [reflexivity|]. rewrite IH. reflexivity. Qed.

(** Under a context that was cancelled before the dispatch, no goroutine
    enters its body: nothing is added and nothing is requested. *)
Lemma cancelled_quiet w targets errs0 e s :
  Inv w targets errs0 (Some e) s →
  totalCPUCoresUsed s = 0%float ∧ totalRAMUsedGB s = 0%float ∧ requests s = [].
Proof.
  intros [Hlen Hsem Hcap Hctx Hloc (Vc & EVc & PVc) (Vr & EVr & PVr) _ Hreqs].
  assert (Hoff : ∀ i t pc, targets !! i = Some t → pcs s !! i = Some pc →
                           on_body pc = false).
  { intros i t pc Ht Hpc. apply (Hloc i t pc Ht Hpc). eexists; reflexivity. }
  rewrite concat_zip_with_nil in PVc; cycle 1.
  { intros i t pc Ht Hpc. specialize (Hoff i t pc Ht Hpc).
    unfold cpu_so_far. destruct pc as [| | | | | | |[|]|[|]]; cbn in *; congruence. }
  rewrite concat_zip_with_nil in PVr; cycle 1.
  { intros i t pc Ht Hpc. specialize (Hoff i t pc Ht Hpc).
    unfold ram_so_far. destruct pc as [| | | | | | |[|]|[|]]; cbn in *; congruence. }
  rewrite concat_zip_with_nil in Hreqs; cycle 1.
  { intros i t pc Ht Hpc. specialize (Hoff i t pc Ht Hpc).
    unfold reqs_so_far. destruct pc as [| | | | | | |[|]|[|]]; cbn in *; congruence. }
  apply Permutation_nil_r in PVc, PVr, Hreqs. subst. auto.
Qed.

(** C7: a goroutine that holds its permit and finds the context cancelled
    takes three steps: it appends one error record with the domain, instance
    id and project id of its VM, gives its permit back and ends; it requests
    nothing and adds nothing. And when the context is already cancelled at
    dispatch, whatever the interleaving: both totals stay 0, no metric is
    requested, the run can always be completed, and the response of a
    completed run carries [total_vms = n], zero totals and, after the errors
    of the domain loop, one cancellation record per VM. *)
Theorem cancellation :
  (∀ w targets s i t e,
     targets !! i = Some t → pcs s !! i = Some Entered → ctxErr s = Some e →
     exec w targets [Run i; Run i; Run i] s
     = {| totalCPUCoresUsed := totalCPUCoresUsed s;
          totalRAMUsedGB := totalRAMUsedGB s;
          usageErrors :=
            usageErrors s
            ++ [UsageError.mk (Target.DomainName t)
                  (GnocchiInstance.ID (Target.Instance t))
                  (GnocchiInstance.ProjectID (Target.Instance t))
                  ("context cancelled while processing instance: " +:+ e)];
          semaphore := pred (semaphore s);
          ctxErr := Some e;
          requests := requests s;
          pcs := <[i := Finished ViaCancel]> (pcs s) |})
  ∧ (∀ w targets errs0 e schedule,
       let s := fanOut w targets errs0 (Some e) schedule in
       totalCPUCoresUsed s = 0%float
       ∧ totalRAMUsedGB s = 0%float
       ∧ requests s = []
       ∧ (∃ more r, aggregate w targets errs0 (Some e) (schedule ++ more) = Some r)
       ∧ (∀ r, aggregate w targets errs0 (Some e) schedule = Some r →
            ∃ E, E ≡ₚ (λ t, cancelError t e) <$> targets
                 ∧ r = JSON (if decide (0 < length (errs0 ++ E))
                             then StatusPartialContent else StatusOK)
                         {| Timestamp := now w; TotalVMs := length targets;
                            CPUCoresUsed := 0; RAMUsedGB := 0;
                            Errors := errs0 ++ E |})).
Proof.
  split.
  - intros w targets s i t e Ht Hpc Hctx.
    assert (Hi : i < length (pcs s)) by (eapply lookup_lt_Some; eassumption).
    destruct s as [cpu ram errs sem ctx reqs pcs0]. cbn in Hpc, Hctx, Hi. subst ctx.
    rewrite exec_cons.
    assert (H1 : ∀ cpu ram errs sem reqs pcs1 pc pc' a,
              pcs1 !! i = Some pc →
              next w t (Some e) pc = Some (pc', a) →
              step w targets (Run i)
                {| totalCPUCoresUsed := cpu; totalRAMUsedGB := ram;
                   usageErrors := errs; semaphore := sem; ctxErr := Some e;
                   requests := reqs; pcs := pcs1 |}
              = set_pc i pc'
                  <$> perform a
                        {| totalCPUCoresUsed := cpu; totalRAMUsedGB := ram;
                           usageErrors := errs; semaphore := sem; ctxErr := Some e;
                           requests := reqs; pcs := pcs1 |}).
    { intros ? ? ? ? ? pcs1 pc pc' a Hlook Hnext. unfold step. cbn [pcs ctxErr].
      rewrite Ht, Hlook, Hnext. reflexivity. }
    assert (L2 : <[i:=Cancelled]> pcs0 !! i = Some Cancelled)
      by (apply list_lookup_insert_eq; assumption).
    assert (L3 : <[i:=Exiting ViaCancel]> (<[i:=Cancelled]> pcs0) !! i
                 = Some (Exiting ViaCancel))
      by (apply list_lookup_insert_eq; rewrite length_insert; assumption).
    rewrite (H1 _ _ _ _ _ _ Entered Cancelled Skip Hpc eq_refl).
    unfold set_pc, perform.
    cbn [perform fmap option_fmap option_map default from_option id set_pc pcs
           totalCPUCoresUsed totalRAMUsedGB usageErrors semaphore ctxErr requests].
    rewrite exec_cons.
    rewrite (H1 _ _ _ _ _ _ Cancelled (Exiting ViaCancel)
               (Report (cancelError t e)) L2 eq_refl).
    unfold set_pc, perform.
    cbn [perform fmap option_fmap option_map default from_option id set_pc pcs
           totalCPUCoresUsed totalRAMUsedGB usageErrors semaphore ctxErr requests].
    rewrite exec_cons.
    rewrite (H1 _ _ _ _ _ _ (Exiting ViaCancel) (Finished ViaCancel) Release L3 eq_refl).
    unfold set_pc, perform.
    cbn [perform fmap option_fmap option_map default from_option id set_pc pcs
           totalCPUCoresUsed totalRAMUsedGB usageErrors semaphore ctxErr requests
           exec foldl].
    rewrite !list_insert_insert_eq. reflexivity.
  - intros w targets errs0 e schedule s.
    pose proof (run_inv w targets errs0 (Some e) schedule) as HI.
    fold (fanOut w targets errs0 (Some e) schedule) in HI. fold s in HI.
    destruct (cancelled_quiet _ _ _ _ _ HI) as (Hcpu & Hram & Hreq).
    split; [assumption|]. split; [assumption|]. split; [assumption|]. split.
    + destruct (aggregate_returns w targets errs0 (Some e) schedule)
        as (more & r & _ & Hr).
      eauto.
    + intros r Hagg. apply aggregate_Some in Hagg as [Hfin ->]. fold s in Hfin |- *.
      destruct (final_state _ _ _ _ _ HI Hfin)
        as (paths & _ & Hlen & _ & _ & Hcancel & _ & _ & (E & EE & PE) & _).
      specialize (Hcancel (ltac:(eexists; reflexivity))).
      rewrite (zip_with_all _ _ _ ViaCancel Hlen Hcancel) in PE.
      cbn [vm_errors] in PE. rewrite (inv_ctx _ _ _ _ _ HI e eq_refl) in PE.
      cbn [default] in PE. rewrite (concat_singletons (λ t, cancelError t e)) in PE.
      exists E. split; [assumption|].
      unfold respond. rewrite Hcpu, Hram, EE. reflexivity.
Qed.

Lemma cancellation_witness :
  ∃ E, length E = 5
       ∧ aggregate ten_world five_targets [] (Some "context deadline exceeded")
           (one_by_one 5)
         = Some (JSON StatusPartialContent
                   {| Timestamp := "2026-01-01T00:05:00Z"; TotalVMs := 5;
                      CPUCoresUsed := 0; RAMUsedGB := 0; Errors := E |}).
Proof.
  assert (Hr : ∃ r, aggregate ten_world five_targets []
                      (Some "context deadline exceeded") (one_by_one 5) = Some r).
  { eexists. vm_compute. reflexivity. }
  destruct Hr as [r Hr].
  destruct (proj2 cancellation ten_world five_targets []
              "context deadline exceeded" (one_by_one 5))
    as (_ & _ & _ & _ & Hresp).
  destruct (Hresp r Hr) as (E & HE & ->).
  assert (Hlen : length E = 5) by (rewrite HE, length_fmap; reflexivity).
  exists E. split; [assumption|]. rewrite Hr. cbn [app].
  rewrite decide_True by lia. reflexivity.
Defined.

(** *** An empty answer *)

Lemma same_but_empty_contributions w t t' :
  same_but_empty w t t' →
  cpu_sample w t = cpu_sample w t'
  ∧ ram_sample w t = ram_sample w t'
  ∧ cpu_errors w t ++ mem_errors w t = cpu_errors w t' ++ mem_errors w t'.
Proof.
  intros (Hd & Hi & Hp & Hkeys).
  assert (Hv : vcpusError t = vcpusError t')
    by (unfold vcpusError; rewrite Hd, Hi, Hp; reflexivity).
  assert (Hm : memoryError t = memoryError t')
    by (unfold memoryError; rewrite Hd, Hi, Hp; reflexivity).
  unfold cpu_sample, ram_sample, cpu_errors, mem_errors. rewrite Hv, Hm.
  destruct (Hkeys "vcpus" (or_introl eq_refl)) as [Ec|[Ec Ec']],
           (Hkeys "memory" (or_intror eq_refl)) as [Em|[Em Em']];
    unfold lookupFetch in *;
    repeat match goal with
      | H : GnocchiInstance.Metrics _ !! _ = _ |- _ => rewrite H in *
      | H : _ <$> _ = _ |- _ => rewrite H
      end; cbn; auto.
Qed.

Lemma same_but_empty_lists w targets targets' :
  Forall2 (same_but_empty w) targets targets' →
  omap (cpu_sample w) targets = omap (cpu_sample w) targets'
  ∧ omap (ram_sample w) targets = omap (ram_sample w) targets'
  ∧ concat ((λ t, cpu_errors w t ++ mem_errors w t) <$> targets)
    = concat ((λ t, cpu_errors w t ++ mem_errors w t) <$> targets').
Proof.
  induction 1 as [|t t' l l' Ht _ (IHc & IHr & IHe)]; [auto|].
  destruct (same_but_empty_contributions w t t' Ht) as (Hc & Hr & He).
  cbn. rewrite Hc, Hr, He, IHc, IHr, IHe. auto.
Qed.

Lemma elem_of_concat_fmap {A B} (f : A → list B) (l : list A) (a : A) (x : B) :
  a ∈ l → x ∈ f a → x ∈ concat (f <$> l).
Proof.
  intros Ha Hx. apply list_elem_of_split in Ha as (l1 & l2 & ->).
  rewrite fmap_app, concat_app, fmap_cons. cbn [concat]. rewrite !elem_of_app. auto.
Qed.

Lemma matches_lookup targets' s s' i t' :
  matches targets' s s' → targets' !! i = Some t' →
  ∃ pc pc', pcs s !! i = Some pc ∧ pcs s' !! i = Some pc' ∧ pc_matches t' pc pc'.
Proof.
  intros M Ht. pose proof (lookup_lt_Some _ _ _ Ht) as Hi.
  destruct (lookup_lt_is_Some_2 (pcs s) i) as [pc Hpc];
    [rewrite (matches_length _ _ _ M); assumption|].
  destruct (lookup_lt_is_Some_2 (pcs s') i) as [pc' Hpc'];
    [rewrite (matches_length' _ _ _ M); assumption|].
  exists pc, pc'. split; [assumption|]. split; [assumption|].
  exact (matches_pcs _ _ _ M i t' pc pc' Ht Hpc Hpc').
Qed.

Lemma matches_set_pc targets' s s' i t' pc pc' :
  matches targets' s s' → targets' !! i = Some t' → pc_matches t' pc pc' →
  matches targets' (set_pc i pc s) (set_pc i pc' s').
Proof.
  intros [] Ht Hm. constructor; cbn; try assumption.
  - rewrite length_insert. assumption.
  - rewrite length_insert. assumption.
  - intros j u q q' Hu Hq Hq'. destruct (decide (i = j)) as [<-|Hne].
    + rewrite list_lookup_insert_eq in Hq by (apply lookup_lt_Some in Ht; lia).
      rewrite list_lookup_insert_eq in Hq' by (apply lookup_lt_Some in Ht; lia).
      congruence.
    + rewrite list_lookup_insert_ne in Hq by assumption.
      rewrite list_lookup_insert_ne in Hq' by assumption. eauto.
Qed.

Lemma matches_set_pc_l targets' s s' i t' pc pc' :
  matches targets' s s' → targets' !! i = Some t' → pcs s' !! i = Some pc' →
  pc_matches t' pc pc' →
  matches targets' (set_pc i pc s) s'.
Proof.
  intros [] Ht Hpc' Hm. constructor; cbn; try assumption.
  - rewrite length_insert. assumption.
  - intros j u q q' Hu Hq Hq'. destruct (decide (i = j)) as [<-|Hne].
    + rewrite list_lookup_insert_eq in Hq by (apply lookup_lt_Some in Ht; lia).
      congruence.
    + rewrite list_lookup_insert_ne in Hq by assumption. eauto.
Qed.

(** An action does the same to two matching states. *)
Lemma matches_perform targets' a s s' :
  matches targets' s s' →
  match perform a s, perform a s' with
  | Some s1, Some s1' => matches targets' s1 s1'
  | None, None => True
  | _, _ => False
  end.
Proof.
  intros M. pose proof M as [].
  destruct a; cbn; try (constructor; cbn; congruence || assumption).
  rewrite <- matches_semaphore0.
  destruct (decide (semaphore s < maxConcurrency)); [|exact I].
  constructor; cbn; congruence || assumption.
Qed.

Lemma matches_fetch_l targets' metricID s s' :
  matches targets' s s' →
  ∃ s1, perform (Fetch metricID) s = Some s1 ∧ matches targets' s1 s'.
Proof.
  intros []. eexists. split; [reflexivity|]. constructor; cbn; assumption.
Qed.

Lemma lookupFetch_Some w t key r :
  lookupFetch w t key = Some r →
  ∃ metricID, GnocchiInstance.Metrics (Target.Instance t) !! key = Some metricID
              ∧ GetMetricMeasures w metricID "" "" 300 = r.
Proof.
  unfold lookupFetch.
  destruct (GnocchiInstance.Metrics (Target.Instance t) !! key) as [metricID|];
    [|discriminate].
  intros [= <-]. eauto.
Qed.

Lemma same_but_empty_records w t t' :
  same_but_empty w t t' →
  (∀ e, cancelError t e = cancelError t' e)
  ∧ (∀ e, vcpusError t e = vcpusError t' e)
  ∧ (∀ e, memoryError t e = memoryError t' e).
Proof.
  intros (Hd & Hi & Hp & _). unfold cancelError, vcpusError, memoryError.
  rewrite Hd, Hi, Hp. auto.
Qed.

(** The goroutines of two matching VMs step together, but for the fetch of a
    key with an empty answer, which only the first one sends; the step that
    follows it is the one with which the second passes over the key. *)
Lemma next_matches w t t' ctx pc pc' :
  same_but_empty w t t' → pc_matches t' pc pc' →
  (next w t ctx pc = None ∧ next w t' ctx pc' = None)
  ∨ (∃ q q' a, next w t ctx pc = Some (q, a) ∧ next w t' ctx pc' = Some (q', a)
               ∧ pc_matches t' q q')
  ∨ (∃ metricID q r r',
       next w t ctx pc = Some (q, Fetch metricID) ∧ pc_matches t' q pc'
       ∧ next w t ctx q = Some (r, Skip) ∧ next w t' ctx pc' = Some (r', Skip)
       ∧ pc_matches t' r r').
Proof.
  intros Hsame Hm.
  destruct (same_but_empty_records w t t' Hsame) as (Hce & Hve & Hme).
  destruct Hsame as (_ & _ & _ & Hkeys).
  destruct Hm as [<- | [(Hnone & -> & ->) | (Hnone & -> & ->)]].
  - destruct pc as [| | | |[measures|e]| |[measures|e]|p|p]; cbn.
    + right; left. eexists _, _, _. repeat split. left; reflexivity.
    + right; left. destruct ctx; eexists _, _, _; (repeat split); left; reflexivity.
    + right; left. rewrite Hce. eexists _, _, _. repeat split. left; reflexivity.
    + destruct (Hkeys "vcpus" (or_introl eq_refl)) as [<- | [Hf Hn]].
      * right; left.
        destruct (GnocchiInstance.Metrics (Target.Instance t) !! "vcpus");
          eexists _, _, _; (repeat split); left; reflexivity.
      * right; right. apply lookupFetch_Some in Hf as (metricID & -> & ->).
        rewrite Hn. exists metricID, (CPUFetched (Ok [])), MemPhase, MemPhase.
        split; [reflexivity|]. split; [right; left; auto|].
        split; [reflexivity|]. split; [reflexivity|]. left; reflexivity.
    + right; left. destruct (last measures); eexists _, _, _; (repeat split);
        left; reflexivity.
    + right; left. rewrite Hve. eexists _, _, _. repeat split. left; reflexivity.
    + destruct (Hkeys "memory" (or_intror eq_refl)) as [<- | [Hf Hn]].
      * right; left.
        destruct (GnocchiInstance.Metrics (Target.Instance t) !! "memory");
          eexists _, _, _; (repeat split); left; reflexivity.
      * right; right. apply lookupFetch_Some in Hf as (metricID & -> & ->).
        rewrite Hn. exists metricID, (MemFetched (Ok [])), (Exiting ViaBody), (Exiting ViaBody).
        split; [reflexivity|]. split; [right; right; auto|].
        split; [reflexivity|]. split; [reflexivity|]. left; reflexivity.
    + right; left. destruct (last measures); eexists _, _, _; (repeat split);
        left; reflexivity.
    + right; left. rewrite Hme. eexists _, _, _. repeat split. left; reflexivity.
    + right; left. eexists _, _, _. repeat split. left; reflexivity.
    + left. auto.
  - right; left. cbn. rewrite Hnone. eexists _, _, _. repeat split. left; reflexivity.
  - right; left. cbn. rewrite Hnone. eexists _, _, _. repeat split. left; reflexivity.
Qed.

Lemma matches_expire targets' e s s' :
  matches targets' s s' → matches targets' (set_ctxErr e s) (set_ctxErr e s').
Proof. intros []. constructor; cbn; congruence || assumption. Qed.

(** Whatever the goroutines of the VMs with the empty answers do, those of
    the VMs without the keys can do. *)
Lemma forward_step w targets targets' ev s s' :
  Forall2 (same_but_empty w) targets targets' →
  matches targets' s s' →
  ∃ schedule', matches targets' (default s (step w targets ev s))
                 (exec w targets' schedule' s').
Proof.
  intros Hsame M. destruct ev as [i|e].
  - unfold step at 1. destruct (targets !! i) as [t|] eqn:Ht; [|exists []; exact M].
    destruct (Forall2_lookup_l _ _ _ _ _ Hsame Ht) as (t' & Ht' & Htt).
    destruct (matches_lookup _ _ _ _ _ M Ht') as (pc & pc' & Hpc & Hpc' & Hm).
    rewrite Hpc.
    destruct (next_matches w t t' (ctxErr s) pc pc' Htt Hm)
      as [[Hn _] | [(q & q' & a & Hn & Hn' & Hq)
                   | (metricID & q & _ & _ & Hn & Hq & _)]];
      rewrite Hn.
    + exists []. exact M.
    + pose proof (matches_perform targets' a s s' M) as Hp.
      destruct (perform a s) as [s1|] eqn:Hs1, (perform a s') as [s1'|] eqn:Hs1';
        try contradiction.
      * exists [Run i]. cbn. rewrite Ht', Hpc', <- (matches_ctx _ _ _ M), Hn', Hs1'. cbn.
        eapply matches_set_pc; eassumption.
      * exists []. exact M.
    + destruct (matches_fetch_l targets' metricID s s' M) as (s1 & -> & M1).
      exists []. cbn. eapply matches_set_pc_l; try eassumption.
  - unfold step at 1. destruct (ctxErr s) as [e0|] eqn:Hctx.
    + exists []. exact M.
    + exists [Expire e]. cbn. rewrite <- (matches_ctx _ _ _ M), Hctx. cbn.
      apply matches_expire. exact M.
Qed.

Lemma forward w targets targets' schedule : ∀ s s',
  Forall2 (same_but_empty w) targets targets' →
  matches targets' s s' →
  ∃ schedule', matches targets' (exec w targets schedule s)
                 (exec w targets' schedule' s').
Proof.
  induction schedule as [|ev schedule IH]; intros s s' Hsame M.
  - exists []. exact M.
  - destruct (forward_step w targets targets' ev s s' Hsame M) as (sch1 & M1).
    destruct (IH _ _ Hsame M1) as (sch2 & M2).
    exists (sch1 ++ sch2). rewrite exec_app. exact M2.
Qed.

(** And the other way round. *)
Lemma backward_step w targets targets' ev s s' :
  Forall2 (same_but_empty w) targets targets' →
  matches targets' s s' →
  ∃ schedule, matches targets' (exec w targets schedule s)
                (default s' (step w targets' ev s')).
Proof.
  intros Hsame M. destruct ev as [i|e].
  - unfold step. destruct (targets' !! i) as [t'|] eqn:Ht'; [|exists []; exact M].
    destruct (Forall2_lookup_r _ _ _ _ _ Hsame Ht') as (t & Ht & Htt).
    destruct (matches_lookup _ _ _ _ _ M Ht') as (pc & pc' & Hpc & Hpc' & Hm).
    rewrite Hpc'. rewrite <- (matches_ctx _ _ _ M).
    destruct (next_matches w t t' (ctxErr s) pc pc' Htt Hm)
      as [[_ Hn'] | [(q & q' & a & Hn & Hn' & Hq)
                    | (metricID & q & r & r' & Hn & Hq & Hnq & Hn' & Hr)]];
      rewrite Hn'.
    + exists []. exact M.
    + pose proof (matches_perform targets' a s s' M) as Hp.
      destruct (perform a s) as [s1|] eqn:Hs1, (perform a s') as [s1'|] eqn:Hs1';
        try contradiction.
      * exists [Run i]. cbn. rewrite Ht, Hpc, Hn, Hs1. cbn.
        eapply matches_set_pc; eassumption.
      * exists []. exact M.
    + destruct (matches_fetch_l targets' metricID s s' M) as (s1 & Hs1 & M1).
      injection Hs1 as <-.
      exists [Run i; Run i]. cbn. rewrite Ht, Hpc, Hn. cbn.
      rewrite list_lookup_insert_eq by (apply lookup_lt_Some in Hpc; exact Hpc).
      rewrite Hnq. cbn.
      pose proof (matches_set_pc targets' _ _ i t' r r' M1 Ht' Hr) as M2.
      destruct M2. constructor; cbn in *; try assumption.
      * rewrite !length_insert in *. assumption.
      * intros j u x x' Hu Hx Hx'. rewrite list_insert_insert_eq in Hx. eauto.
  - unfold step. rewrite <- (matches_ctx _ _ _ M).
    destruct (ctxErr s) as [e0|] eqn:Hctx.
    + exists []. exact M.
    + exists [Expire e]. cbn. rewrite Hctx. cbn. apply matches_expire. exact M.
Qed.

Lemma backward w targets targets' schedule' : ∀ s s',
  Forall2 (same_but_empty w) targets targets' →
  matches targets' s s' →
  ∃ schedule, matches targets' (exec w targets schedule s)
                (exec w targets' schedule' s').
Proof.
  induction schedule' as [|ev schedule' IH]; intros s s' Hsame M.
  - exists []. exact M.
  - destruct (backward_step w targets targets' ev s s' Hsame M) as (sch1 & M1).
    destruct (IH _ _ Hsame M1) as (sch2 & M2).
    exists (sch1 ++ sch2). rewrite exec_app. exact M2.
Qed.

Lemma all_finished_lookup s :
  all_finished s = true ↔ ∀ i pc, pcs s !! i = Some pc → is_finished pc = true.
Proof.
  unfold all_finished. rewrite forallb_forall. split.
  - intros H i pc Hpc. apply H, list_elem_of_In. eapply list_elem_of_lookup_2; eauto.
  - intros H pc Hin. apply list_elem_of_In, list_elem_of_lookup in Hin as [i Hi]. eauto.
Qed.

Lemma pc_matches_finished t' pc pc' :
  pc_matches t' pc pc' → is_finished pc = is_finished pc'.
Proof. intros [<- | [(_ & -> & ->) | (_ & -> & ->)]]; reflexivity. Qed.

Lemma matches_all_finished targets' s s' :
  matches targets' s s' → all_finished s = all_finished s'.
Proof.
  intros M.
  assert (H : all_finished s = true ↔ all_finished s' = true).
  { rewrite !all_finished_lookup. split.
    - intros H i pc' Hpc'.
      destruct (lookup_lt_is_Some_2 targets' i) as [t' Ht'];
        [rewrite <- (matches_length' _ _ _ M); eapply lookup_lt_Some; eassumption|].
      destruct (matches_lookup _ _ _ _ _ M Ht') as (pc & pc2 & Hpc & Hpc2 & Hm).
      assert (pc2 = pc') as -> by congruence.
      rewrite <- (pc_matches_finished _ _ _ Hm). eauto.
    - intros H i pc Hpc.
      destruct (lookup_lt_is_Some_2 targets' i) as [t' Ht'];
        [rewrite <- (matches_length _ _ _ M); eapply lookup_lt_Some; eassumption|].
      destruct (matches_lookup _ _ _ _ _ M Ht') as (pc1 & pc' & Hpc1 & Hpc' & Hm).
      assert (pc1 = pc) as -> by congruence.
      rewrite (pc_matches_finished _ _ _ Hm). eauto. }
  destruct (all_finished s), (all_finished s'); try reflexivity.
  - symmetry. apply H. reflexivity.
  - apply H. reflexivity.
Qed.

Lemma matches_respond w targets' n s s' :
  matches targets' s s' → respond w n s = respond w n s'.
Proof. intros [Hc Hr He _ _ _ _ _]. unfold respond. rewrite Hc, Hr, He. reflexivity. Qed.

Lemma matches_init w targets targets' errs0 ctx0 :
  Forall2 (same_but_empty w) targets targets' →
  matches targets' (init targets errs0 ctx0) (init targets' errs0 ctx0).
Proof.
  intros Hsame. pose proof (Forall2_length _ _ _ Hsame) as Hlen.
  constructor; cbn; try reflexivity.
  - rewrite length_replicate. assumption.
  - rewrite length_replicate. reflexivity.
  - intros i t' pc pc' _ Hpc Hpc'.
    apply lookup_replicate in Hpc as [-> _]. apply lookup_replicate in Hpc' as [-> _].
    left. reflexivity.
Qed.

(** The responses a request can get are the same over the two lists. *)
Lemma same_responses w targets targets' errs0 ctx0 r :
  Forall2 (same_but_empty w) targets targets' →
  (∃ schedule, aggregate w targets errs0 ctx0 schedule = Some r)
  ↔ (∃ schedule', aggregate w targets' errs0 ctx0 schedule' = Some r).
Proof.
  intros Hsame. pose proof (Forall2_length _ _ _ Hsame) as Hlen.
  pose proof (matches_init w targets targets' errs0 ctx0 Hsame) as M0.
  split.
  - intros [schedule Hagg]. apply aggregate_Some in Hagg as [Hfin ->].
    destruct (forward w targets targets' schedule _ _ Hsame M0) as (schedule' & M).
    exists schedule'. unfold aggregate, fanOut in *. cbv zeta.
    rewrite <- (matches_all_finished _ _ _ M), Hfin, Hlen.
    rewrite (matches_respond w _ _ _ _ M). reflexivity.
  - intros [schedule' Hagg]. apply aggregate_Some in Hagg as [Hfin ->].
    destruct (backward w targets targets' schedule' _ _ Hsame M0) as (schedule & M).
    exists schedule. unfold aggregate, fanOut in *. cbv zeta.
    rewrite (matches_all_finished _ _ _ M), Hfin, Hlen.
    rewrite (matches_respond w _ _ _ _ M). reflexivity.
Qed.

(** The update that follows an empty answer changes nothing but the program
    point of its goroutine. *)
Lemma empty_answer_step w targets s i t :
  targets !! i = Some t →
  (pcs s !! i = Some (CPUFetched (Ok [])) →
   step w targets (Run i) s = Some (set_pc i MemPhase s))
  ∧ (pcs s !! i = Some (MemFetched (Ok [])) →
     step w targets (Run i) s = Some (set_pc i (Exiting ViaBody) s)).
Proof. intros Ht. split; intros Hpc; unfold step; rewrite Ht, Hpc; reflexivity. Qed.

(** C9: an empty answer is silent.
    First, the update that follows a fetch answered with no sample at all
    leaves everything the goroutines share as it is, the two totals and the
    error list included: only the goroutine moves on, as it does over an
    absent key.
    Second, take two lists of VMs that differ only in that metric keys whose
    fetch succeeds with an empty sample sequence are missing from the second
    list. The responses a request can get over the first list are exactly
    those it can get over the second: the same status, VM count, totals and
    error list, under any context.
    Third, in complete runs over the two lists in which the deadline does
    not fire, both CPU totals are sums, in some order, of the latest "vcpus"
    samples of the VMs of the second list, the one without those keys; both
    RAM totals likewise for "memory"; and both error lists are the one of the
    domain loop followed, in some order, by the records of the failed fetches
    of the second list.
    A fetch that fails is different: its error record is in the error list
    and the status is 206; and the records the fan-out adds are exactly as
    many as there are failed fetches. *)
Theorem empty_answer_is_silent w :
  (∀ targets s i t,
     targets !! i = Some t →
     (pcs s !! i = Some (CPUFetched (Ok [])) →
      step w targets (Run i) s = Some (set_pc i MemPhase s))
     ∧ (pcs s !! i = Some (MemFetched (Ok [])) →
        step w targets (Run i) s = Some (set_pc i (Exiting ViaBody) s)))
  ∧ (∀ targets targets' errs0 ctx0 r,
       Forall2 (same_but_empty w) targets targets' →
       (∃ schedule, aggregate w targets errs0 ctx0 schedule = Some r)
       ↔ (∃ schedule', aggregate w targets' errs0 ctx0 schedule' = Some r))
  ∧ (∀ targets targets' errs0 schedule schedule' r r',
       Forall2 (same_but_empty w) targets targets' →
       forallb is_run schedule = true →
       forallb is_run schedule' = true →
       aggregate w targets errs0 None schedule = Some r →
       aggregate w targets' errs0 None schedule' = Some r' →
       ∃ status body body',
         r = JSON status body ∧ r' = JSON status body'
         ∧ TotalVMs body = TotalVMs body'
         ∧ (∃ V V', CPUCoresUsed body = fsum V ∧ CPUCoresUsed body' = fsum V'
                    ∧ V ≡ₚ omap (cpu_sample w) targets'
                    ∧ V' ≡ₚ omap (cpu_sample w) targets')
         ∧ (∃ V V', RAMUsedGB body = fsum V ∧ RAMUsedGB body' = fsum V'
                    ∧ V ≡ₚ omap (ram_sample w) targets'
                    ∧ V' ≡ₚ omap (ram_sample w) targets')
         ∧ (∃ E E', Errors body = errs0 ++ E ∧ Errors body' = errs0 ++ E'
                    ∧ E ≡ₚ concat ((λ t, cpu_errors w t ++ mem_errors w t) <$> targets')
                    ∧ E' ≡ₚ concat ((λ t, cpu_errors w t ++ mem_errors w t) <$> targets')))
  ∧ (∀ targets errs0 schedule r i t key e,
       targets !! i = Some t →
       lookupFetch w t key = Some (Err e) →
       key = "vcpus" ∨ key = "memory" →
       forallb is_run schedule = true →
       aggregate w targets errs0 None schedule = Some r →
       ∃ body,
         r = JSON StatusPartialContent body
         ∧ (if decide (key = "vcpus") then vcpusError t e else memoryError t e)
           ∈ Errors body)
  ∧ (∀ targets errs0 schedule r,
       forallb is_run schedule = true →
       aggregate w targets errs0 None schedule = Some r →
       ∃ status body E,
         r = JSON status body
         ∧ Errors body = errs0 ++ E
         ∧ length E = length (List.filter (cpu_fails w) targets)
                      + length (List.filter (mem_fails w) targets)).
Proof.
  split; [exact (empty_answer_step w)|].
  split; [intros targets targets' errs0 ctx0 r; apply same_responses|].
  split; [|split].
  - intros targets targets' errs0 schedule schedule' r r' Hsame Hruns Hruns' Hagg Hagg'.
    apply aggregate_Some in Hagg as [Hfin ->]. apply aggregate_Some in Hagg' as [Hfin' ->].
    destruct (uncancelled_final w targets errs0 schedule Hruns Hfin)
      as ((Vc & EVc & PVc) & (Vr & EVr & PVr) & (E & EE & PE) & _).
    destruct (uncancelled_final w targets' errs0 schedule' Hruns' Hfin')
      as ((Vc' & EVc' & PVc') & (Vr' & EVr' & PVr') & (E' & EE' & PE') & _).
    destruct (same_but_empty_lists w targets targets' Hsame) as (Hc & Hr & He).
    rewrite Hc in PVc. rewrite Hr in PVr. rewrite He in PE.
    assert (HEE : E ≡ₚ E') by (rewrite PE, PE'; reflexivity).
    unfold respond. rewrite EE, EE', !length_app, (Permutation_length HEE).
    rewrite (Forall2_length _ _ _ Hsame).
    eexists _, _, _. split; [reflexivity|]. split; [reflexivity|]. cbn.
    split; [reflexivity|]. split; [eauto 10|]. split; [eauto 10|]. eauto 10.
  - intros targets errs0 schedule r i t key e Ht Hfetch Hkey Hruns Hagg.
    apply aggregate_Some in Hagg as [Hfin ->].
    destruct (uncancelled_final w targets errs0 schedule Hruns Hfin)
      as (_ & _ & (E & EE & PE) & _).
    assert (Hin : (if decide (key = "vcpus") then vcpusError t e else memoryError t e)
                  ∈ E).
    { rewrite PE.
      apply (elem_of_concat_fmap (λ t, cpu_errors w t ++ mem_errors w t) targets t).
      - eapply list_elem_of_lookup_2; eassumption.
      - apply elem_of_app. unfold cpu_errors, mem_errors.
        destruct Hkey as [-> | ->]; rewrite Hfetch;
          destruct (decide _) as [Hk|Hk]; try discriminate Hk; try congruence;
          [left | right]; apply elem_of_cons; left; reflexivity. }
    unfold respond. rewrite EE.
    rewrite decide_True.
    + eexists. split; [reflexivity|]. cbn. apply elem_of_app. right. assumption.
    + rewrite length_app. destruct E; [inversion Hin | cbn; lia].
  - intros targets errs0 schedule r Hruns Hagg.
    apply aggregate_Some in Hagg as [Hfin ->].
    destruct (uncancelled_final w targets errs0 schedule Hruns Hfin)
      as (_ & _ & (E & EE & PE) & _).
    unfold respond. eexists _, _, E. split; [reflexivity|]. cbn.
    split; [assumption|]. rewrite PE. apply errors_count.
Qed.

Lemma empty_answer_is_silent_witness :
  Forall2 (same_but_empty ten_world) quiet_targets bare_targets
  ∧ (∃ r schedule',
       aggregate ten_world quiet_targets [] None (one_by_one 1) = Some r
       ∧ aggregate ten_world bare_targets [] None schedule' = Some r)
  ∧ ∃ status body body',
      aggregate ten_world quiet_targets [] None (one_by_one 1) = Some (JSON status body)
      ∧ aggregate ten_world bare_targets [] None (one_by_one 1) = Some (JSON status body')
      ∧ (∃ V V', RAMUsedGB body = fsum V ∧ RAMUsedGB body' = fsum V'
                 ∧ V ≡ₚ omap (ram_sample ten_world) bare_targets
                 ∧ V' ≡ₚ omap (ram_sample ten_world) bare_targets)
      ∧ ∃ E E', Errors body = [] ++ E ∧ Errors body' = [] ++ E' ∧ E ≡ₚ E'.
Proof.
  assert (Hsame : Forall2 (same_but_empty ten_world) quiet_targets bare_targets).
  { constructor; [|constructor]. unfold same_but_empty.
    split; [reflexivity|]. split; [reflexivity|]. split; [reflexivity|].
    intros key [-> | ->].
    - left. reflexivity.
    - right. split; vm_compute; reflexivity. }
  split; [exact Hsame|].
  assert (Hr : ∃ r, aggregate ten_world quiet_targets [] None (one_by_one 1) = Some r)
    by (eexists; vm_compute; reflexivity).
  assert (Hr' : ∃ r, aggregate ten_world bare_targets [] None (one_by_one 1) = Some r)
    by (eexists; vm_compute; reflexivity).
  destruct Hr as [r Hr], Hr' as [r' Hr'].
  destruct (empty_answer_is_silent ten_world) as (_ & Hsame_responses & Htotals & _).
  split.
  - destruct (proj1 (Hsame_responses quiet_targets bare_targets [] None r Hsame)
                (ex_intro _ (one_by_one 1) Hr)) as [schedule' Hs'].
    exists r, schedule'. auto.
  - destruct (Htotals quiet_targets bare_targets [] (one_by_one 1) (one_by_one 1) r r'
                Hsame eq_refl eq_refl Hr Hr')
      as (status & body & body' & -> & -> & _ & _ & Hram & E & E' & HE & HE' & PE & PE').
    exists status, body, body'. split; [assumption|]. split; [assumption|].
    split; [assumption|]. exists E, E'. split; [assumption|]. split; [assumption|].
    rewrite PE, PE'. reflexivity.
Defined.

(** *** The handler: scope resolution and status *)

Lemma resolve_none w adminToken domainNames : ∀ k projectToDomain errs,
  Forall (unresolved w adminToken) domainNames →
  ∃ E ctx,
    resolveDomains w adminToken k domainNames projectToDomain errs
    = (projectToDomain, errs ++ E, ctx)
    ∧ (domainNames ≠ [] → E ≠ [])
    ∧ Forall domain_record E.
Proof.
  induction domainNames as [|d ds IH]; intros k m errs Hall.
  { exists [], None. cbn. rewrite app_nil_r. repeat split; [congruence | constructor]. }
  apply Forall_cons in Hall as [Hd Hds]. cbn [resolveDomains].
  destruct (ctxErrResolving w k) as [e|].
  { exists [domainCancelError d e], (Some e).
    repeat split; [discriminate | repeat constructor]. }
  unfold unresolved in Hd.
  destruct (ListProjectsForDomainName w adminToken d) as [[|p ps]|e]; [| contradiction |].
  - destruct (IH (S k) m (errs ++ [domainEmptyError d]) Hds) as (E & ctx & -> & _ & HE).
    exists (domainEmptyError d :: E), ctx. rewrite <- app_assoc.
    repeat split; [discriminate | constructor; [split; reflexivity | assumption]].
  - destruct (IH (S k) m (errs ++ [domainListError d e]) Hds) as (E & ctx & -> & _ & HE).
    exists (domainListError d e :: E), ctx. rewrite <- app_assoc.
    repeat split; [discriminate | constructor; [split; reflexivity | assumption]].
Qed.

Lemma filterTargets_empty instances : filterTargets ∅ instances = [].
Proof.
  unfold filterTargets. generalize (@nil Target.t).
  induction instances as [|inst instances IH]; intros acc; cbn; [reflexivity|].
  rewrite lookup_empty. apply IH.
Qed.

(** With no target there is no goroutine: the fan-out is over at once and
    leaves what the domain loop left. *)
Lemma fanOut_no_targets w errs ctx schedule :
  let s := fanOut w [] errs ctx schedule in
  all_finished s = true
  ∧ totalCPUCoresUsed s = 0%float ∧ totalRAMUsedGB s = 0%float
  ∧ usageErrors s = errs ∧ requests s = [].
Proof.
  intros s. pose proof (run_inv w [] errs ctx schedule) as HI.
  fold (fanOut w [] errs ctx schedule) in HI. fold s in HI.
  destruct HI as [Hlen _ _ _ _ (Vc & EVc & PVc) (Vr & EVr & PVr) (E & EE & PE) Hreqs].
  cbn in PVc, PVr, PE, Hreqs.
  apply Permutation_nil_r in PVc, PVr, PE, Hreqs. subst.
  rewrite app_nil_r in EE. unfold all_finished.
  destruct (pcs s); [|discriminate]. auto.
Qed.

(** C5, as amended: when no configured domain resolves to any project, no VM
    is dispatched and no metric is requested. The request fails outright
    only when the domain list cannot be read (500) or is empty (400), when
    the admin token cannot be obtained (401), or when the inventory call
    fails (500). When the list is there and every domain in it fails to
    resolve or has no project, the handler still fetches the inventory and
    answers 206 with [total_vms = 0], zero totals, and the non-empty list of
    the domain errors. *)
Theorem empty_scope w schedule :
  (∀ domainNames adminToken,
     LoadDomainNames w (DOMAINS_FILE w) = Ok domainNames →
     GetAdminToken w = Ok adminToken →
     Forall (unresolved w adminToken) domainNames) →
  metricRequests (getTotalUsage w schedule) = []
  ∧ ∃ r, response (getTotalUsage w schedule) = Some r
    ∧ ((∃ body e, r = HttpError StatusInternalServerError body
                  ∧ LoadDomainNames w (DOMAINS_FILE w) = Err e)
       ∨ (∃ body, r = HttpError StatusBadRequest body
                  ∧ LoadDomainNames w (DOMAINS_FILE w) = Ok [])
       ∨ (∃ body e, r = HttpError StatusUnauthorized body ∧ GetAdminToken w = Err e)
       ∨ (∃ body e, r = HttpError StatusInternalServerError body
                    ∧ GetAllInstances w = Err e)
       ∨ (∃ errors, r = JSON StatusPartialContent
                          {| Timestamp := now w; TotalVMs := 0;
                             CPUCoresUsed := 0; RAMUsedGB := 0;
                             Errors := errors |}
                    ∧ errors ≠ [] ∧ Forall domain_record errors)).
Proof.
  intros Hnone. unfold getTotalUsage.
  destruct (LoadDomainNames w (DOMAINS_FILE w)) as [[|d ds]|e] eqn:Hload;
    [cbn; eauto 10 | | cbn; eauto 10].
  destruct (GetAdminToken w) as [adminToken|e] eqn:Htok; [|cbn; eauto 10].
  destruct (resolve_none w adminToken (d :: ds) 0 ∅ [] (Hnone _ _ eq_refl eq_refl))
    as (E & ctx & -> & HE & Hrec).
  destruct (GetAllInstances w) as [instances|e] eqn:Hinv; [|cbn; eauto 12].
  rewrite filterTargets_empty. cbn [metricRequests response app].
  destruct (fanOut_no_targets w E ctx schedule) as (Hfin & Hcpu & Hram & Herr & Hreq).
  split; [assumption|].
  unfold aggregate. cbv zeta. rewrite Hfin. eexists. split; [reflexivity|].
  do 4 right. exists E. unfold respond. rewrite Hcpu, Hram, Herr.
  specialize (HE (ltac:(discriminate))).
  rewrite decide_True by (destruct E; [congruence | cbn; lia]).
  auto.
Qed.

Lemma empty_scope_witness :
  Forall (unresolved projectless_world "token") ["d1"]
  ∧ metricRequests (getTotalUsage projectless_world (one_by_one 2)) = [].
Proof.
  assert (H : Forall (unresolved projectless_world "token") ["d1"])
    by (repeat constructor).
  split; [exact H|].
  apply (empty_scope projectless_world (one_by_one 2)).
  intros domainNames adminToken Hd Ht.
  injection Hd as <-. injection Ht as <-. exact H.
Defined.

(** C5, as stated, fails: the domain list has one domain and its lookup
    fails, so that no domain resolves; the request does not fail, it is
    answered 206 with an aggregate over zero VMs. *)
Lemma unresolved_scope_is_answered :
  ListProjectsForDomainName unresolved_world "token" "d1"
  = Err "domains request returned status 503"
  ∧ getTotalUsage unresolved_world []
    = {| metricRequests := [];
         response :=
           Some (JSON StatusPartialContent
                   {| Timestamp := "2026-01-01T00:05:00Z"; TotalVMs := 0;
                      CPUCoresUsed := 0; RAMUsedGB := 0;
                      Errors := [domainListError "d1"
                                   "domains request returned status 503"] |}) |}.
Proof. vm_compute. split; reflexivity. Qed.

(** The handler always answers: whatever has run so far, the run can be
    continued to one after which a response is written. *)
Lemma getTotalUsage_returns w schedule :
  ∃ more r, response (getTotalUsage w (schedule ++ more)) = Some r.
Proof.
  unfold getTotalUsage.
  destruct (LoadDomainNames w (DOMAINS_FILE w)) as [[|d ds]|e];
    [exists []; cbn; eauto | | exists []; cbn; eauto].
  destruct (GetAdminToken w) as [adminToken|e]; [|exists []; cbn; eauto].
  destruct (resolveDomains w adminToken 0 (d :: ds) ∅ []) as [[projectToDomain errs] ctx].
  destruct (GetAllInstances w) as [instances|e]; [|exists []; cbn; eauto].
  cbn [response].
  destruct (aggregate_returns w (filterTargets projectToDomain instances) errs ctx
              schedule) as (more & r & _ & Hr).
  eauto.
Qed.

(** C6, as amended: the status of [GET /usage/total] is 500 when the domain
    list cannot be read or the inventory call fails, 400 when the domain list
    is empty, 401 when the admin token cannot be obtained, and in these cases
    no metric is requested; otherwise it is 200 when the error list of the
    response is empty and 206 when it is not. *)
Theorem status_mapping w schedule r :
  response (getTotalUsage w schedule) = Some r →
  (∃ body, r = HttpError StatusInternalServerError body
           ∧ metricRequests (getTotalUsage w schedule) = []
           ∧ ((∃ e, LoadDomainNames w (DOMAINS_FILE w) = Err e)
              ∨ (∃ e, GetAllInstances w = Err e)))
  ∨ (∃ body, r = HttpError StatusBadRequest body
             ∧ metricRequests (getTotalUsage w schedule) = []
             ∧ LoadDomainNames w (DOMAINS_FILE w) = Ok [])
  ∨ (∃ body, r = HttpError StatusUnauthorized body
             ∧ metricRequests (getTotalUsage w schedule) = []
             ∧ ∃ e, GetAdminToken w = Err e)
  ∨ (∃ body d ds adminToken instances,
       LoadDomainNames w (DOMAINS_FILE w) = Ok (d :: ds)
       ∧ GetAdminToken w = Ok adminToken
       ∧ GetAllInstances w = Ok instances
       ∧ ((r = JSON StatusOK body ∧ Errors body = [])
          ∨ (r = JSON StatusPartialContent body ∧ Errors body ≠ []))).
Proof.
  unfold getTotalUsage.
  destruct (LoadDomainNames w (DOMAINS_FILE w)) as [[|d ds]|e] eqn:Hload;
    [cbn; intros [= <-]; eauto 10 | | cbn; intros [= <-]; eauto 10].
  destruct (GetAdminToken w) as [adminToken|e] eqn:Htok;
    [|cbn; intros [= <-]; eauto 10].
  destruct (resolveDomains w adminToken 0 (d :: ds) ∅ []) as [[projectToDomain errs] ctx].
  destruct (GetAllInstances w) as [instances|e] eqn:Hinv;
    [|cbn; intros [= <-]; eauto 10].
  cbn [response]. intros Hagg. apply aggregate_Some in Hagg as [_ ->].
  do 3 right. unfold respond. eexists _, d, ds, adminToken, instances.
  split; [reflexivity|]. split; [reflexivity|]. split; [reflexivity|].
  case_decide as Hlen; [right | left]; (split; [reflexivity|]); cbn.
  - intros Heq. rewrite Heq in Hlen. cbn in Hlen. lia.
  - destruct (usageErrors _); [reflexivity | cbn in Hlen; lia].
Qed.

Lemma status_mapping_witness :
  ∃ body,
    response (getTotalUsage ten_world (one_by_one 10))
    = Some (JSON StatusPartialContent body)
    ∧ Errors body ≠ [].
Proof.
  assert (Hr : ∃ body, response (getTotalUsage ten_world (one_by_one 10))
                       = Some (JSON StatusPartialContent body))
    by (eexists; vm_compute; reflexivity).
  destruct Hr as [body Hr]. exists body. split; [exact Hr|].
  destruct (status_mapping ten_world (one_by_one 10) _ Hr)
    as [(? & Hb & _) | [(? & Hb & _) | [(? & Hb & _) |
        (body' & _ & _ & _ & _ & _ & _ & _ & [[Hb _] | [Heq Herr]])]]];
    [discriminate Hb | discriminate Hb | discriminate Hb | discriminate Hb |].
  injection Heq as ->. exact Herr.
Defined.

(** C6, as stated, fails: with an empty domain list the status is 400, none
    of 200, 206, 500 and 401. *)
Lemma empty_domain_list_is_400 :
  getTotalUsage no_domains_world (one_by_one 1)
  = {| metricRequests := [];
       response := Some (HttpError 400 "no domains configured in domain.txt") |}.
Proof. reflexivity. Qed.

(** *** The helpers of billing.go *)

(** [<] on [float64] is a strict order, NaN included. *)
Lemma SFltb_trans (x y z : spec_float) :
  SFltb x y = true → SFltb y z = true → SFltb x z = true.
Proof.
  unfold SFltb, SFcompare.
  destruct x as [sx|sx| |sx mx ex], y as [sy|sy| |sy my ey], z as [sz|sz| |sz mz ez];
    try discriminate; try reflexivity;
    repeat match goal with s : bool |- _ => destruct s end;
    try discriminate; try reflexivity.
  all: change (Pos.compare_cont Eq ?a ?b) with (Pos.compare a b).
  all: destruct (Z.compare_spec ex ey), (Z.compare_spec ey ez); try discriminate;
    destruct (Z.compare_spec ex ez); try lia; try reflexivity; subst.
  all: destruct (Pos.compare_spec mx my), (Pos.compare_spec my mz); try discriminate;
    destruct (Pos.compare_spec mx mz); try lia; try reflexivity.
Qed.

Lemma SFltb_irrefl (x : spec_float) : SFltb x x = false.
Proof.
  unfold SFltb, SFcompare.
  destruct x as [s|s| |s m e]; try destruct s; try reflexivity.
  all: change (Pos.compare_cont Eq ?a ?b) with (Pos.compare a b).
  all: rewrite Z.compare_refl, Pos.compare_refl; reflexivity.
Qed.

Lemma ltb_trans (x y z : float64) :
  PrimFloat.ltb x y = true → PrimFloat.ltb y z = true → PrimFloat.ltb x z = true.
Proof. rewrite !FloatAxioms.ltb_spec. apply SFltb_trans. Qed.

Lemma ltb_irrefl (x : float64) : PrimFloat.ltb x x = false.
Proof. rewrite FloatAxioms.ltb_spec. apply SFltb_irrefl. Qed.

Lemma ltb_asym (x y : float64) :
  PrimFloat.ltb x y = true → PrimFloat.ltb y x = false.
Proof.
  intros H. destruct (PrimFloat.ltb y x) eqn:E; [|reflexivity].
  pose proof (ltb_trans _ _ _ H E) as Hxx. rewrite ltb_irrefl in Hxx. discriminate.
Qed.

(** The running maximum of [max]: it never goes down, and nothing it has
    passed is above it. *)
Lemma running_max (l : list float64) : ∀ m,
  let r := foldl (fun maxVal v => if PrimFloat.ltb maxVal v then v else maxVal) m l in
  (r = m ∨ (r ∈ l ∧ PrimFloat.ltb m r = true))
  ∧ ∀ v, v ∈ l → PrimFloat.ltb r v = false.
Proof.
  induction l as [|v l IH]; intros m; cbv zeta.
  { cbn. split; [auto|]. intros v Hv. inversion Hv. }
  cbn [foldl].
  specialize (IH (if PrimFloat.ltb m v then v else m)). cbv zeta in IH.
  set (r := foldl _ _ l) in *. destruct IH as [Hr Hle].
  destruct (PrimFloat.ltb m v) eqn:Hmv.
  - split.
    + right. destruct Hr as [->|[Hin Hlt]].
      * split; [left|assumption].
      * split; [right; assumption|]. eapply ltb_trans; eassumption.
    + intros u Hu. apply elem_of_cons in Hu as [->|Hu]; [|auto].
      destruct Hr as [->|[_ Hlt]]; [apply ltb_irrefl | apply ltb_asym; assumption].
  - split.
    + destruct Hr as [->|[Hin Hlt]]; [auto|]. right. split; [right|]; assumption.
    + intros u Hu. apply elem_of_cons in Hu as [->|Hu]; [|auto].
      destruct Hr as [->|[_ Hlt]]; [assumption|].
      destruct (PrimFloat.ltb r v) eqn:E; [|reflexivity].
      rewrite (ltb_trans _ _ _ Hlt E) in Hmv. discriminate.
Qed.

Lemma running_min (l : list float64) : ∀ m,
  let r := foldl (fun minVal v => if PrimFloat.ltb v minVal then v else minVal) m l in
  (r = m ∨ (r ∈ l ∧ PrimFloat.ltb r m = true))
  ∧ ∀ v, v ∈ l → PrimFloat.ltb v r = false.
Proof.
  induction l as [|v l IH]; intros m; cbv zeta.
  { cbn. split; [auto|]. intros v Hv. inversion Hv. }
  cbn [foldl].
  specialize (IH (if PrimFloat.ltb v m then v else m)). cbv zeta in IH.
  set (r := foldl _ _ l) in *. destruct IH as [Hr Hle].
  destruct (PrimFloat.ltb v m) eqn:Hmv.
  - split.
    + right. destruct Hr as [->|[Hin Hlt]].
      * split; [left|assumption].
      * split; [right; assumption|]. eapply ltb_trans; eassumption.
    + intros u Hu. apply elem_of_cons in Hu as [->|Hu]; [|auto].
      destruct Hr as [->|[_ Hlt]]; [apply ltb_irrefl | apply ltb_asym; assumption].
  - split.
    + destruct Hr as [->|[Hin Hlt]]; [auto|]. right. split; [right|]; assumption.
    + intros u Hu. apply elem_of_cons in Hu as [->|Hu]; [|auto].
      destruct Hr as [->|[_ Hlt]]; [assumption|].
      destruct (PrimFloat.ltb v r) eqn:E; [|reflexivity].
      rewrite (ltb_trans _ _ _ E Hlt) in Hmv. discriminate.
Qed.

(** X1: [max] of a non-empty slice returns one of its elements, and no
    element of the slice is greater than it (NaN included: nothing compares
    greater than a NaN, so a NaN in front is returned as it is). *)
Theorem max_is_greatest (values : list float64) :
  values ≠ [] →
  max values ∈ values ∧ ∀ v, v ∈ values → PrimFloat.ltb (max values) v = false.
Proof.
  destruct values as [|v0 rest]; [congruence|]. intros _.
  unfold max. pose proof (running_max (v0 :: rest) v0) as H. cbv zeta in H.
  destruct H as [[->|[Hin _]] Hle]; (split; [|exact Hle]); [left|assumption].
Qed.

Lemma max_is_greatest_witness :
  max [1; 3; 2]%float = 3%float ∧ PrimFloat.ltb (max [1; 3; 2]%float) 2 = false.
Proof.
  destruct (max_is_greatest [1; 3; 2]%float ltac:(discriminate)) as [_ H].
  split; [vm_compute; reflexivity|]. apply H. set_solver.
Defined.

(** X2: [min] of a non-empty slice returns one of its elements, and no
    element of the slice is less than it. *)
Theorem min_is_least (values : list float64) :
  values ≠ [] →
  min values ∈ values ∧ ∀ v, v ∈ values → PrimFloat.ltb v (min values) = false.
Proof.
  destruct values as [|v0 rest]; [congruence|]. intros _.
  unfold min. pose proof (running_min (v0 :: rest) v0) as H. cbv zeta in H.
  destruct H as [[->|[Hin _]] Hle]; (split; [|exact Hle]); [left|assumption].
Qed.

Lemma min_is_least_witness :
  min [2; 1; 3]%float = 1%float ∧ PrimFloat.ltb 3 (min [2; 1; 3]%float) = false.
Proof.
  destruct (min_is_least [2; 1; 3]%float ltac:(discriminate)) as [_ H].
  split; [vm_compute; reflexivity|]. apply H. set_solver.
Defined.

Lemma swap_head_perm {A} (l : list A) : ∀ j a b,
  l !! j = Some b → b :: <[j:=a]> l ≡ₚ a :: l.
Proof.
  induction l as [|x l IH]; intros [|j] a b H; try discriminate.
  - cbn in H. injection H as ->. cbn. apply perm_swap.
  - cbn in H. cbn [insert list_insert]. change (list_insert j a l) with (<[j:=a]> l).
    rewrite (perm_swap x a l), (perm_swap x b). f_equiv. apply IH. assumption.
Qed.

Lemma swap_perm {A} (l : list A) : ∀ i j a b,
  l !! i = Some a → l !! j = Some b → <[j:=a]> (<[i:=b]> l) ≡ₚ l.
Proof.
  induction l as [|x l IH]; intros [|i] [|j] a b Hi Hj; try discriminate; cbn in Hi, Hj.
  - injection Hi as ->. injection Hj as ->. reflexivity.
  - injection Hi as ->. cbn. change (list_insert j a l) with (<[j:=a]> l).
    apply swap_head_perm. assumption.
  - injection Hj as ->. cbn. change (list_insert i b l) with (<[i:=b]> l).
    apply swap_head_perm. assumption.
  - cbn. f_equiv. apply IH; assumption.
Qed.

Section ExchangeSort.
Implicit Types s : list float64.

Lemma swap_if_greater_length i j s : length (swap_if_greater i j s) = length s.
Proof.
  unfold swap_if_greater. destruct (s !! i), (s !! j); try reflexivity.
  destruct (PrimFloat.ltb _ _); [|reflexivity]. rewrite !length_insert. reflexivity.
Qed.

Lemma swap_if_greater_perm i j s : swap_if_greater i j s ≡ₚ s.
Proof.
  unfold swap_if_greater. destruct (s !! i) eqn:Hi, (s !! j) eqn:Hj; try reflexivity.
  destruct (PrimFloat.ltb _ _); [|reflexivity]. apply swap_perm; assumption.
Qed.

Lemma swap_if_greater_other i j s q :
  q ≠ i → q ≠ j → swap_if_greater i j s !! q = s !! q.
Proof.
  intros Hi Hj. unfold swap_if_greater. destruct (s !! i), (s !! j); try reflexivity.
  destruct (PrimFloat.ltb _ _); [|reflexivity].
  rewrite !list_lookup_insert_ne by congruence. reflexivity.
Qed.

(** The inner loop for [i], after its first [c] rounds. *)
Lemma inner_upto_spec i c : ∀ s,
  i + c < length s →
  let r := inner_upto i c s in
  length r = length s
  ∧ r ≡ₚ s
  ∧ (∀ q, q < i ∨ i + c < q → r !! q = s !! q)
  ∧ drop i r ≡ₚ drop i s
  ∧ (∀ q x y, i < q ≤ i + c → r !! i = Some x → r !! q = Some y →
       PrimFloat.ltb y x = false).
Proof.
  induction c as [|c IH]; intros s Hlen; cbv zeta.
  { unfold inner_upto. cbn. repeat split; try reflexivity. intros; lia. }
  unfold inner_upto. rewrite seq_S, foldl_app. cbn [foldl].
  fold (inner_upto i c s). destruct (IH s ltac:(lia)) as (Hl & Hp & Hout & Hd & Hord).
  set (r := inner_upto i c s) in *.
  assert (is_Some (r !! i)) as [a Ha] by (apply lookup_lt_is_Some; lia).
  assert (is_Some (r !! (S i + c))) as [b Hb] by (apply lookup_lt_is_Some; lia).
  split; [rewrite swap_if_greater_length; assumption|].
  split; [rewrite swap_if_greater_perm; assumption|].
  split.
  { intros q Hq. rewrite swap_if_greater_other by lia. apply Hout. lia. }
  unfold swap_if_greater. rewrite Ha, Hb.
  destruct (PrimFloat.ltb b a) eqn:Hba.
  - split.
    + rewrite <- Hd. rewrite !drop_insert_ge by lia.
      apply swap_perm; rewrite lookup_drop.
      * replace (i + (i - i)) with i by lia. assumption.
      * replace (i + (S i + c - i)) with (S i + c) by lia. assumption.
    + intros q x y Hq Hx Hy.
      rewrite list_lookup_insert_ne in Hx by lia.
      rewrite list_lookup_insert_eq in Hx by lia. injection Hx as <-.
      destruct (decide (q = S i + c)) as [->|Hne].
      * rewrite list_lookup_insert_eq in Hy by (rewrite length_insert; lia).
        injection Hy as <-. apply ltb_asym. assumption.
      * rewrite !list_lookup_insert_ne in Hy by lia.
        destruct (PrimFloat.ltb y b) eqn:E; [|reflexivity].
        pose proof (Hord q a y ltac:(lia) Ha Hy) as Hya.
        rewrite (ltb_trans _ _ _ E Hba) in Hya. discriminate.
  - split; [assumption|].
    intros q x y Hq Hx Hy. rewrite Ha in Hx. injection Hx as <-.
    destruct (decide (q = S i + c)) as [->|Hne].
    + rewrite Hb in Hy. injection Hy as <-. assumption.
    + apply (Hord q a y ltac:(lia) Ha Hy).
Qed.

(** The outer loop after its first [k] rounds: the first [k] places hold
    their final values. *)
Lemma outer_upto_spec s k :
  k ≤ length s →
  let r := outer_upto (length s) k s in
  length r = length s
  ∧ r ≡ₚ s
  ∧ ∀ p x y, p < k → r !! p = Some x → y ∈ drop (S p) r → PrimFloat.ltb y x = false.
Proof.
  induction k as [|k IH]; intros Hk; cbv zeta.
  { cbn. repeat split; try reflexivity. intros; lia. }
  unfold outer_upto. rewrite seq_S, foldl_app. cbn [foldl].
  fold (outer_upto (length s) k s). destruct (IH ltac:(lia)) as (Hl & Hp & Hord).
  set (r := outer_upto (length s) k s) in *. cbn [Nat.add].
  fold (inner_upto k (length s - S k) r).
  destruct (inner_upto_spec k (length s - S k) r ltac:(lia))
    as (Hl' & Hp' & Hout & Hd & Hin).
  set (r' := inner_upto k (length s - S k) r) in *.
  split; [lia|]. split; [rewrite Hp'; assumption|].
  intros p x y Hpk Hx Hy.
  destruct (decide (p = k)) as [->|Hne].
  - apply list_elem_of_lookup in Hy as [q Hq]. rewrite lookup_drop in Hq.
    apply (Hin (S k + q) x y); [|assumption|assumption].
    apply lookup_lt_Some in Hq. lia.
  - rewrite Hout in Hx by lia.
    apply (Hord p x y ltac:(lia) Hx).
    assert (Hperm : drop (S p) r' ≡ₚ drop (S p) r).
    { rewrite <- (take_drop k r'), <- (take_drop k r).
      rewrite !drop_app_le by (rewrite length_take; lia).
      f_equiv; [|assumption].
      replace (take k r') with (take k r); [reflexivity|].
      apply list_eq. intros q. rewrite !lookup_take.
      destruct (decide (q < k)); [|reflexivity]. symmetry. apply Hout. lia. }
    rewrite <- Hperm. assumption.
Qed.
End ExchangeSort.

(** X3: the two nested loops that [median] and [percentile] sort with
    leave a permutation of the input in which no element is greater than an
    element at a later index, for every [float64] input, NaN included. *)
Theorem exchange_sort_sorts (values : list float64) :
  let sorted := exchange_sort values in
  sorted ≡ₚ values
  ∧ ∀ i j x y, i < j → sorted !! i = Some x → sorted !! j = Some y →
      PrimFloat.ltb y x = false.
Proof.
  cbv zeta. change (exchange_sort values) with (outer_upto (length values) (length values) values).
  destruct (outer_upto_spec values (length values) (le_n _)) as (Hl & Hp & Hord).
  split; [assumption|]. intros i j x y Hij Hx Hy.
  apply (Hord i x y); [|assumption|].
  - apply lookup_lt_Some in Hx. lia.
  - apply list_elem_of_lookup. exists (j - S i). rewrite lookup_drop.
    replace (S i + (j - S i)) with j by lia. assumption.
Qed.

(** *** More on the billing loop *)

Section RollupFacts.
Variable parseRFC3339 : string → Z.
Variable formatDate : Z → string.

Lemma loop_counters numVCPUs rest : ∀ prev st,
  let st' := loop parseRFC3339 formatDate numVCPUs prev rest st in
  let ivs := zip (prev :: rest) rest in
  skippedNegative st' = skippedNegative st + length (List.filter negative_delta ivs)
  ∧ skippedAbnormal st'
    = skippedAbnormal st + length (List.filter (abnormal parseRFC3339 numVCPUs) ivs)
  ∧ totalProcessed st'
    = totalProcessed st + length (List.filter (kept parseRFC3339 numVCPUs) ivs).
Proof.
  induction rest as [|curr rest IH]; intros prev st; cbv zeta.
  { cbn. lia. }
  change (loop parseRFC3339 formatDate numVCPUs prev (curr :: rest) st)
    with (loop parseRFC3339 formatDate numVCPUs curr rest
            (loop_body parseRFC3339 formatDate numVCPUs prev curr st)).
  change (zip (prev :: curr :: rest) (curr :: rest))
    with ((prev, curr) :: zip (curr :: rest) rest).
  specialize (IH curr (loop_body parseRFC3339 formatDate numVCPUs prev curr st)).
  cbv zeta in IH. destruct IH as (Hn & Ha & Ht). rewrite Hn, Ha, Ht.
  cbn [List.filter]. unfold abnormal, kept, negative_delta, loop_body. cbn [fst snd].
  destruct (PrimFloat.ltb (deltaCPU_of prev curr) 0); cbn [negb andb orb length
    skippedNegative skippedAbnormal totalProcessed]; [lia|].
  destruct (PrimFloat.leb (deltaTime_of parseRFC3339 prev curr) 0); cbn [negb andb orb length
    skippedNegative skippedAbnormal totalProcessed]; [lia|].
  destruct (PrimFloat.ltb (cpuPercent_of parseRFC3339 numVCPUs prev curr) 0
            || PrimFloat.ltb upperBound (cpuPercent_of parseRFC3339 numVCPUs prev curr));
    cbn [negb andb orb length skippedNegative skippedAbnormal totalProcessed]; lia.
Qed.

Lemma guards_partition numVCPUs (ivs : list (MetricMeasure.t * MetricMeasure.t)) :
  length (List.filter negative_delta ivs)
  + length (List.filter (abnormal parseRFC3339 numVCPUs) ivs)
  + length (List.filter (kept parseRFC3339 numVCPUs) ivs) = length ivs.
Proof.
  induction ivs as [|iv ivs IH]; [reflexivity|].
  cbn [List.filter]. unfold abnormal, kept, negative_delta in *.
  destruct (PrimFloat.ltb (deltaCPU_of iv.1 iv.2) 0); cbn [negb andb orb length]; [lia|].
  destruct (PrimFloat.leb (deltaTime_of parseRFC3339 iv.1 iv.2) 0);
    cbn [negb andb orb length]; [lia|].
  destruct (PrimFloat.ltb (cpuPercent_of parseRFC3339 numVCPUs iv.1 iv.2) 0
            || PrimFloat.ltb upperBound (cpuPercent_of parseRFC3339 numVCPUs iv.1 iv.2));
    cbn [negb andb orb length]; lia.
Qed.
End RollupFacts.

(** X4: the three counters of the data-quality summary of
    [CalculateCPUUsage]. Every interval is counted once: as a negative delta
    when the first guard fires, as abnormal when the first does not and the
    time guard or the range guard does, as processed otherwise; the
    processed ones are as many as the percentages and the hourly entries,
    and the three counters add up to [len(measures) - 1]. *)
Theorem interval_accounting
    (parseRFC3339 : string → Z) (formatDate : Z → string)
    (first : MetricMeasure.t) (rest : list MetricMeasure.t) (numVCPUs : Z) :
  let st := loop parseRFC3339 formatDate numVCPUs first rest loop_init in
  let ivs := intervals (first :: rest) in
  skippedNegative st = length (List.filter negative_delta ivs)
  ∧ skippedAbnormal st = length (List.filter (abnormal parseRFC3339 numVCPUs) ivs)
  ∧ totalProcessed st = length (List.filter (kept parseRFC3339 numVCPUs) ivs)
  ∧ totalProcessed st = length (percentages st)
  ∧ totalProcessed st = length (hourlyUsages st)
  ∧ skippedNegative st + skippedAbnormal st + totalProcessed st = length rest.
Proof.
  cbv zeta. unfold intervals. cbn [tail].
  pose proof (loop_counters parseRFC3339 formatDate numVCPUs rest first loop_init) as H.
  cbv zeta in H. cbn [loop_init skippedNegative skippedAbnormal totalProcessed Nat.add] in H.
  destruct H as (Hn & Ha & Ht).
  pose proof (loop_spec parseRFC3339 formatDate numVCPUs rest first loop_init) as H.
  cbv zeta in H. destruct H as (Hh & Hp & _ & _ & _).
  cbn [loop_init hourlyUsages percentages app] in Hh, Hp.
  pose proof (guards_partition parseRFC3339 numVCPUs (zip (first :: rest) rest)) as Hsum.
  rewrite Hn, Ha, Ht, Hh, Hp, !length_map.
  repeat split; try reflexivity.
  rewrite Hsum. rewrite length_zip_with. cbn [length]. lia.
Qed.

Section DailyFacts.
Variable parseRFC3339 : string → Z.
Variable formatDate : Z → string.

Lemma update_daily_lookup dateKey p c (m : gmap string DailyUsage.t) date :
  update_daily dateKey p c m !! date
  = if decide (dateKey = date) then Some (update_entry dateKey p c (m !! dateKey))
    else m !! date.
Proof.
  unfold update_daily, update_entry. destruct (m !! dateKey) as [d|] eqn:Hm.
  - rewrite Hm. cbn [default from_option id]. destruct (decide (dateKey = date)) as [<-|Hne].
    + rewrite lookup_insert_eq. reflexivity.
    + rewrite lookup_insert_ne by assumption. reflexivity.
  - rewrite lookup_insert_eq. cbn [default from_option id DailyUsage.Date DailyUsage.AverageCPU
      DailyUsage.MaxCPU DailyUsage.MinCPU DailyUsage.TotalCPUHours].
    destruct (decide (dateKey = date)) as [<-|Hne].
    + rewrite lookup_insert_eq. reflexivity.
    + rewrite !lookup_insert_ne by assumption. reflexivity.
Qed.

(** The entry of [date] after the loop: the entry before it, updated once
    per kept interval ending on that date, in order. *)
Lemma loop_daily numVCPUs date rest : ∀ prev st,
  let st' := loop parseRFC3339 formatDate numVCPUs prev rest st in
  let day := intervals_on parseRFC3339 formatDate date
               (List.filter (kept parseRFC3339 numVCPUs) (zip (prev :: rest) rest)) in
  dailyUsageMap st' !! date
  = foldl (λ entry iv,
             Some (update_entry date (cpuPercent_of parseRFC3339 numVCPUs iv.1 iv.2)
                     (deltaCPU_of iv.1 iv.2 / 1e9)%float entry))
          (dailyUsageMap st !! date) day.
Proof.
  induction rest as [|curr rest IH]; intros prev st; cbv zeta; [reflexivity|].
  change (loop parseRFC3339 formatDate numVCPUs prev (curr :: rest) st)
    with (loop parseRFC3339 formatDate numVCPUs curr rest
            (loop_body parseRFC3339 formatDate numVCPUs prev curr st)).
  change (zip (prev :: curr :: rest) (curr :: rest))
    with ((prev, curr) :: zip (curr :: rest) rest).
  specialize (IH curr (loop_body parseRFC3339 formatDate numVCPUs prev curr st)).
  cbv zeta in IH. rewrite IH. clear IH. cbn [List.filter].
  destruct (kept parseRFC3339 numVCPUs (prev, curr)) eqn:Hk.
  - rewrite (loop_body_kept _ _ _ _ _ _ Hk). cbn [dailyUsageMap].
    rewrite update_daily_lookup. unfold intervals_on. rewrite filter_cons.
    destruct (decide (date_of parseRFC3339 formatDate (prev, curr) = date)) as [<-|Hne];
      reflexivity.
  - destruct (loop_body_dropped parseRFC3339 formatDate numVCPUs prev curr st Hk)
      as (_ & _ & Ed & _). rewrite Ed. reflexivity.
Qed.

(** Updating an entry that is there, once per interval of a list. *)
Lemma roll_from numVCPUs date (day : list (MetricMeasure.t * MetricMeasure.t)) : ∀ d,
  let pcts := map (λ iv, cpuPercent_of parseRFC3339 numVCPUs iv.1 iv.2) day in
  foldl (λ entry iv,
           Some (update_entry date (cpuPercent_of parseRFC3339 numVCPUs iv.1 iv.2)
                   (deltaCPU_of iv.1 iv.2 / 1e9)%float entry))
        (Some d) day
  = Some (DailyUsage.mk (DailyUsage.Date d)
            (foldl PrimFloat.add (DailyUsage.AverageCPU d) pcts)
            (foldl (fun maxVal v => if PrimFloat.ltb maxVal v then v else maxVal)
                   (DailyUsage.MaxCPU d) pcts)
            (foldl (fun minVal v => if PrimFloat.ltb v minVal then v else minVal)
                   (DailyUsage.MinCPU d) pcts)
            (foldl (λ hours iv, hours + deltaCPU_of iv.1 iv.2 / 1e9 / 3600)%float
                   (DailyUsage.TotalCPUHours d) day)).
Proof.
  induction day as [|iv day IH]; intros d; cbv zeta.
  { destruct d; reflexivity. }
  cbn [foldl map]. unfold update_entry at 2. cbn [default from_option id].
  rewrite IH. reflexivity.
Qed.

Lemma filter_map_length {A B} (P : B → Prop) `{∀ b, Decision (P b)} (f : A → B) (l : list A) :
  length (filter P (map f l)) = length (filter (λ a, P (f a)) l).
Proof.
  induction l as [|a l IH]; [reflexivity|]. cbn [map]. rewrite !filter_cons.
  destruct (decide (P (f a))); cbn [length]; rewrite IH; reflexivity.
Qed.
End DailyFacts.

(** X5: the daily roll-up of [CalculateCPUUsage]. There is an entry for a
    date exactly when a kept interval ends on it, and the entry holds the
    date, and the average, the maximum and the minimum (as the helpers
    [average], [max] and [min] compute them) of the percentages of the kept
    intervals ending on that date, and as CPU hours their CPU seconds, each
    divided by 3600, added up in order. [numVCPUs <= 0] counts as 1. *)
Theorem daily_rollup
    (parseRFC3339 : string → Z) (formatDate : Z → string)
    (measures : list MetricMeasure.t) (numVCPUs : Z) (date : string) :
  let day := intervals_on parseRFC3339 formatDate date
               (valid_intervals parseRFC3339 measures numVCPUs) in
  let percents :=
    map (λ iv, cpuPercent_of parseRFC3339 (effective_vcpus numVCPUs) iv.1 iv.2) day in
  UsageByDay (CalculateCPUUsage parseRFC3339 formatDate measures numVCPUs) !! date
  = match day with
    | [] => None
    | _ => Some (DailyUsage.mk date (average percents) (max percents) (min percents)
                   (cpu_hours day))
    end.
Proof.
  cbv zeta. unfold valid_intervals, intervals.
  destruct measures as [|first [|second rest]]; [reflexivity|reflexivity|].
  cbn [tail]. unfold CalculateCPUUsage. fold (effective_vcpus numVCPUs).
  set (n := effective_vcpus numVCPUs). cbn [UsageByDay].
  rewrite lookup_fmap.
  pose proof (loop_spec parseRFC3339 formatDate n (second :: rest) first loop_init) as Hs.
  cbv zeta in Hs. destruct Hs as (Hh & _). cbn [loop_init hourlyUsages app] in Hh.
  rewrite Hh, (loop_daily parseRFC3339 formatDate n date (second :: rest) first loop_init).
  cbn [loop_init dailyUsageMap]. rewrite lookup_empty.
  set (valid := List.filter (kept parseRFC3339 n) (zip (first :: second :: rest) (second :: rest))).
  assert (Hcount : ∀ d, DailyUsage.Date d = date →
            length (filter (λ usage, formatDate (parseRFC3339 (HourlyUsage.Timestamp usage))
                                     = DailyUsage.Date d)
                      (map (hourly_of parseRFC3339 n) valid))
            = length (intervals_on parseRFC3339 formatDate date valid)).
  { intros d ->. rewrite filter_map_length. reflexivity. }
  destruct (intervals_on parseRFC3339 formatDate date valid) as [|iv day] eqn:Hday;
    [reflexivity|].
  cbn [foldl]. unfold update_entry at 2. cbn [default from_option id].
  rewrite roll_from. cbn [fmap option_fmap option_map DailyUsage.Date DailyUsage.AverageCPU
    DailyUsage.MaxCPU DailyUsage.MinCPU DailyUsage.TotalCPUHours].
  unfold finish_daily. rewrite Hcount by reflexivity.
  cbn [length DailyUsage.Date DailyUsage.AverageCPU
    DailyUsage.MaxCPU DailyUsage.MinCPU DailyUsage.TotalCPUHours].
  replace (0 <? S (length day))%nat with true by (symmetry; apply Nat.ltb_lt; lia).
  f_equal. unfold average, max, min, cpu_hours. cbn [map foldl length].
  rewrite length_map.
  destruct (PrimFloat.ltb (cpuPercent_of parseRFC3339 n iv.1 iv.2)
              (cpuPercent_of parseRFC3339 n iv.1 iv.2)); reflexivity.
Qed.

(** *** [CalculateMemoryUsage] *)

Section MemoryFacts.
Variable parseRFC3339 : string → Z.
Variable formatDate : Z → string.

Lemma mem_update_daily_lookup dateKey u p (m : gmap string DailyMemUsage.t) date :
  mem_update_daily dateKey u p m !! date
  = if decide (dateKey = date)
    then Some (let daily := default (DailyMemUsage.mk dateKey 0 0) (m !! dateKey) in
               DailyMemUsage.mk (DailyMemUsage.Date daily)
                 (DailyMemUsage.AverageUsedMB daily + u)%float
                 (DailyMemUsage.AveragePercent daily + p)%float)
    else m !! date.
Proof.
  unfold mem_update_daily. destruct (m !! dateKey) as [d|] eqn:Hm.
  - rewrite Hm. cbn [default from_option id]. destruct (decide (dateKey = date)) as [<-|Hne].
    + rewrite lookup_insert_eq. reflexivity.
    + rewrite lookup_insert_ne by assumption. reflexivity.
  - rewrite lookup_insert_eq. cbn [default from_option id].
    destruct (decide (dateKey = date)) as [<-|Hne].
    + rewrite lookup_insert_eq. reflexivity.
    + rewrite !lookup_insert_ne by assumption. reflexivity.
Qed.

Lemma dom_mem_update_daily dateKey u p (m : gmap string DailyMemUsage.t) :
  dom (mem_update_daily dateKey u p m) = {[dateKey]} ∪ dom m.
Proof.
  unfold mem_update_daily. destruct (m !! dateKey) as [d|] eqn:Hm.
  - rewrite Hm. rewrite dom_insert_L. reflexivity.
  - rewrite lookup_insert_eq. rewrite !dom_insert_L. set_solver.
Qed.

(** The loop returns exactly when no slice panics. *)
Lemma mem_loop_returns total measures : ∀ st,
  is_Some (mem_loop parseRFC3339 formatDate total measures st)
  ↔ Forall (λ m, 10 ≤ String.length (MetricMeasure.Timestamp m)) (tail measures).
Proof.
  induction measures as [|m rest IH]; intros st.
  { cbn. split; [constructor|eauto]. }
  cbn [mem_loop tail]. destruct rest as [|following rest].
  { split; [constructor|eauto]. }
  unfold first10. destruct (decide (10 ≤ String.length (MetricMeasure.Timestamp following))) as [Hl|Hl].
  - rewrite IH. cbn [tail]. split.
    + intros H. constructor; assumption.
    + intros H. inversion H; assumption.
  - split; [intros [? ?]; discriminate|]. intros H. inversion H; subst. contradiction.
Qed.

(** What the loop leaves: the values in order, the percentages, and per date
    the running sums. *)
Lemma mem_loop_spec total measures : ∀ st st',
  mem_loop parseRFC3339 formatDate total measures st = Some st' →
  usedMBs st' = usedMBs st ++ map MetricMeasure.Value measures
  ∧ memPercentages st'
    = memPercentages st
      ++ map (λ m, MetricMeasure.Value m / total * 100)%float measures
  ∧ dom (dailyMemMap st') = dom (dailyMemMap st) ∪ list_to_set (measure_date parseRFC3339 formatDate <$> measures)
  ∧ ∀ date,
      dailyMemMap st' !! date
      = foldl (λ entry m,
                 Some (let daily := default (DailyMemUsage.mk date 0 0) entry in
                       DailyMemUsage.mk (DailyMemUsage.Date daily)
                         (DailyMemUsage.AverageUsedMB daily + MetricMeasure.Value m)%float
                         (DailyMemUsage.AveragePercent daily
                          + MetricMeasure.Value m / total * 100)%float))
              (dailyMemMap st !! date)
              (measures_on parseRFC3339 formatDate date measures).
Proof.
  induction measures as [|m rest IH]; intros st st' H.
  { cbn in H. injection H as <-. rewrite !app_nil_r. repeat split; try reflexivity.
    cbn. set_solver. }
  cbn [mem_loop] in H.
  set (st1 := {| usedMBs := usedMBs st ++ [MetricMeasure.Value m];
                 memPercentages := _; dailyMemMap := _ |}) in H.
  assert (Hrest : mem_loop parseRFC3339 formatDate total rest st1 = Some st').
  { destruct rest as [|following rest]; [exact H|].
    destruct (first10 _); [exact H|discriminate]. }
  clear H. destruct (IH _ _ Hrest) as (Hu & Hp & Hd & Hday).
  subst st1. cbn [usedMBs memPercentages dailyMemMap] in Hu, Hp, Hd, Hday.
  rewrite Hu, Hp, Hd, <- !app_assoc. cbn [map app fmap list_fmap list_to_set].
  rewrite dom_mem_update_daily.
  repeat split; try reflexivity; [set_solver|].
  intros date. rewrite Hday, mem_update_daily_lookup.
  unfold measures_on. rewrite filter_cons.
  change (formatDate (parseRFC3339 (MetricMeasure.Timestamp m)))
    with (measure_date parseRFC3339 formatDate m).
  destruct (decide (measure_date parseRFC3339 formatDate m = date)) as [<-|Hne];
    reflexivity.
Qed.
End MemoryFacts.

Lemma size_list_to_set_le (l : list string) :
  size (list_to_set l : gset string) ≤ length l.
Proof.
  induction l as [|x l IH]; cbn [list_to_set length].
  - rewrite size_empty. lia.
  - rewrite size_union_alt, size_singleton.
    pose proof (subseteq_size (list_to_set l ∖ {[x]}) (list_to_set l : gset string)
                  ltac:(set_solver)). lia.
Qed.

Section MemoryFacts2.
Variable parseRFC3339 : string → Z.
Variable formatDate : Z → string.

(** After the loop the map has one entry per distinct date of the series. *)
Lemma mem_loop_days total measures st :
  mem_loop parseRFC3339 formatDate total measures mem_init = Some st →
  size (dailyMemMap st) = day_count parseRFC3339 formatDate measures.
Proof.
  intros H. destruct (mem_loop_spec _ _ _ _ _ _ H) as (_ & _ & Hd & _).
  rewrite <- size_dom, Hd. cbn [mem_init dailyMemMap]. rewrite dom_empty_L, (left_id_L ∅ (∪)).
  reflexivity.
Qed.

Lemma day_count_bounds (measures : list MetricMeasure.t) :
  measures ≠ [] →
  1 ≤ day_count parseRFC3339 formatDate measures ≤ length measures.
Proof.
  intros Hne. unfold day_count. split.
  - destruct measures as [|m rest]; [congruence|]. cbn [fmap list_fmap list_to_set].
    rewrite size_union_alt, size_singleton. lia.
  - etransitivity; [apply size_list_to_set_le|]. rewrite length_fmap. reflexivity.
Qed.

Lemma running_sums date total (day : list MetricMeasure.t) : ∀ d,
  foldl (λ entry m,
           Some (let daily := default (DailyMemUsage.mk date 0 0) entry in
                 DailyMemUsage.mk (DailyMemUsage.Date daily)
                   (DailyMemUsage.AverageUsedMB daily + MetricMeasure.Value m)%float
                   (DailyMemUsage.AveragePercent daily
                    + MetricMeasure.Value m / total * 100)%float))
        (Some d) day
  = Some (DailyMemUsage.mk (DailyMemUsage.Date d)
            (foldl PrimFloat.add (DailyMemUsage.AverageUsedMB d)
               (map MetricMeasure.Value day))
            (foldl PrimFloat.add (DailyMemUsage.AveragePercent d)
               (map (λ m, MetricMeasure.Value m / total * 100)%float day))).
Proof.
  induction day as [|m day IH]; intros d; [destruct d; reflexivity|].
  cbn [foldl map]. cbv zeta. cbn [default from_option id]. rewrite IH. reflexivity.
Qed.
End MemoryFacts2.

Section MemoryFacts3.
Variable parseRFC3339 : string → Z.
Variable formatDate : Z → string.

(** The map of a non-empty series has at least one and at most as many
    entries as the series has measures. *)
Lemma mem_days_bounds total usageMeasures st :
  usageMeasures ≠ [] →
  mem_loop parseRFC3339 formatDate total usageMeasures mem_init = Some st →
  1 ≤ size (dailyMemMap st) ≤ length usageMeasures
  ∧ 1 ≤ length usageMeasures / size (dailyMemMap st).
Proof.
  intros Hne Hst.
  assert (Hb : 1 ≤ size (dailyMemMap st) ≤ length usageMeasures).
  { rewrite (mem_loop_days _ _ _ _ _ Hst). apply day_count_bounds. assumption. }
  split; [exact Hb|]. apply Nat.div_le_lower_bound; lia.
Qed.

(** The result for a non-empty series, in closed form. *)
Lemma CalculateMemoryUsage_Some usageMeasures first others stats :
  usageMeasures ≠ [] →
  CalculateMemoryUsage parseRFC3339 formatDate usageMeasures (first :: others) = Some stats →
  let used := map MetricMeasure.Value usageMeasures in
  let percents :=
    map (λ m, MetricMeasure.Value m / MetricMeasure.Value first * 100)%float usageMeasures in
  let perDay :=
    float64_of_int
      (Z.of_nat (length usageMeasures / day_count parseRFC3339 formatDate usageMeasures)) in
  MemoryUsageStats.AverageUsedMB stats = average used
  ∧ MemoryUsageStats.AverageUsedGB stats = (average used / 1024)%float
  ∧ MemoryUsageStats.MaxUsedMB stats = max used
  ∧ MemoryUsageStats.MinUsedMB stats = min used
  ∧ MemoryUsageStats.AveragePercent stats = average percents
  ∧ MemoryUsageStats.TotalMemoryMB stats = MetricMeasure.Value first
  ∧ ∀ date,
      MemoryUsageStats.UsageByDay stats !! date
      = match measures_on parseRFC3339 formatDate date usageMeasures with
        | [] => None
        | day =>
            Some (DailyMemUsage.mk date
                    (fsum (map MetricMeasure.Value day) / perDay)%float
                    (fsum (map (λ m, MetricMeasure.Value m / MetricMeasure.Value first * 100)%float
                               day) / perDay)%float)
        end.
Proof.
  intros Hne H. cbv zeta. unfold CalculateMemoryUsage in H.
  destruct usageMeasures as [|m rest] eqn:Hu; [congruence|].
  rewrite <- Hu in *.
  assert (H' : match mem_loop parseRFC3339 formatDate (MetricMeasure.Value first)
                       usageMeasures mem_init with
               | Some st =>
                   if decide (size (dailyMemMap st) = 0) then None
                   else
                     let dataPointsPerDay := length usageMeasures / size (dailyMemMap st) in
                     let dataPointsPerDay :=
                       if decide (dataPointsPerDay = 0) then 1 else dataPointsPerDay in
                     Some (MemoryUsageStats.mk
                       (match usedMBs st with [] => 0%float | _ => average (usedMBs st) end)
                       (match usedMBs st with
                        | [] => 0
                        | _ => match usedMBs st with
                               | [] => 0%float | _ => average (usedMBs st) end / 1024
                        end)%float
                       (match usedMBs st with [] => 0%float | _ => max (usedMBs st) end)
                       (match usedMBs st with [] => 0%float | _ => min (usedMBs st) end)
                       (match memPercentages st with
                        | [] => 0%float | _ => average (memPercentages st) end)
                       (MetricMeasure.Value first)
                       ((λ daily,
                           DailyMemUsage.mk (DailyMemUsage.Date daily)
                             (DailyMemUsage.AverageUsedMB daily
                              / float64_of_int (Z.of_nat dataPointsPerDay))%float
                             (DailyMemUsage.AveragePercent daily
                              / float64_of_int (Z.of_nat dataPointsPerDay))%float)
                        <$> dailyMemMap st))
               | None => None
               end = Some stats).
  { rewrite Hu. rewrite Hu in H. exact H. }
  clear H. destruct (mem_loop _ _ _ usageMeasures mem_init) as [st|] eqn:Hst; [|discriminate].
  destruct (mem_days_bounds _ _ _ Hne Hst) as [Hsz Hq].
  rewrite decide_False in H' by lia. cbv zeta in H'.
  rewrite decide_False in H' by lia. injection H' as <-.
  destruct (mem_loop_spec _ _ _ _ _ _ Hst) as (Hused & Hpct & _ & Hday).
  cbn [mem_init usedMBs memPercentages app] in Hused, Hpct.
  cbn [MemoryUsageStats.AverageUsedMB MemoryUsageStats.AverageUsedGB
         MemoryUsageStats.MaxUsedMB MemoryUsageStats.MinUsedMB
         MemoryUsageStats.AveragePercent MemoryUsageStats.TotalMemoryMB
         MemoryUsageStats.UsageByDay].
  rewrite Hused, Hpct. rewrite Hu at 1 2 3 4 5 6. cbn [map].
  repeat (split; [rewrite ?Hu; reflexivity|]).
  intros date. rewrite lookup_fmap, Hday, (mem_loop_days _ _ _ _ _ Hst).
  cbn [mem_init dailyMemMap]. rewrite lookup_empty.
  destruct (measures_on parseRFC3339 formatDate date usageMeasures) as [|m0 day]; [reflexivity|].
  cbn [foldl]. cbv zeta. cbn [default from_option id].
  rewrite running_sums. reflexivity.
Qed.

Lemma one_day date (measures : list MetricMeasure.t) :
  measures ≠ [] →
  Forall (λ m, measure_date parseRFC3339 formatDate m = date) measures →
  day_count parseRFC3339 formatDate measures = 1
  ∧ measures_on parseRFC3339 formatDate date measures = measures
  ∧ ∀ other, other ≠ date → measures_on parseRFC3339 formatDate other measures = [].
Proof.
  intros Hne Hall. split; [|split].
  - unfold day_count.
    assert (list_to_set (measure_date parseRFC3339 formatDate <$> measures)
            = ({[date]} : gset string)) as ->; [|apply size_singleton].
    destruct measures as [|m rest]; [congruence|]. clear Hne.
    apply set_eq. intros d. rewrite elem_of_list_to_set, list_elem_of_fmap, elem_of_singleton.
    split.
    + intros (m' & -> & Hin). rewrite Forall_forall in Hall. exact (Hall m' Hin).
    + intros ->. exists m. split; [|left]. inversion Hall; subst. reflexivity.
  - unfold measures_on. induction Hall as [|m rest Hm Hrest IH]; [congruence|].
    rewrite filter_cons, decide_True by assumption.
    destruct rest as [|m' rest']; [reflexivity|]. rewrite IH by discriminate. reflexivity.
  - intros other Hother. unfold measures_on. clear Hne.
    induction Hall as [|m rest Hm Hrest IH]; [reflexivity|].
    rewrite filter_cons, decide_False by congruence. assumption.
Qed.
End MemoryFacts3.

(** X6: for a non-empty list of totals, [CalculateMemoryUsage]
    returns exactly when every usage measure after the first has a timestamp
    of at least 10 bytes (the condition of the empty [if] slices
    [Timestamp[:10]] of the following measure). The division by the number
    of days never divides by zero, and its quotient is at least 1: the
    branch [dataPointsPerDay == 0] is never taken. *)
Theorem memory_usage_returns
    (parseRFC3339 : string → Z) (formatDate : Z → string)
    (usageMeasures : list MetricMeasure.t)
    (first : MetricMeasure.t) (others : list MetricMeasure.t) :
  (is_Some (CalculateMemoryUsage parseRFC3339 formatDate usageMeasures (first :: others))
   ↔ Forall (λ m, 10 ≤ String.length (MetricMeasure.Timestamp m)) (tail usageMeasures))
  ∧ (∀ st,
       usageMeasures ≠ [] →
       mem_loop parseRFC3339 formatDate (MetricMeasure.Value first) usageMeasures mem_init
       = Some st →
       1 ≤ size (dailyMemMap st) ≤ length usageMeasures
       ∧ 1 ≤ length usageMeasures / size (dailyMemMap st)).
Proof.
  split; [|intros st; apply mem_days_bounds].
  destruct usageMeasures as [|m rest] eqn:Hu.
  { cbn. split; [constructor|eauto]. }
  rewrite <- (mem_loop_returns parseRFC3339 formatDate (MetricMeasure.Value first)
                (m :: rest) mem_init).
  unfold CalculateMemoryUsage.
  destruct (mem_loop parseRFC3339 formatDate (MetricMeasure.Value first) (m :: rest) mem_init)
    as [st|] eqn:Hst; [|split; intros [? ?]; discriminate].
  cbv zeta. destruct (decide (size (dailyMemMap st) = 0)) as [Hz|Hz].
  - pose proof (mem_days_bounds parseRFC3339 formatDate _ (m :: rest) st
                  ltac:(discriminate) Hst). lia.
  - split; eauto.
Qed.

(** X7: the per-day figures of [CalculateMemoryUsage] as the code
    computes them: for each date with a measure, the sum of the day's used
    megabytes, and the sum of the day's percentages of the first total,
    each divided by [len(usageMeasures) / number of days] (an integer
    quotient, the same for every day), not by the number of measures of the
    day. *)
Theorem memory_daily_rollup
    (parseRFC3339 : string → Z) (formatDate : Z → string)
    (usageMeasures : list MetricMeasure.t)
    (first : MetricMeasure.t) (others : list MetricMeasure.t)
    (stats : MemoryUsageStats.t) (date : string) :
  CalculateMemoryUsage parseRFC3339 formatDate usageMeasures (first :: others) = Some stats →
  let day := measures_on parseRFC3339 formatDate date usageMeasures in
  let perDay :=
    float64_of_int
      (Z.of_nat (length usageMeasures / day_count parseRFC3339 formatDate usageMeasures)) in
  MemoryUsageStats.UsageByDay stats !! date
  = match day with
    | [] => None
    | _ =>
        Some (DailyMemUsage.mk date
                (fsum (map MetricMeasure.Value day) / perDay)%float
                (fsum (map (λ m, MetricMeasure.Value m / MetricMeasure.Value first * 100)%float
                           day) / perDay)%float)
    end.
Proof.
  intros H. cbv zeta.
  destruct usageMeasures as [|m rest] eqn:Hu.
  { cbn in H. injection H as <-. reflexivity. }
  rewrite <- Hu in *.
  destruct (CalculateMemoryUsage_Some parseRFC3339 formatDate usageMeasures first others stats)
    as (_ & _ & _ & _ & _ & _ & Hday); [rewrite Hu; discriminate|assumption|].
  rewrite Hday. destruct (measures_on parseRFC3339 formatDate date usageMeasures); reflexivity.
Qed.

Lemma memory_daily_rollup_witness :
  ∃ stats,
    CalculateMemoryUsage example_parse example_format example_memory [example_total]
    = Some stats
    ∧ MemoryUsageStats.UsageByDay stats !! "2026-01-01"
      = Some (DailyMemUsage.mk "2026-01-01" 2048 50).
Proof.
  assert (H : ∃ stats, CalculateMemoryUsage example_parse example_format example_memory
                         [example_total] = Some stats)
    by (eexists; vm_compute; reflexivity).
  destruct H as [stats H]. exists stats. split; [exact H|].
  rewrite (memory_daily_rollup example_parse example_format example_memory
             example_total [] stats "2026-01-01" H).
  vm_compute. reflexivity.
Defined.

(** X8: when all measures of a non-empty series fall on one date,
    the one daily entry of [CalculateMemoryUsage] carries the overall
    averages: its [AverageUsedMB] and [AveragePercent] are those of the
    statistics themselves. *)
Theorem single_day_memory_average
    (parseRFC3339 : string → Z) (formatDate : Z → string)
    (usageMeasures : list MetricMeasure.t)
    (first : MetricMeasure.t) (others : list MetricMeasure.t)
    (stats : MemoryUsageStats.t) (date : string) :
  usageMeasures ≠ [] →
  Forall (λ m, measure_date parseRFC3339 formatDate m = date) usageMeasures →
  CalculateMemoryUsage parseRFC3339 formatDate usageMeasures (first :: others) = Some stats →
  MemoryUsageStats.UsageByDay stats
  = {[ date := DailyMemUsage.mk date (MemoryUsageStats.AverageUsedMB stats)
                 (MemoryUsageStats.AveragePercent stats) ]}.
Proof.
  intros Hne Hall H.
  destruct (CalculateMemoryUsage_Some parseRFC3339 formatDate usageMeasures first others stats
              Hne H) as (Hu & _ & _ & _ & Hp & _ & Hday).
  destruct (one_day parseRFC3339 formatDate date usageMeasures Hne Hall) as (Hc & Hon & Hoff).
  apply map_eq. intros d. rewrite Hday, Hc, Nat.div_1_r.
  destruct (decide (d = date)) as [->|Hd].
  - rewrite Hon, lookup_singleton_eq, Hu, Hp.
    destruct usageMeasures as [|m rest]; [congruence|].
    cbv zeta. unfold average, fsum. cbn [map]. cbn [length]. rewrite !length_map.
    reflexivity.
  - rewrite (Hoff d Hd), lookup_singleton_ne by congruence. reflexivity.
Qed.

Lemma single_day_memory_average_witness :
  ∃ stats,
    CalculateMemoryUsage example_parse example_format example_memory [example_total]
    = Some stats
    ∧ MemoryUsageStats.UsageByDay stats
      = {[ "2026-01-01" := DailyMemUsage.mk "2026-01-01"
                              (MemoryUsageStats.AverageUsedMB stats)
                              (MemoryUsageStats.AveragePercent stats) ]}.
Proof.
  assert (H : ∃ stats, CalculateMemoryUsage example_parse example_format example_memory
                         [example_total] = Some stats)
    by (eexists; vm_compute; reflexivity).
  destruct H as [stats H]. exists stats. split; [exact H|].
  apply (single_day_memory_average example_parse example_format example_memory
           example_total [] stats "2026-01-01"); [discriminate| |exact H].
  repeat constructor.
Defined.

(** *** [getClusterUsage] *)

Lemma wrap64_id (z : Z) : (minInt ≤ z ≤ maxInt)%Z → wrap64 z = z.
Proof.
  unfold wrap64, minInt, maxInt. intros H.
  rewrite Z.mod_small by lia. lia.
Qed.

Lemma wrap64_add_l (a b : Z) : wrap64 (wrap64 a + b) = wrap64 (a + b).
Proof.
  unfold wrap64. f_equal.
  replace ((a + 2 ^ 63) mod 2 ^ 64 - 2 ^ 63 + b + 2 ^ 63)%Z
    with ((a + 2 ^ 63) mod 2 ^ 64 + b)%Z by lia.
  rewrite Zplus_mod_idemp_l. f_equal. lia.
Qed.

Lemma wrap64_range (z : Z) : (minInt ≤ wrap64 z ≤ maxInt)%Z.
Proof.
  unfold wrap64, minInt, maxInt.
  pose proof (Z.mod_pos_bound (z + 2 ^ 63) (2 ^ 64) ltac:(lia)). lia.
Qed.

Lemma zsum_cons (x : Z) (l : list Z) : zsum (x :: l) = (x + zsum l)%Z.
Proof. reflexivity. Qed.

Lemma count_server_in_range acc server :
  tally_in_range acc → tally_in_range (count_server acc server).
Proof.
  unfold tally_in_range, count_server, int_add. intros (H1 & H2 & H3 & H4 & H5 & H6).
  repeat match goal with
         | |- context [if ?b then _ else _] => destruct b
         end;
    cbn [reservedVCPUs reservedRAMMB activeVMs shutoffVMs shelvedVMs otherVMs];
    repeat (first [assumption | apply wrap64_range | split]).
Qed.

(** The loop over the servers, as counts and sums over the list. *)
Lemma tally_spec (servers : list NovaServer.t) : ∀ acc,
  tally_in_range acc →
  let counted := foldl count_server acc servers in
  let unshelved := List.filter (λ s, negb (shelved s)) servers in
  let others :=
    List.filter (λ s, negb (has_status "ACTIVE" s) && negb (has_status "SHUTOFF" s)
                      && negb (shelved s)) servers in
  reservedVCPUs counted
  = wrap64 (reservedVCPUs acc + zsum (map (NovaFlavor.VCPUs ∘ NovaServer.Flavor) unshelved))
  ∧ reservedRAMMB counted
    = wrap64 (reservedRAMMB acc + zsum (map (NovaFlavor.RAM ∘ NovaServer.Flavor) unshelved))
  ∧ activeVMs counted
    = wrap64 (activeVMs acc + Z.of_nat (length (List.filter (has_status "ACTIVE") servers)))
  ∧ shutoffVMs counted
    = wrap64 (shutoffVMs acc + Z.of_nat (length (List.filter (has_status "SHUTOFF") servers)))
  ∧ shelvedVMs counted
    = wrap64 (shelvedVMs acc + Z.of_nat (length (List.filter shelved servers)))
  ∧ otherVMs counted = wrap64 (otherVMs acc + Z.of_nat (length others)).
Proof.
  induction servers as [|server servers IH]; intros acc Hacc; cbv zeta.
  { destruct Hacc as (H1 & H2 & H3 & H4 & H5 & H6).
    cbn. rewrite !Z.add_0_r, !wrap64_id by assumption. repeat split; reflexivity. }
  cbn [foldl]. specialize (IH _ (count_server_in_range acc server Hacc)).
  cbv zeta in IH. destruct IH as (I1 & I2 & I3 & I4 & I5 & I6).
  rewrite I1, I2, I3, I4, I5, I6. clear I1 I2 I3 I4 I5 I6.
  cbn [List.filter]. unfold count_server, shelved, has_status, int_add.
  destruct (String.eqb_spec (NovaServer.Status server) "ACTIVE") as [E|_].
  { rewrite E. cbn [String.eqb Ascii.eqb Bool.eqb negb andb orb
                      reservedVCPUs reservedRAMMB activeVMs shutoffVMs shelvedVMs otherVMs
                      map length compose].
    rewrite ?zsum_cons, !wrap64_add_l. repeat split; f_equal; unfold compose; lia. }
  destruct (String.eqb_spec (NovaServer.Status server) "SHUTOFF") as [E|_].
  { rewrite E. cbn [String.eqb Ascii.eqb Bool.eqb negb andb orb
                      reservedVCPUs reservedRAMMB activeVMs shutoffVMs shelvedVMs otherVMs
                      map length compose].
    rewrite ?zsum_cons, !wrap64_add_l. repeat split; f_equal; unfold compose; lia. }
  destruct (String.eqb (NovaServer.Status server) "SHELVED_OFFLOADED"
            || String.eqb (NovaServer.Status server) "SHELVED");
    cbn [negb andb orb reservedVCPUs reservedRAMMB activeVMs shutoffVMs shelvedVMs otherVMs
           map length compose];
    rewrite ?zsum_cons, ?wrap64_add_l; repeat split; f_equal; unfold compose; lia.
Qed.

Lemma tally_zero_in_range : tally_in_range tally_zero.
Proof. unfold tally_in_range, tally_zero, minInt, maxInt. cbn. lia. Qed.

(** The four status classes partition the servers. *)
Lemma status_partition (servers : list NovaServer.t) :
  length (List.filter (has_status "ACTIVE") servers)
  + length (List.filter (has_status "SHUTOFF") servers)
  + length (List.filter shelved servers)
  + length (List.filter (λ s, negb (has_status "ACTIVE" s) && negb (has_status "SHUTOFF" s)
                              && negb (shelved s)) servers)
  = length servers.
Proof.
  induction servers as [|server servers IH]; [reflexivity|].
  cbn [List.filter]. unfold shelved, has_status in *.
  destruct (String.eqb_spec (NovaServer.Status server) "ACTIVE") as [E|_].
  { rewrite E. cbn. lia. }
  destruct (String.eqb_spec (NovaServer.Status server) "SHUTOFF") as [E|_].
  { rewrite E. cbn. lia. }
  destruct (String.eqb (NovaServer.Status server) "SHELVED_OFFLOADED"
            || String.eqb (NovaServer.Status server) "SHELVED"); cbn; lia.
Qed.

(** The response of a request that got its three answers. *)
Lemma getClusterUsage_Ok w token hyperStats servers :
  ClusterWorld.GetAdminToken w = Ok token →
  ClusterWorld.GetHypervisorStats w (getEnv (ClusterWorld.env w) "NOVA_URL" "") token = Ok hyperStats →
  ClusterWorld.ListAllServers w (getEnv (ClusterWorld.env w) "NOVA_URL" "") token = Ok servers →
  ∃ body,
    getClusterUsage w = ClusterJSON body
    ∧ ClusterUsage.Timestamp body = ClusterWorld.now w
    ∧ ClusterUsage.TotalVMs body = Z.of_nat (length servers)
    ∧ ClusterUsage.ActiveVMs body = activeVMs (foldl count_server tally_zero servers)
    ∧ ClusterUsage.ShutoffVMs body = shutoffVMs (foldl count_server tally_zero servers)
    ∧ ClusterUsage.ShelvedVMs body = shelvedVMs (foldl count_server tally_zero servers)
    ∧ ClusterUsage.OtherVMs body = otherVMs (foldl count_server tally_zero servers)
    ∧ ClusterUsage.TotalVCPUs body = HypervisorStats.VCPUs hyperStats
    ∧ ClusterUsage.ReservedVCPUs body
      = reservedVCPUs (foldl count_server tally_zero servers)
    ∧ ClusterUsage.ReservedRAMGiB body
      = (float64_of_int64 (reservedRAMMB (foldl count_server tally_zero servers)) / 1024)%float
    ∧ ClusterUsage.SystemVCPUs body
      = clamp0 (int_sub (HypervisorStats.VCPUsUsed hyperStats)
                        (reservedVCPUs (foldl count_server tally_zero servers)))
    ∧ ClusterUsage.FreeVCPUs body
      = clamp0 (int_sub (HypervisorStats.VCPUs hyperStats)
                        (HypervisorStats.VCPUsUsed hyperStats)).
Proof.
  intros Ht Hh Hs. unfold getClusterUsage. rewrite Ht. cbv zeta. rewrite Hh, Hs.
  eexists. split; [reflexivity|]. cbn. repeat split; reflexivity.
Qed.

(** X9: [getClusterUsage] counts every server once: ACTIVE, SHUTOFF,
    shelved (SHELVED or SHELVED_OFFLOADED), and other for any other status;
    the four counts add up to [total_vms]. *)
Theorem cluster_vm_counts w token servers body :
  ClusterWorld.GetAdminToken w = Ok token →
  ClusterWorld.ListAllServers w (getEnv (ClusterWorld.env w) "NOVA_URL" "") token = Ok servers →
  getClusterUsage w = ClusterJSON body →
  (Z.of_nat (length servers) ≤ maxInt)%Z →
  let others s := negb (has_status "ACTIVE" s) && negb (has_status "SHUTOFF" s)
                  && negb (shelved s) in
  ClusterUsage.ActiveVMs body = Z.of_nat (length (List.filter (has_status "ACTIVE") servers))
  ∧ ClusterUsage.ShutoffVMs body
    = Z.of_nat (length (List.filter (has_status "SHUTOFF") servers))
  ∧ ClusterUsage.ShelvedVMs body = Z.of_nat (length (List.filter shelved servers))
  ∧ ClusterUsage.OtherVMs body = Z.of_nat (length (List.filter others servers))
  ∧ (ClusterUsage.ActiveVMs body + ClusterUsage.ShutoffVMs body
     + ClusterUsage.ShelvedVMs body + ClusterUsage.OtherVMs body
     = ClusterUsage.TotalVMs body)%Z.
Proof.
  intros Ht Hs Hr Hlen. cbv zeta.
  destruct (ClusterWorld.GetHypervisorStats w (getEnv (ClusterWorld.env w) "NOVA_URL" "") token)
    as [hyperStats|e] eqn:Hh.
  2:{ unfold getClusterUsage in Hr. rewrite Ht in Hr. cbv zeta in Hr. rewrite Hh in Hr.
      discriminate. }
  destruct (getClusterUsage_Ok w token hyperStats servers Ht Hh Hs)
    as (body' & Hb & _ & Htot & Ha & Hsh & Hsv & Ho & _).
  rewrite Hb in Hr. injection Hr as <-.
  destruct (tally_spec servers tally_zero tally_zero_in_range) as (_ & _ & Ta & Tsh & Tsv & To).
  cbv zeta in Ta, Tsh, Tsv, To. cbn [tally_zero activeVMs shutoffVMs shelvedVMs otherVMs] in *.
  pose proof (status_partition servers) as Hpart.
  unfold maxInt in Hlen.
  rewrite Ha, Hsh, Hsv, Ho, Htot, Ta, Tsh, Tsv, To.
  rewrite !Z.add_0_l, !wrap64_id by (unfold minInt, maxInt; lia).
  repeat split; try reflexivity. lia.
Qed.

Lemma cluster_vm_counts_witness :
  ∃ body,
    getClusterUsage example_cluster = ClusterJSON body
    ∧ ClusterUsage.ActiveVMs body = 1%Z ∧ ClusterUsage.ShutoffVMs body = 1%Z
    ∧ ClusterUsage.ShelvedVMs body = 1%Z ∧ ClusterUsage.OtherVMs body = 1%Z
    ∧ ClusterUsage.TotalVMs body = 4%Z.
Proof.
  assert (H : ∃ body, getClusterUsage example_cluster = ClusterJSON body)
    by (eexists; vm_compute; reflexivity).
  destruct H as [body H]. exists body. split; [exact H|].
  destruct (cluster_vm_counts example_cluster "token" example_servers body
              eq_refl eq_refl H) as (Ha & Hs & Hv & Ho & Hsum).
  { vm_compute. discriminate. }
  rewrite <- Hsum, Ha, Hs, Hv, Ho. vm_compute. repeat split.
Defined.

(** X10: the answers of [getClusterUsage]: 401 when the admin token
    cannot be obtained; 500 when the hypervisor statistics fail; 500 when
    they succeed and the server list fails; otherwise the JSON document,
    with the clock's timestamp, [total_vms = len(servers)] and the
    hypervisors' vCPU total. *)
Theorem cluster_status_mapping w :
  (∃ e, ClusterWorld.GetAdminToken w = Err e
        ∧ getClusterUsage w
          = ClusterError StatusUnauthorized ("failed to authenticate admin: " +:+ e))
  ∨ (∃ token,
       ClusterWorld.GetAdminToken w = Ok token
       ∧ let novaURL := getEnv (ClusterWorld.env w) "NOVA_URL" "" in
         (∃ e, ClusterWorld.GetHypervisorStats w novaURL token = Err e
               ∧ getClusterUsage w
                 = ClusterError StatusInternalServerError
                     ("failed to get hypervisor stats: " +:+ e))
         ∨ (∃ hyperStats e,
              ClusterWorld.GetHypervisorStats w novaURL token = Ok hyperStats
              ∧ ClusterWorld.ListAllServers w novaURL token = Err e
              ∧ getClusterUsage w
                = ClusterError StatusInternalServerError
                    ("failed to list servers from Nova: " +:+ e))
         ∨ (∃ hyperStats servers body,
              ClusterWorld.GetHypervisorStats w novaURL token = Ok hyperStats
              ∧ ClusterWorld.ListAllServers w novaURL token = Ok servers
              ∧ getClusterUsage w = ClusterJSON body
              ∧ ClusterUsage.Timestamp body = ClusterWorld.now w
              ∧ ClusterUsage.TotalVMs body = Z.of_nat (length servers)
              ∧ ClusterUsage.TotalVCPUs body = HypervisorStats.VCPUs hyperStats)).
Proof.
  destruct (ClusterWorld.GetAdminToken w) as [token|e] eqn:Ht.
  2:{ left. exists e. split; [reflexivity|]. unfold getClusterUsage. rewrite Ht. reflexivity. }
  right. exists token. split; [reflexivity|]. cbv zeta.
  destruct (ClusterWorld.GetHypervisorStats w (getEnv (ClusterWorld.env w) "NOVA_URL" "") token)
    as [hyperStats|e] eqn:Hh.
  2:{ left. exists e. split; [reflexivity|]. unfold getClusterUsage. rewrite Ht. cbv zeta.
      rewrite Hh. reflexivity. }
  right.
  destruct (ClusterWorld.ListAllServers w (getEnv (ClusterWorld.env w) "NOVA_URL" "") token) as [servers|e] eqn:Hs.
  2:{ left. exists hyperStats, e. split; [reflexivity|]. split; [reflexivity|].
      unfold getClusterUsage. rewrite Ht. cbv zeta. rewrite Hh, Hs. reflexivity. }
  right. destruct (getClusterUsage_Ok w token hyperStats servers Ht Hh Hs)
    as (body & Hb & Hts & Htot & _ & _ & _ & _ & Hv & _).
  exists hyperStats, servers, body. repeat split; assumption.
Qed.

(** X11: the reserved resources of [getClusterUsage] are the [int] sums
    of the flavors of all servers that are not shelved: servers of any other
    status than ACTIVE and SHUTOFF (ERROR, BUILD, ...) are included, shelved
    ones are not. The RAM figure is that sum of megabytes divided by
    1024. *)
Theorem cluster_reserved w token servers body :
  ClusterWorld.GetAdminToken w = Ok token →
  ClusterWorld.ListAllServers w (getEnv (ClusterWorld.env w) "NOVA_URL" "") token = Ok servers →
  getClusterUsage w = ClusterJSON body →
  let unshelved := List.filter (λ s, negb (shelved s)) servers in
  let reservedRAMMB := wrap64 (zsum (map (NovaFlavor.RAM ∘ NovaServer.Flavor) unshelved)) in
  ClusterUsage.ReservedVCPUs body
  = wrap64 (zsum (map (NovaFlavor.VCPUs ∘ NovaServer.Flavor) unshelved))
  ∧ ClusterUsage.ReservedRAMGiB body = (float64_of_int64 reservedRAMMB / 1024)%float.
Proof.
  intros Ht Hs Hr. cbv zeta.
  destruct (ClusterWorld.GetHypervisorStats w (getEnv (ClusterWorld.env w) "NOVA_URL" "") token)
    as [hyperStats|e] eqn:Hh.
  2:{ unfold getClusterUsage in Hr. rewrite Ht in Hr. cbv zeta in Hr. rewrite Hh in Hr.
      discriminate. }
  destruct (getClusterUsage_Ok w token hyperStats servers Ht Hh Hs)
    as (body' & Hb & _ & _ & _ & _ & _ & _ & _ & Hv & Hram & _).
  rewrite Hb in Hr. injection Hr as <-.
  destruct (tally_spec servers tally_zero tally_zero_in_range) as (Tv & Tr & _).
  cbv zeta in Tv, Tr. cbn [tally_zero reservedVCPUs reservedRAMMB] in Tv, Tr.
  rewrite !Z.add_0_l in Tv, Tr. rewrite Hv, Hram, Tv, Tr. split; reflexivity.
Qed.

Lemma cluster_reserved_witness :
  ∃ body,
    getClusterUsage example_cluster = ClusterJSON body
    ∧ ClusterUsage.ReservedVCPUs body = 7%Z
    ∧ ClusterUsage.ReservedRAMGiB body = 13%float.
Proof.
  assert (H : ∃ body, getClusterUsage example_cluster = ClusterJSON body)
    by (eexists; vm_compute; reflexivity).
  destruct H as [body H]. exists body. split; [exact H|].
  destruct (cluster_reserved example_cluster "token" example_servers body
              eq_refl eq_refl H) as (Hv & Hram).
  rewrite Hv, Hram. vm_compute. split; reflexivity.
Defined.

(** X12: with the hypervisors' [vcpus_used] between 0 and their [vcpus],
    the vCPU figures of [getClusterUsage] add up, free + system + reserved =
    total, when the reserved vCPUs do not exceed [vcpus_used]; when they do,
    system is clamped to 0 and the three add up to more than the total. *)
Theorem cluster_capacity_identity w token hyperStats body :
  ClusterWorld.GetAdminToken w = Ok token →
  ClusterWorld.GetHypervisorStats w (getEnv (ClusterWorld.env w) "NOVA_URL" "") token = Ok hyperStats →
  getClusterUsage w = ClusterJSON body →
  (0 ≤ ClusterUsage.ReservedVCPUs body)%Z →
  (0 ≤ HypervisorStats.VCPUsUsed hyperStats ≤ HypervisorStats.VCPUs hyperStats)%Z →
  (HypervisorStats.VCPUs hyperStats ≤ maxInt)%Z →
  (ClusterUsage.ReservedVCPUs body ≤ HypervisorStats.VCPUsUsed hyperStats →
   ClusterUsage.FreeVCPUs body + ClusterUsage.SystemVCPUs body
   + ClusterUsage.ReservedVCPUs body = ClusterUsage.TotalVCPUs body)%Z
  ∧ (HypervisorStats.VCPUsUsed hyperStats < ClusterUsage.ReservedVCPUs body →
     ClusterUsage.SystemVCPUs body = 0
     ∧ ClusterUsage.TotalVCPUs body
       < ClusterUsage.FreeVCPUs body + ClusterUsage.SystemVCPUs body
         + ClusterUsage.ReservedVCPUs body)%Z.
Proof.
  intros Ht Hh Hr Hres Hused Hmax.
  destruct (ClusterWorld.ListAllServers w (getEnv (ClusterWorld.env w) "NOVA_URL" "") token) as [servers|e] eqn:Hs.
  2:{ unfold getClusterUsage in Hr. rewrite Ht in Hr. cbv zeta in Hr. rewrite Hh, Hs in Hr.
      discriminate. }
  destruct (getClusterUsage_Ok w token hyperStats servers Ht Hh Hs)
    as (body' & Hb & _ & _ & _ & _ & _ & _ & Htot & Hv & _ & Hsys & Hfree).
  rewrite Hb in Hr. injection Hr as <-.
  rewrite <- Hv in Hsys. rewrite Hsys, Hfree, Htot. clear Hsys Hfree Htot Hv.
  pose proof (wrap64_range (reservedVCPUs (foldl count_server tally_zero servers))).
  set (reserved := ClusterUsage.ReservedVCPUs body') in *.
  assert (Hr_max : (reserved ≤ maxInt)%Z).
  { subst reserved.
    destruct (getClusterUsage_Ok w token hyperStats servers Ht Hh Hs)
      as (b2 & Hb2 & _ & _ & _ & _ & _ & _ & _ & Hv2 & _).
    rewrite Hb in Hb2. injection Hb2 as <-. rewrite Hv2.
    destruct (tally_spec servers tally_zero tally_zero_in_range) as (Tv & _).
    cbv zeta in Tv. rewrite Tv. apply wrap64_range. }
  unfold int_sub, clamp0. unfold maxInt in *.
  rewrite !wrap64_id by (unfold minInt, maxInt; lia).
  split; intros Hcmp.
  - destruct (Z.ltb_spec (HypervisorStats.VCPUsUsed hyperStats - reserved) 0);
      destruct (Z.ltb_spec (HypervisorStats.VCPUs hyperStats
                            - HypervisorStats.VCPUsUsed hyperStats) 0); lia.
  - destruct (Z.ltb_spec (HypervisorStats.VCPUsUsed hyperStats - reserved) 0);
      destruct (Z.ltb_spec (HypervisorStats.VCPUs hyperStats
                            - HypervisorStats.VCPUsUsed hyperStats) 0); lia.
Qed.

Lemma cluster_capacity_identity_witness :
  ∃ body,
    getClusterUsage example_cluster = ClusterJSON body
    ∧ (ClusterUsage.FreeVCPUs body + ClusterUsage.SystemVCPUs body
       + ClusterUsage.ReservedVCPUs body = 64)%Z.
Proof.
  assert (H : ∃ body, getClusterUsage example_cluster = ClusterJSON body)
    by (eexists; vm_compute; reflexivity).
  destruct H as [body H]. exists body. split; [exact H|].
  assert (Hres : ClusterUsage.ReservedVCPUs body = 7%Z).
  { vm_compute in H. injection H as <-. reflexivity. }
  destruct (cluster_capacity_identity example_cluster "token"
              (HypervisorStats.mk 2 64 9 262144 20480 241664 2 1000 100) body
              eq_refl eq_refl H) as (Hid & _).
  - rewrite Hres. lia.
  - cbn. lia.
  - vm_compute. discriminate.
  - rewrite Hid; [vm_compute in H; injection H as <-; reflexivity|].
    rewrite Hres. cbn. lia.
Defined.

(** *** The scope of [getTotalUsage] *)

Lemma filterTargets_spec projectToDomain instances :
  filterTargets projectToDomain instances
  = omap (λ inst, Target.mk inst <$> projectToDomain !! GnocchiInstance.ProjectID inst)
         instances.
Proof.
  unfold filterTargets.
  assert (H : ∀ acc,
            foldl (fun targets inst =>
                     match projectToDomain !! GnocchiInstance.ProjectID inst with
                     | Some domainName => targets ++ [Target.mk inst domainName]
                     | None => targets
                     end) acc instances
            = acc ++ omap (λ inst, Target.mk inst
                                   <$> projectToDomain !! GnocchiInstance.ProjectID inst)
                          instances).
  { induction instances as [|inst instances IH]; intros acc; cbn [foldl omap list_omap].
    - rewrite app_nil_r. reflexivity.
    - rewrite IH. destruct (projectToDomain !! GnocchiInstance.ProjectID inst); cbn.
      + rewrite <- app_assoc. reflexivity.
      + reflexivity. }
  apply (H []).
Qed.

Lemma addProjects_lookup domainName projects : ∀ (m : gmap string string) projectID,
  addProjects domainName projects m !! projectID
  = if existsb (λ p, String.eqb (KeystoneProject.ID p) projectID) projects
    then Some domainName else m !! projectID.
Proof.
  unfold addProjects. induction projects as [|p projects IH]; intros m projectID;
    cbn [foldl existsb]; [reflexivity|].
  rewrite IH. destruct (existsb _ projects); cbn [orb].
  - rewrite orb_true_r. reflexivity.
  - rewrite orb_false_r. destruct (String.eqb_spec (KeystoneProject.ID p) projectID) as [->|Hne].
    + rewrite lookup_insert_eq. reflexivity.
    + rewrite lookup_insert_ne by assumption. reflexivity.
Qed.

(** A project id is in the map after the loop only if it was before, or
    the identity service lists it under one of the domains. *)
Lemma resolveDomains_sound w adminToken domainNames :
  ∀ k projectToDomain errs projectToDomain' errs' ctx projectID domainName,
  resolveDomains w adminToken k domainNames projectToDomain errs
  = (projectToDomain', errs', ctx) →
  projectToDomain' !! projectID = Some domainName →
  projectToDomain !! projectID = Some domainName
  ∨ (domainName ∈ domainNames ∧ project_of w adminToken projectID domainName = true).
Proof.
  induction domainNames as [|d ds IH]; intros k m errs m' errs' ctx pid dn Hres Hlook;
    cbn [resolveDomains] in Hres.
  { injection Hres as <- _ _. auto. }
  destruct (ctxErrResolving w k); [injection Hres as <- _ _; auto|].
  destruct (ListProjectsForDomainName w adminToken d) as [[|p ps]|e] eqn:Hlist.
  - destruct (IH _ _ _ _ _ _ _ _ Hres Hlook) as [?|[? ?]]; [auto|right; split; [right|]; auto].
  - destruct (IH _ _ _ _ _ _ _ _ Hres Hlook) as [Hm|[? ?]]; [|right; split; [right|]; auto].
    rewrite addProjects_lookup in Hm.
    destruct (existsb _ (p :: ps)) eqn:Hex; [|auto].
    injection Hm as <-. right. split; [left|]. unfold project_of. rewrite Hlist. exact Hex.
  - destruct (IH _ _ _ _ _ _ _ _ Hres Hlook) as [?|[? ?]]; [auto|right; split; [right|]; auto].
Qed.


(** The loop when the context is found cancelled at the top of iteration
    [j]: the domains before it are handled as usual, the domain at [j] gets
    the one cancellation record, and the loop is left. *)
Lemma resolveDomains_cancelled w adminToken e : ∀ j domainNames k projectToDomain errs d,
  domainNames !! j = Some d →
  ctxErrResolving w (k + j) = Some e →
  (∀ i, i < j → ctxErrResolving w (k + i) = None) →
  ∃ projectToDomain',
    resolveDomains w adminToken k domainNames projectToDomain errs
    = (projectToDomain',
       errs ++ omap (domain_error w adminToken) (take j domainNames)
            ++ [domainCancelError d e],
       Some e).
Proof.
  induction j as [|j IH]; intros [|d0 ds] k m errs d Hd He Hlive; try discriminate;
    cbn [resolveDomains].
  { cbn in Hd. injection Hd as ->. rewrite Nat.add_0_r in He. rewrite He.
    exists m. reflexivity. }
  cbn in Hd. pose proof (Hlive 0 ltac:(lia)) as H0. rewrite Nat.add_0_r in H0. rewrite H0.
  assert (He' : ctxErrResolving w (S k + j) = Some e)
    by (replace (S k + j) with (k + S j) by lia; assumption).
  assert (Hlive' : ∀ i, i < j → ctxErrResolving w (S k + i) = None).
  { intros i Hi. replace (S k + i) with (k + S i) by lia. apply Hlive. lia. }
  cbn [take omap list_omap]. unfold domain_error at 1.
  destruct (ListProjectsForDomainName w adminToken d0) as [[|p ps]|e0] eqn:Hlist.
  - destruct (IH ds (S k) m (errs ++ [domainEmptyError d0]) d Hd He' Hlive') as (m' & Hres).
    exists m'. rewrite Hres, <- !app_assoc. reflexivity.
  - destruct (IH ds (S k) (addProjects d0 (p :: ps) m) errs d Hd He' Hlive') as (m' & Hres).
    exists m'. rewrite Hres. reflexivity.
  - destruct (IH ds (S k) m (errs ++ [domainListError d0 e0]) d Hd He' Hlive') as (m' & Hres).
    exists m'. rewrite Hres, <- !app_assoc. reflexivity.
Qed.

Lemma work_bound (l : list PC) : sum_list_with remaining l ≤ 7 * length l.
Proof.
  induction l as [|pc l IH]; cbn [sum_list_with length]; [lia|].
  assert (remaining pc ≤ 7) by (destruct pc; cbn; lia). lia.
Qed.

Lemma work_zero (l : list PC) : sum_list_with remaining l = 0 ↔ forallb is_finished l = true.
Proof.
  induction l as [|pc l IH]; cbn [sum_list_with forallb]; [tauto|].
  rewrite andb_true_iff, <- IH. destruct pc; cbn; split; intros; try lia; 
    try (destruct H; try discriminate; lia); tauto.
Qed.

(** X13: the fan-out of [getTotalUsage] cannot get stuck. In every state
    of every run: while a goroutine is unfinished some goroutine can take a
    step; every goroutine step lowers a measure that starts at no more than
    7 per VM, so no run has more than [7 * len(targets)] of them; and the
    measure is 0 exactly when [wg.Wait()] can return. *)
Theorem fan_out_progress w targets errs0 ctx0 schedule :
  let s := fanOut w targets errs0 ctx0 schedule in
  work s ≤ 7 * length targets
  ∧ (work s = 0 ↔ all_finished s = true)
  ∧ (all_finished s = false → ∃ i s', step w targets (Run i) s = Some s')
  ∧ (∀ i s', step w targets (Run i) s = Some s' → work s' < work s).
Proof.
  cbv zeta. pose proof (run_inv w targets errs0 ctx0 schedule) as HI.
  fold (fanOut w targets errs0 ctx0 schedule) in HI.
  split; [|split; [|split]].
  - unfold work. rewrite <- (inv_length _ _ _ _ _ HI). apply work_bound.
  - apply work_zero.
  - apply (some_enabled _ _ _ _ _ HI).
  - intros i s'. apply (run_decreases _ _ _ _ _ _ _ HI).
Qed.

Lemma reqs_so_far_keys t pc metricID :
  metricID ∈ reqs_so_far t pc →
  ∃ key, (key = "vcpus" ∨ key = "memory")
         ∧ GnocchiInstance.Metrics (Target.Instance t) !! key = Some metricID.
Proof.
  unfold reqs_so_far, metric_request. intros H. apply elem_of_app in H as [H|H].
  - destruct (asked_cpu pc); [|inversion H].
    destruct (GnocchiInstance.Metrics (Target.Instance t) !! "vcpus") as [x|] eqn:E;
      [|inversion H].
    apply list_elem_of_singleton in H as ->. exists "vcpus". auto.
  - destruct (asked_mem pc); [|inversion H].
    destruct (GnocchiInstance.Metrics (Target.Instance t) !! "memory") as [x|] eqn:E;
      [|inversion H].
    apply list_elem_of_singleton in H as ->. exists "memory". auto.
Qed.

Lemma reqs_so_far_length t pc : length (reqs_so_far t pc) ≤ 2.
Proof.
  unfold reqs_so_far, metric_request. rewrite length_app.
  destruct (asked_cpu pc), (asked_mem pc);
    destruct (GnocchiInstance.Metrics (Target.Instance t) !! "vcpus"),
             (GnocchiInstance.Metrics (Target.Instance t) !! "memory"); cbn; lia.
Qed.

Lemma concat_zip_with_length {A B C} (f : A → B → list C) (n : nat) (l : list A) :
  (∀ a b, length (f a b) ≤ n) → ∀ k : list B,
  length (concat (zip_with f l k)) ≤ n * length l.
Proof.
  intros Hf. induction l as [|a l IH]; intros [|b k]; cbn [zip_with concat length]; try lia.
  rewrite length_app. specialize (IH k). specialize (Hf a b). lia.
Qed.

Lemma elem_of_concat {A} (x : A) (ls : list (list A)) :
  x ∈ concat ls ↔ ∃ l, x ∈ l ∧ l ∈ ls.
Proof.
  induction ls as [|l0 ls IH]; cbn [concat].
  - split; [intros H; inversion H | intros (l & _ & H); inversion H].
  - rewrite elem_of_app, IH. split.
    + intros [H|(l & Hx & Hl)]; [exists l0; split; [assumption|left] |
                                  exists l; split; [assumption|right; assumption]].
    + intros (l & Hx & Hl). apply elem_of_cons in Hl as [->|Hl]; [left; assumption|].
      right. exists l. auto.
Qed.

(** What the requests of a run are about. *)
Lemma requests_of_targets w targets errs0 ctx0 schedule :
  let s := fanOut w targets errs0 ctx0 schedule in
  (∀ metricID, metricID ∈ requests s →
     ∃ t key, t ∈ targets ∧ (key = "vcpus" ∨ key = "memory")
              ∧ GnocchiInstance.Metrics (Target.Instance t) !! key = Some metricID)
  ∧ length (requests s) ≤ 2 * length targets.
Proof.
  cbv zeta. pose proof (run_inv w targets errs0 ctx0 schedule) as HI.
  fold (fanOut w targets errs0 ctx0 schedule) in HI.
  pose proof (inv_requests _ _ _ _ _ HI) as Hreq. split.
  - intros metricID Hin. rewrite Hreq in Hin.
    apply elem_of_concat in Hin as (l & Hin & Hl).
    apply elem_of_lookup_zip_with in Hl as (i & t & pc & -> & Ht & Hpc).
    destruct (reqs_so_far_keys _ _ _ Hin) as (key & Hkey & Hm).
    exists t, key. split; [eapply list_elem_of_lookup_2; eassumption|]. auto.
  - rewrite Hreq. apply concat_zip_with_length. apply reqs_so_far_length.
Qed.

Lemma in_filterTargets projectToDomain instances t :
  t ∈ filterTargets projectToDomain instances →
  Target.Instance t ∈ instances
  ∧ projectToDomain !! GnocchiInstance.ProjectID (Target.Instance t)
    = Some (Target.DomainName t).
Proof.
  rewrite filterTargets_spec, list_elem_of_omap. intros (inst & Hin & Hsome).
  destruct (projectToDomain !! GnocchiInstance.ProjectID inst) as [d|] eqn:E; [|discriminate].
  cbn in Hsome. injection Hsome as <-. cbn. auto.
Qed.

Lemma filterTargets_length projectToDomain instances :
  length (filterTargets projectToDomain instances) ≤ length instances.
Proof.
  rewrite filterTargets_spec. induction instances as [|inst instances IH]; cbn; [lia|].
  destruct (projectToDomain !! GnocchiInstance.ProjectID inst); cbn; lia.
Qed.

(** X14: every metric [getTotalUsage] asks the metrics service for is
    the "vcpus" or the "memory" metric of an instance of the inventory whose
    project the identity service lists under one of the configured domains;
    and it asks for at most two metrics per instance. *)
Theorem only_scoped_metrics_requested w schedule :
  (∀ metricID,
     metricID ∈ metricRequests (getTotalUsage w schedule) →
     ∃ domainNames adminToken instances inst key,
       LoadDomainNames w (DOMAINS_FILE w) = Ok domainNames
       ∧ GetAdminToken w = Ok adminToken
       ∧ GetAllInstances w = Ok instances
       ∧ inst ∈ instances
       ∧ in_scope w adminToken domainNames inst = true
       ∧ (key = "vcpus" ∨ key = "memory")
       ∧ GnocchiInstance.Metrics inst !! key = Some metricID)
  ∧ (∀ instances,
       GetAllInstances w = Ok instances →
       length (metricRequests (getTotalUsage w schedule)) ≤ 2 * length instances).
Proof.
  unfold getTotalUsage.
  destruct (LoadDomainNames w (DOMAINS_FILE w)) as [[|d ds]|e] eqn:Hload;
    try (cbn; split; [intros ? H; inversion H | intros; lia]).
  destruct (GetAdminToken w) as [adminToken|e] eqn:Htok;
    try (cbn; split; [intros ? H; inversion H | intros; lia]).
  destruct (resolveDomains w adminToken 0 (d :: ds) ∅ []) as [[m errs] ctx] eqn:Hres.
  destruct (GetAllInstances w) as [instances|e] eqn:Hinst;
    try (cbn; split; [intros ? H; inversion H | intros; lia]).
  cbn [metricRequests].
  destruct (requests_of_targets w (filterTargets m instances) errs ctx schedule) as [Hin Hlen].
  cbv zeta in Hin, Hlen. split.
  - intros metricID Hreq. destruct (Hin _ Hreq) as (t & key & Ht & Hkey & Hm).
    apply in_filterTargets in Ht as [Hinst' Hdom].
    destruct (resolveDomains_sound _ _ _ _ _ _ _ _ _ _ _ Hres Hdom) as [Hempty|[Hd Hp]];
      [rewrite lookup_empty in Hempty; discriminate|].
    exists (d :: ds), adminToken, instances, (Target.Instance t), key.
    repeat split; try assumption; try reflexivity.
    unfold in_scope. apply existsb_exists. exists (Target.DomainName t).
    split; [apply list_elem_of_In; assumption | assumption].
  - intros instances' Heq. injection Heq as <-.
    pose proof (filterTargets_length m instances). lia.
Qed.






(** The response of a run that started under a cancelled context. *)
Lemma cancelled_response w targets errs0 e schedule r :
  aggregate w targets errs0 (Some e) schedule = Some r →
  ∃ E, E ≡ₚ (λ t, cancelError t e) <$> targets
       ∧ r = JSON (if decide (0 < length (errs0 ++ E))
                   then StatusPartialContent else StatusOK)
               {| Timestamp := now w; TotalVMs := length targets;
                  CPUCoresUsed := 0; RAMUsedGB := 0; Errors := errs0 ++ E |}.
Proof.
  intros Hagg.
  pose proof (run_inv w targets errs0 (Some e) schedule) as HI.
  fold (fanOut w targets errs0 (Some e) schedule) in HI.
  destruct (cancelled_quiet _ _ _ _ _ HI) as (Hcpu & Hram & Hreq).
  apply aggregate_Some in Hagg as [Hfin ->].
  destruct (final_state _ _ _ _ _ HI Hfin)
    as (paths & _ & Hlen & _ & _ & Hcancel & _ & _ & (E & EE & PE) & _).
  specialize (Hcancel (ltac:(eexists; reflexivity))).
  rewrite (zip_with_all _ _ _ ViaCancel Hlen Hcancel) in PE.
  cbn [vm_errors] in PE. rewrite (inv_ctx _ _ _ _ _ HI e eq_refl) in PE.
  cbn [default] in PE. rewrite (concat_singletons (λ t, cancelError t e)) in PE.
  exists E. split; [assumption|].
  unfold respond. rewrite Hcpu, Hram, EE. reflexivity.
Qed.

(** X16: when the context is found cancelled at the top of iteration
    [j] of the domain loop, the loop is left: no metric is requested at all,
    and the response of a completed run is 206 with zero totals, whose error
    list is the records of the domains before [j], one cancellation record
    for domain [j], and one cancellation record per VM in scope. *)
Theorem cancelled_while_resolving w schedule domainNames adminToken instances j d e :
  LoadDomainNames w (DOMAINS_FILE w) = Ok domainNames →
  GetAdminToken w = Ok adminToken →
  GetAllInstances w = Ok instances →
  domainNames !! j = Some d →
  ctxErrResolving w j = Some e →
  (∀ i, i < j → ctxErrResolving w i = None) →
  metricRequests (getTotalUsage w schedule) = []
  ∧ ∀ r, response (getTotalUsage w schedule) = Some r →
      ∃ body E,
        r = JSON StatusPartialContent body
        ∧ CPUCoresUsed body = 0%float
        ∧ RAMUsedGB body = 0%float
        ∧ Errors body
          = omap (domain_error w adminToken) (take j domainNames)
            ++ domainCancelError d e :: E
        ∧ length E = TotalVMs body
        ∧ Forall (λ x, UsageError.Error x
                       = "context cancelled while processing instance: " +:+ e) E.
Proof.
  intros Hload Htok Hinst Hd He Hlive. unfold getTotalUsage. rewrite Hload, Htok.
  destruct domainNames as [|d0 ds]; [discriminate|].
  destruct (resolveDomains_cancelled w adminToken e j (d0 :: ds) 0 ∅ [] d Hd He Hlive)
    as (m & Hres).
  rewrite Hres, Hinst. cbn [metricRequests response app]. split.
  - pose proof (run_inv w (filterTargets m instances)
                  (omap (domain_error w adminToken) (take j (d0 :: ds))
                   ++ [domainCancelError d e]) (Some e) schedule) as HI.
    destruct (cancelled_quiet _ _ _ _ _ HI) as (_ & _ & Hreq). exact Hreq.
  - intros r Hr. apply cancelled_response in Hr as (E & HP & ->).
    rewrite decide_True by (rewrite !length_app; cbn; lia).
    eexists _, E. split; [reflexivity|]. cbn [CPUCoresUsed RAMUsedGB Errors TotalVMs].
    split; [reflexivity|]. split; [reflexivity|]. split; [rewrite <- app_assoc; reflexivity|].
    split.
    + rewrite HP, length_fmap. reflexivity.
    + rewrite HP. apply Forall_fmap, Forall_true. intros t. reflexivity.
Qed.

Lemma cancelled_while_resolving_witness :
  metricRequests (getTotalUsage expired_world (one_by_one 2)) = []
  ∧ ∃ r, response (getTotalUsage expired_world (one_by_one 2)) = Some r.
Proof.
  split.
  - refine (proj1 (cancelled_while_resolving expired_world (one_by_one 2) ["d0"; "d1"]
                    "token" [Target.Instance example_A; Target.Instance example_B]
                    1 "d1" "context deadline exceeded"
                    eq_refl eq_refl eq_refl eq_refl eq_refl _)).
    intros i Hi. destruct i; [reflexivity|lia].
  - eexists. vm_compute. reflexivity.
Defined.

(** *** [bearerAuth] *)

Lemma substring_all (s : string) : String.substring 0 (String.length s) s = s.
Proof. induction s as [|c s IH]; cbn; [reflexivity|]. rewrite IH. reflexivity. Qed.

Lemma substring_after_prefix (p s : string) :
  String.substring (String.length p) (String.length (p +:+ s) - String.length p) (p +:+ s) = s.
Proof.
  induction p as [|c p IH].
  - change (String.substring 0 (String.length s - 0) s = s).
    rewrite Nat.sub_0_r. apply substring_all.
  - exact IH.
Qed.

Lemma getEnv_empty_default env key : getEnv env key "" = Getenv env key.
Proof. unfold getEnv. destruct (decide (Getenv env key = "")) as [->|]; reflexivity. Qed.

(** The header the middleware lets through. *)
Lemma bearer_header (auth expected : string) :
  (bool_decide (auth = "") || (String.length auth <? 8)
   || negb (String.eqb (String.substring 0 7 auth) "Bearer ")) = false
  ∧ negb (String.eqb (String.substring 7 (String.length auth - 7) auth) expected) = false
  ↔ expected ≠ "" ∧ auth = "Bearer " +:+ expected.
Proof.
  split.
  - intros [H1 H2]. apply orb_false_iff in H1 as [H1 Hp]. apply orb_false_iff in H1 as [_ Hl].
    apply negb_false_iff, String.eqb_eq in Hp, H2. apply Nat.ltb_ge in Hl.
    destruct auth as [|c1 [|c2 [|c3 [|c4 [|c5 [|c6 [|c7 rest]]]]]]]; cbn in Hl; try lia.
    cbn in Hp. injection Hp as -> -> -> -> -> -> -> _.
    match type of H2 with
    | ?l = _ => assert (Hs : l = rest) by exact (substring_after_prefix "Bearer " rest)
    end.
    rewrite Hs in H2.
    subst expected. split; [|reflexivity]. destruct rest; cbn in Hl; [lia|discriminate].
  - intros [Hne ->].
    assert (Hs : String.substring 7 (String.length ("Bearer " +:+ expected) - 7)
                   ("Bearer " +:+ expected) = expected)
      by exact (substring_after_prefix "Bearer " expected).
    rewrite Hs, String.eqb_refl. split; [|reflexivity].
    destruct expected as [|c rest]; [congruence|]. reflexivity.
Qed.

(** The three ways the middleware can go. *)
Lemma bearerAuth_cases {A} (env : gmap string string) (authorization : string) (next : A) :
  let expected := Getenv env "API_BEARER_TOKEN" in
  (expected = ""
   ∧ bearerAuth env authorization next
     = Rejected StatusInternalServerError None (errorJSON "server misconfiguration"))
  ∨ (expected ≠ "" ∧ authorization ≠ "Bearer " +:+ expected
     ∧ ∃ body, bearerAuth env authorization next
               = Rejected StatusUnauthorized (Some challenge) body)
  ∨ (expected ≠ "" ∧ authorization = "Bearer " +:+ expected
     ∧ bearerAuth env authorization next = Served next).
Proof.
  cbv zeta. unfold bearerAuth. rewrite getEnv_empty_default.
  set (expected := Getenv env "API_BEARER_TOKEN").
  pose proof (bearer_header authorization expected) as Hh.
  destruct (decide (expected = "")) as [He|He]; [left; auto|]. right. cbv zeta.
  destruct (bool_decide (authorization = "") || (String.length authorization <? 8)
            || negb (String.eqb (String.substring 0 7 authorization) "Bearer ")) eqn:H1.
  { left. split; [assumption|]. split; [|eauto].
    intros H. destruct (proj2 Hh (conj He H)) as [H' _]. discriminate. }
  destruct (negb (String.eqb (String.substring 7 (String.length authorization - 7)
                                authorization) expected)) eqn:H2.
  { left. split; [assumption|]. split; [|eauto].
    intros H. destruct (proj2 Hh (conj He H)) as [_ H']. discriminate. }
  right. split; [assumption|]. split; [|reflexivity]. apply Hh. auto.
Qed.

(** X17: the middleware calls the wrapped handler exactly when
    [API_BEARER_TOKEN] is set to something and the [Authorization] header is
    ["Bearer "] followed by exactly that token. With the variable unset or
    empty every request gets 500, without a challenge; otherwise any other
    header (absent, malformed, or with another token) gets 401 with the
    [WWW-Authenticate] challenge. *)
Theorem bearerAuth_gate {A} (env : gmap string string) (authorization : string) (next : A) :
  let expected := Getenv env "API_BEARER_TOKEN" in
  (bearerAuth env authorization next = Served next
   ↔ expected ≠ "" ∧ authorization = "Bearer " +:+ expected)
  ∧ (expected = "" →
     bearerAuth env authorization next
     = Rejected StatusInternalServerError None (errorJSON "server misconfiguration"))
  ∧ (expected ≠ "" → authorization ≠ "Bearer " +:+ expected →
     ∃ body, bearerAuth env authorization next
             = Rejected StatusUnauthorized (Some challenge) body).
Proof.
  cbv zeta.
  destruct (bearerAuth_cases env authorization next)
    as [[He Hr]|[(He & Hne & body & Hr)|(He & Heq & Hr)]]; rewrite Hr.
  - split; [|split]; [|reflexivity|congruence].
    split; [discriminate|]. intros [? _]. congruence.
  - split; [|split]; [|congruence|eauto].
    split; [discriminate|]. intros [_ ?]. congruence.
  - split; [|split]; [|congruence|congruence].
    split; [auto|reflexivity].
Qed.

(** The statuses [getTotalUsage] itself writes. *)
Lemma getTotalUsage_statuses w schedule r :
  response (getTotalUsage w schedule) = Some r →
  (∃ status body, r = HttpError status body
                  ∧ (status = StatusInternalServerError ∨ status = StatusBadRequest
                     ∨ status = StatusUnauthorized))
  ∨ (∃ status body, r = JSON status body
                    ∧ (status = StatusOK ∨ status = StatusPartialContent)).
Proof.
  unfold getTotalUsage.
  destruct (LoadDomainNames w (DOMAINS_FILE w)) as [[|d ds]|e].
  - cbn. intros [= <-]. left. eauto 6.
  - destruct (GetAdminToken w) as [adminToken|e].
    + destruct (resolveDomains w adminToken 0 (d :: ds) ∅ []) as [[m errs] ctx].
      destruct (GetAllInstances w) as [instances|e].
      * cbn [response]. intros Hr. apply aggregate_Some in Hr as [_ ->].
        right. unfold respond. destruct (decide _); eauto 6.
      * cbn. intros [= <-]. left. eauto 6.
    + cbn. intros [= <-]. left. eauto 7.
  - cbn. intros [= <-]. left. eauto 6.
Qed.

(** X18: the route [GET /api/v1/usage/total] behind the middleware: a
    request without the configured token is answered 500 (token not
    configured) or 401 and asks the metrics service for nothing; one with it
    is answered by [getTotalUsage]; and the statuses of the route are among
    200, 206, 400, 401 and 500. *)
Theorem usage_total_route env authorization w schedule :
  let expected := Getenv env "API_BEARER_TOKEN" in
  let served := usageTotalRoute env authorization w schedule in
  (expected = "" →
   route_status served = Some StatusInternalServerError ∧ route_requests served = [])
  ∧ (expected ≠ "" → authorization ≠ "Bearer " +:+ expected →
     route_status served = Some StatusUnauthorized ∧ route_requests served = [])
  ∧ (expected ≠ "" → authorization = "Bearer " +:+ expected →
     served = Served (getTotalUsage w schedule))
  ∧ (∀ status, route_status served = Some status →
       status ∈ [StatusOK; StatusPartialContent; StatusBadRequest; StatusUnauthorized;
                 StatusInternalServerError]).
Proof.
  cbv zeta. unfold usageTotalRoute.
  destruct (bearerAuth_cases env authorization (getTotalUsage w schedule))
    as [[He Hr]|[(He & Hne & body & Hr)|(He & Heq & Hr)]]; rewrite Hr.
  - split; [|split; [|split]]; try congruence.
    + intros _. split; reflexivity.
    + intros status [= <-]. set_solver.
  - split; [|split; [|split]]; try congruence.
    + intros _ _. split; reflexivity.
    + intros status [= <-]. set_solver.
  - split; [|split; [|split]]; try congruence.
    intros status Hst. cbn [route_status] in Hst.
    destruct (response (getTotalUsage w schedule)) as [r|] eqn:Hresp; [|discriminate].
    destruct (getTotalUsage_statuses w schedule r Hresp)
      as [(st & b & -> & Hs)|(st & b & -> & Hs)];
      injection Hst as <-; set_solver.
Qed.

(** *** The rows of [GetMetricMeasures] *)

Lemma convertMeasures_omap rawMeasures :
  convertMeasures rawMeasures = omap convertRow rawMeasures.
Proof.
  unfold convertMeasures.
  assert (H : ∀ acc,
            foldl (λ measures raw, match convertRow raw with
                                   | Some m => measures ++ [m]
                                   | None => measures
                                   end) acc rawMeasures
            = acc ++ omap convertRow rawMeasures).
  { induction rawMeasures as [|raw raws IH]; intros acc; cbn [foldl omap list_omap].
    - rewrite app_nil_r. reflexivity.
    - rewrite IH. destruct (convertRow raw); [rewrite <- app_assoc|]; reflexivity. }
  apply (H []).
Qed.

Lemma convertRow_Some raw m : convertRow raw = Some m ↔ raw = row_of m.
Proof.
  split.
  - unfold convertRow. destruct (decide (length raw ≠ 3)) as [|Hlen]; [discriminate|].
    destruct raw as [|a [|b [|c [|d rest]]]]; cbn in Hlen; try lia.
    cbn. destruct a; try discriminate. destruct b; try discriminate.
    destruct c; try discriminate. intros [= <-]. reflexivity.
  - intros ->. destruct m. reflexivity.
Qed.

(** X19: the rows of [GetMetricMeasures]. A row is converted exactly
    when it is [[string, number, number]]; the rows of a list of measures
    are converted back to that list; any other row (wrong length, a [null]
    value, ...) is dropped without an error and without disturbing the
    others; nothing is invented. *)
Theorem measures_round_trip (rawMeasures : list (list JSONValue)) :
  (∀ measures, convertMeasures (row_of <$> measures) = measures)
  ∧ (∀ before raw after,
       (∀ m, raw ≠ row_of m) →
       convertMeasures (before ++ raw :: after) = convertMeasures (before ++ after))
  ∧ (∀ m, m ∈ convertMeasures rawMeasures ↔ row_of m ∈ rawMeasures)
  ∧ length (convertMeasures rawMeasures) ≤ length rawMeasures.
Proof.
  split; [|split; [|split]].
  - intros measures. rewrite convertMeasures_omap.
    induction measures as [|m ms IH]; [reflexivity|]. cbn [fmap list_fmap omap list_omap].
    rewrite (proj2 (convertRow_Some (row_of m) m) eq_refl). cbn. f_equal. exact IH.
  - intros before raw after Hbad. rewrite !convertMeasures_omap, !omap_app.
    cbn [omap list_omap]. destruct (convertRow raw) as [m|] eqn:E; [|reflexivity].
    apply convertRow_Some in E. destruct (Hbad m E).
  - intros m. rewrite convertMeasures_omap, list_elem_of_omap. split.
    + intros (raw & Hin & Hraw). apply convertRow_Some in Hraw as ->. assumption.
    + intros Hin. exists (row_of m). split; [assumption|]. apply convertRow_Some. reflexivity.
  - rewrite convertMeasures_omap. induction rawMeasures as [|raw raws IH]; cbn; [lia|].
    destruct (convertRow raw); cbn; lia.
Qed.

(** *** [ListAllServers] *)

Lemma append_nonempty (a b : string) : b ≠ "" → a +:+ b ≠ "".
Proof. destruct a; cbn; [auto|discriminate]. Qed.

Lemma marker_url_nonempty baseURL page : marker_url baseURL page ≠ "".
Proof. unfold marker_url. apply append_nonempty. discriminate. Qed.

(** The loop over full pages, followed by a short page or by a failure. *)
Lemma listLoop_pages transport token baseURL full : ∀ fuel nextURL allServers,
  nextURL ≠ "" →
  length full < fuel →
  Forall (λ page, 200 ≤ length page) full →
  Forall2 (λ url page, NovaClient.fetchPage transport token url = Ok page)
          (page_urls baseURL nextURL full) full →
  (∀ short,
     NovaClient.fetchPage transport token (url_after baseURL nextURL full) = Ok short →
     length short < 200 →
     NovaClient.listLoop fuel transport token baseURL nextURL allServers
     = Some (Ok (allServers ++ concat full ++ short)))
  ∧ (∀ e,
       NovaClient.fetchPage transport token (url_after baseURL nextURL full) = Err e →
       NovaClient.listLoop fuel transport token baseURL nextURL allServers = Some (Err e)).
Proof.
  induction full as [|page full IH]; intros fuel nextURL allServers Hne Hfuel Hfull Hfetch.
  - destruct fuel as [|fuel]; [cbn in Hfuel; lia|]. cbn [url_after concat app].
    cbn [NovaClient.listLoop]. rewrite decide_False by assumption. split.
    + intros short Hpage Hshort. rewrite Hpage.
      destruct (decide (length short = 0)) as [Hz|Hz].
      * apply nil_length_inv in Hz as ->. rewrite app_nil_r. reflexivity.
      * rewrite decide_False by lia. destruct fuel; reflexivity.
    + intros e Herr. rewrite Herr. reflexivity.
  - destruct fuel as [|fuel]; [cbn in Hfuel; lia|]. cbn [page_urls] in Hfetch.
    apply Forall2_cons_1 in Hfetch as [Hpage Hrest].
    apply Forall_cons in Hfull as [Hlen Hfull].
    cbn [NovaClient.listLoop url_after]. rewrite decide_False by assumption. rewrite Hpage.
    rewrite decide_False by lia. cbv zeta. rewrite decide_True by assumption.
    fold (marker_url baseURL page).
    destruct (IH fuel (marker_url baseURL page) (allServers ++ page)
                (marker_url_nonempty _ _) ltac:(cbn in Hfuel; lia) Hfull Hrest) as [Hok Herr].
    split.
    + intros short Hs Hl. rewrite (Hok short Hs Hl). cbn [concat].
      rewrite <- !app_assoc. reflexivity.
    + intros e He. apply Herr. assumption.
Qed.

(** Against a service that answers every request with the same full page
    the loop does not end. *)
Lemma listLoop_diverges transport token baseURL page : ∀ fuel nextURL allServers,
  nextURL ≠ "" →
  200 ≤ length page →
  (∀ url, NovaClient.fetchPage transport token url = Ok page) →
  NovaClient.listLoop fuel transport token baseURL nextURL allServers = None.
Proof.
  induction fuel as [|fuel IH]; intros nextURL allServers Hne Hlen Hsame;
    cbn [NovaClient.listLoop]; rewrite decide_False by assumption; [reflexivity|].
  rewrite Hsame, decide_False by lia. cbv zeta. rewrite decide_True by assumption.
  apply IH; try assumption. apply append_nonempty. discriminate.
Qed.

(** X20: [ListAllServers] follows the marker of the last server of
    every page of 200 or more servers, and stops at the first page with
    fewer: its result is the concatenation of the pages, in order. A page
    that fails makes the whole call fail, whatever was fetched before. *)
Theorem ListAllServers_pagination transport BaseURL token (full : list (list NovaServer.t))
    (fuel : nat) :
  let baseURL := servers_url BaseURL in
  length full < fuel →
  Forall (λ page, 200 ≤ length page) full →
  Forall2 (λ url page, NovaClient.fetchPage transport token url = Ok page)
          (page_urls baseURL baseURL full) full →
  (∀ short,
     NovaClient.fetchPage transport token (url_after baseURL baseURL full) = Ok short →
     length short < 200 →
     NovaClient.ListAllServers fuel transport BaseURL token
     = Some (Ok (concat full ++ short)))
  ∧ (∀ e,
       NovaClient.fetchPage transport token (url_after baseURL baseURL full) = Err e →
       NovaClient.ListAllServers fuel transport BaseURL token = Some (Err e)).
Proof.
  cbv zeta. intros Hfuel Hfull Hfetch. unfold NovaClient.ListAllServers. cbv zeta.
  fold (servers_url BaseURL).
  assert (Hne : servers_url BaseURL ≠ "").
  { unfold servers_url. apply append_nonempty. discriminate. }
  exact (listLoop_pages transport token (servers_url BaseURL) full fuel
           (servers_url BaseURL) [] Hne Hfuel Hfull Hfetch).
Qed.

Lemma ListAllServers_pagination_witness :
  NovaClient.ListAllServers 2 two_page_transport "https://nova:8774" "token"
  = Some (Ok (full_page ++ [example_server "SHUTOFF" 2 2048])).
Proof.
  refine (eq_trans (proj1 (ListAllServers_pagination two_page_transport "https://nova:8774"
                            "token" [full_page] 2 _ _ _)
                      [example_server "SHUTOFF" 2 2048] _ _) _).
  - cbn. lia.
  - constructor; [|constructor]. vm_compute. lia.
  - constructor; [|constructor]. vm_compute. reflexivity.
  - vm_compute. reflexivity.
  - cbn. lia.
  - cbn [concat]. rewrite app_nil_r. reflexivity.
Defined.

(** X21: against a service that answers every request with the same
    page of 200 or more servers, the loop of [ListAllServers] does not end,
    however many rounds it is given. *)
Theorem ListAllServers_needs_a_short_page transport BaseURL token page :
  200 ≤ length page →
  (∀ url, NovaClient.fetchPage transport token url = Ok page) →
  ∀ fuel, NovaClient.ListAllServers fuel transport BaseURL token = None.
Proof.
  intros Hlen Hsame fuel. unfold NovaClient.ListAllServers. cbv zeta.
  apply (listLoop_diverges transport token _ page); try assumption.
  apply append_nonempty. discriminate.
Qed.

Lemma ListAllServers_needs_a_short_page_witness :
  NovaClient.ListAllServers 1000 stubborn_transport "https://nova:8774" "token" = None.
Proof.
  apply (ListAllServers_needs_a_short_page stubborn_transport "https://nova:8774" "token"
           full_page).
  - vm_compute. lia.
  - intros url. reflexivity.
Defined.

(** *** [GetAdminToken] *)

Lemma orb5_false (a b c d e : bool) :
  a || b || c || d || e = false → a = false ∧ b = false ∧ c = false ∧ d = false ∧ e = false.
Proof. destruct a, b, c, d, e; cbn; intuition discriminate. Qed.

(** The ways [getAdminToken] ends. *)
Lemma getAdminToken_cases transport BaseURL creds :
  let out := Auth.getAdminToken transport BaseURL creds in
  let req := Request.mk "POST" (TrimRight_slash BaseURL +:+ ":5000/v3/auth/tokens")
               [("Content-Type", "application/json")] (AdminAuth creds) in
  (∃ e, tokenResult out = Err e ∧ assignedProjectID out = None
        ∧ (sent out = [] ∨ sent out = [req]))
  ∨ (∃ token resp,
       tokenResult out = Ok token ∧ sent out = [req] ∧ token ≠ ""
       ∧ KeystoneTransport.Do transport req = Ok resp
       ∧ HTTPResponse.StatusCode resp = StatusCreated
       ∧ HTTPResponse.Header resp !! "X-Subject-Token" = Some token).
Proof.
  cbv zeta. unfold Auth.getAdminToken.
  destruct (KeystoneTransport.NewRequestWithContext transport "POST" _) as [[]|e];
    [|left; cbn; eauto 6].
  cbv zeta. destruct (KeystoneTransport.Do transport _) as [resp|e] eqn:Hdo;
    [|left; cbn; eauto 6].
  destruct (decide (HTTPResponse.StatusCode resp ≠ StatusCreated)) as [Hs|Hs]; [left; cbn; eauto 6|].
  destruct (HTTPResponse.Header resp !! "X-Subject-Token") as [token|] eqn:Hh;
    cbn [default from_option id].
  - destruct (decide (token = "")) as [->|Hne]; [left; cbn; eauto 6|].
    right. exists token, resp. cbn. repeat split; try assumption; try reflexivity.
    destruct (decide (HTTPResponse.StatusCode resp = StatusCreated)); [assumption|contradiction].
  - rewrite decide_True by reflexivity. left. cbn. eauto 6.
Qed.

(** [GetAdminToken] goes on to [getAdminToken] exactly when the six
    variables are all set to something. *)
Lemma GetAdminToken_reads env transport :
  (Forall (λ v, Getenv env v ≠ "") admin_variables
   ∧ Auth.GetAdminToken env transport
     = Auth.getAdminToken transport (Getenv env "KEYSTONE_URL")
         (AdminCredentials.mk (Getenv env "ADMIN_USERNAME") (Getenv env "ADMIN_PASSWORD")
            (Getenv env "ADMIN_DOMAIN_ID") (Getenv env "ADMIN_PROJECT_NAME")
            (Getenv env "ADMIN_DOMAIN_NAME")))
  ∨ (Exists (λ v, Getenv env v = "") admin_variables
     ∧ sent (Auth.GetAdminToken env transport) = []
     ∧ assignedProjectID (Auth.GetAdminToken env transport) = None
     ∧ ∃ e, tokenResult (Auth.GetAdminToken env transport) = Err e).
Proof.
  unfold Auth.GetAdminToken, admin_variables. rewrite !getEnv_empty_default.
  destruct (decide (Getenv env "KEYSTONE_URL" = "")) as [Hu|Hu].
  { right. split; [left; assumption|]. cbn. eauto. }
  cbv zeta. cbn [AdminCredentials.Username AdminCredentials.Password
                   AdminCredentials.AdminDomainID AdminCredentials.AdminProjectName
                   AdminCredentials.AdminDomainName].
  destruct (bool_decide (Getenv env "ADMIN_USERNAME" = "")
            || bool_decide (Getenv env "ADMIN_PASSWORD" = "")
            || bool_decide (Getenv env "ADMIN_DOMAIN_ID" = "")
            || bool_decide (Getenv env "ADMIN_PROJECT_NAME" = "")
            || bool_decide (Getenv env "ADMIN_DOMAIN_NAME" = "")) eqn:Hc.
  - right. split; [|cbn; eauto].
    repeat (apply orb_true_iff in Hc as [Hc|Hc]);
      apply bool_decide_eq_true in Hc; right;
      repeat (first [left; assumption | right]).
  - left. apply orb5_false in Hc as (H1 & H2 & H3 & H4 & H5).
    apply bool_decide_eq_false in H1, H2, H3, H4, H5.
    split; [|reflexivity]. repeat constructor; assumption.
Qed.

(** X22: [GetAdminToken] returns a token only when [KEYSTONE_URL],
    [ADMIN_USERNAME], [ADMIN_PASSWORD], [ADMIN_DOMAIN_ID],
    [ADMIN_PROJECT_NAME] and [ADMIN_DOMAIN_NAME] are all set to something,
    its one request, a POST to the base URL without trailing slashes
    followed by [:5000/v3/auth/tokens], was answered 201, and the token of
    the [X-Subject-Token] header is not empty. When one of the six is
    missing it fails without sending anything, and [getClusterUsage] then
    answers 401. It never sends more than one request. *)
Theorem GetAdminToken_guard env transport :
  let out := Auth.GetAdminToken env transport in
  (∀ token,
     tokenResult out = Ok token →
     token ≠ ""
     ∧ Forall (λ v, Getenv env v ≠ "") admin_variables
     ∧ ∃ req resp,
         sent out = [req]
         ∧ Request.Method req = "POST"
         ∧ Request.URL req
           = TrimRight_slash (Getenv env "KEYSTONE_URL") +:+ ":5000/v3/auth/tokens"
         ∧ KeystoneTransport.Do transport req = Ok resp
         ∧ HTTPResponse.StatusCode resp = StatusCreated
         ∧ HTTPResponse.Header resp !! "X-Subject-Token" = Some token)
  ∧ (∀ v, v ∈ admin_variables → Getenv env v = "" →
       sent out = [] ∧ ∃ e, tokenResult out = Err e)
  ∧ length (sent out) ≤ 1
  ∧ (∀ w v,
       ClusterWorld.GetAdminToken w = tokenResult out →
       v ∈ admin_variables → Getenv env v = "" →
       ∃ body, getClusterUsage w = ClusterError StatusUnauthorized body).
Proof.
  cbv zeta.
  assert (Hmissing : ∀ v, v ∈ admin_variables → Getenv env v = "" →
            sent (Auth.GetAdminToken env transport) = []
            ∧ ∃ e, tokenResult (Auth.GetAdminToken env transport) = Err e).
  { intros v Hv He.
    destruct (GetAdminToken_reads env transport) as [[Hall _]|(_ & Hs & _ & Hr)]; [|auto].
    rewrite Forall_forall in Hall. destruct (Hall v Hv He). }
  destruct (GetAdminToken_reads env transport) as [[Hall Heq]|(Hex & Hs & _ & e & Hr)].
  - rewrite Heq in *.
    pose proof (getAdminToken_cases transport (Getenv env "KEYSTONE_URL")
                  (AdminCredentials.mk (Getenv env "ADMIN_USERNAME")
                     (Getenv env "ADMIN_PASSWORD") (Getenv env "ADMIN_DOMAIN_ID")
                     (Getenv env "ADMIN_PROJECT_NAME") (Getenv env "ADMIN_DOMAIN_NAME")))
      as Hcases.
    cbv zeta in Hcases.
    destruct Hcases as [(e & Hr & _ & Hsent)|(token & resp & Hr & Hsent & Hne & Hdo & Hst & Hh)].
    + split; [intros token Ht; rewrite Hr in Ht; discriminate|].
      split; [exact Hmissing|]. split; [destruct Hsent as [->| ->]; cbn; lia|].
      intros w v Hw Hv He. destruct (Hmissing v Hv He) as [_ [e' He']].
      unfold getClusterUsage. rewrite Hw, He'. eauto.
    + split.
      { intros token' Ht. rewrite Hr in Ht. injection Ht as <-.
        split; [assumption|]. split; [assumption|].
        eexists _, resp. split; [exact Hsent|]. cbn. repeat split; assumption. }
      split; [exact Hmissing|]. split; [rewrite Hsent; cbn; lia|].
      intros w v Hw Hv He. destruct (Hmissing v Hv He) as [_ [e' He']].
      unfold getClusterUsage. rewrite Hw, He'. eauto.
  - split; [intros token Ht; rewrite Hr in Ht; discriminate|].
    split; [exact Hmissing|]. split; [rewrite Hs; cbn; lia|].
    intros w v Hw Hv He. unfold getClusterUsage. rewrite Hw, Hr. eauto.
Qed.

(** *** [LoadDomainNames] *)

Lemma domainFileLoop_spec TrimSpace texts :
  domainFileLoop TrimSpace texts
  = TrimSpace <$> List.filter (names_domain TrimSpace) texts.
Proof.
  unfold domainFileLoop.
  assert (H : ∀ acc,
            foldl (λ domains text,
                     let line := TrimSpace text in
                     if bool_decide (line = "") || is_comment line then domains
                     else domains ++ [line]) acc texts
            = acc ++ (TrimSpace <$> List.filter (names_domain TrimSpace) texts)).
  { induction texts as [|text texts IH]; intros acc; cbn [foldl List.filter].
    - cbn. rewrite app_nil_r. reflexivity.
    - rewrite IH. cbv zeta. unfold names_domain.
      destruct (bool_decide (TrimSpace text = "") || is_comment (TrimSpace text));
        cbn [negb fmap list_fmap]; [reflexivity|].
      rewrite <- app_assoc. reflexivity. }
  apply (H []).
Qed.

(** X23: [LoadDomainNames] returns the trimmed lines of the file, in
    order, leaving out those that are blank or start with [#] once trimmed:
    no name it returns is empty or a comment. For a file with no other
    lines it returns the empty list, and [getTotalUsage] answers 400; a scan
    error makes it fail, whatever was read. *)
Theorem LoadDomainNames_skips Open TrimSpace path :
  (∀ names,
     LoadDomainNames_file Open TrimSpace path = Ok names →
     ∃ file,
       Open path = Ok file ∧ scanErr file = None
       ∧ names = TrimSpace <$> List.filter (names_domain TrimSpace) (scannedLines file)
       ∧ Forall (λ name, name ≠ "" ∧ is_comment name = false) names)
  ∧ (∀ file,
       Open path = Ok file → scanErr file = None →
       Forall (λ text, names_domain TrimSpace text = false) (scannedLines file) →
       LoadDomainNames_file Open TrimSpace path = Ok []
       ∧ ∀ w schedule,
           LoadDomainNames w (DOMAINS_FILE w) = LoadDomainNames_file Open TrimSpace path →
           getTotalUsage w schedule
           = failWith StatusBadRequest "no domains configured in domain.txt")
  ∧ (∀ file e,
       Open path = Ok file → scanErr file = Some e →
       LoadDomainNames_file Open TrimSpace path = Err e).
Proof.
  unfold LoadDomainNames_file. split; [|split].
  - intros names H. destruct (Open path) as [file|e]; [|discriminate].
    cbv zeta in H. destruct (scanErr file) eqn:Hs; [discriminate|]. injection H as <-.
    exists file. split; [reflexivity|]. split; [exact Hs|].
    rewrite domainFileLoop_spec. split; [reflexivity|].
    apply Forall_fmap, Forall_forall. intros text Hin.
    apply list_elem_of_In, filter_In in Hin as [_ Hn]. unfold names_domain in Hn. cbn.
    apply negb_true_iff, orb_false_iff in Hn as [H1 H2].
    apply bool_decide_eq_false in H1. auto.
  - intros file Hopen Herr Hall. rewrite Hopen, Herr. cbv zeta.
    assert (Hnone : domainFileLoop TrimSpace (scannedLines file) = []).
    { rewrite domainFileLoop_spec. induction Hall as [|text texts Ht _ IH]; [reflexivity|].
      cbn [List.filter]. rewrite Ht. exact IH. }
    rewrite Hnone. split; [reflexivity|].
    intros w schedule Hw. unfold getTotalUsage. rewrite Hw. reflexivity.
  - intros file e Hopen Herr. rewrite Hopen, Herr. reflexivity.
Qed.
